(** * Emerge language parsers: a shallow embedding and its properties

    The development follows the Python sources under
    [emerge/languages/]: [vbnetparser.py], [csharpparser.py],
    [cssparser.py], [scssparser.py], [twigparser.py], [jsonparser.py] and
    [xmlparser.py].

    Python strings are modelled as lists of 8-bit code points
    ([list ascii], the Latin-1 range); Python lists as lists; [dict]s,
    which iterate in insertion order, as association lists; the list
    objects that results share and mutate as the cells of a store
    ([gmap]). *)

From Stdlib Require Import Strings.Ascii Strings.Byte List ZArith Lia Bool.
From stdpp Require Import base list gmap.
Import ListNotations.

(** ** Strings *)

Definition str := list ascii.

Inductive str_literal : Set :=
| LitNil
| LitCons (a : ascii) (s : str_literal).

Fixpoint str_parse (bs : list Byte.byte) : str_literal :=
  match bs with
  | [] => LitNil
  | b :: r => LitCons (ascii_of_byte b) (str_parse r)
  end.

Fixpoint str_print (s : str_literal) : list Byte.byte :=
  match s with
  | LitNil => []
  | LitCons a r => byte_of_ascii a :: str_print r
  end.

Declare Scope str_scope.
Delimit Scope str_scope with str.
#[warnings="-via-type-remapping,-via-type-mismatch"]
String Notation str str_parse str_print
  (via str_literal mapping [[nil] => LitNil, [cons] => LitCons]) : str_scope.
Open Scope str_scope.

(** ** The Python primitives the parsers use *)

Module Py.

Definition LF : ascii := ascii_of_nat 10.
Definition CR : ascii := ascii_of_nat 13.
(** the double quote character *)
Definition DQ : ascii := ascii_of_nat 34.

Definition code (c : ascii) : nat := nat_of_ascii c.

(** [str.isspace] on one character, which is also the class [\s] of
    [re] on [str] patterns: TAB, LF, VT, FF, CR, FS, GS, RS, US,
    SPACE, NEL and NBSP. *)
Definition isspace (c : ascii) : bool :=
  let n := code c in
  ((9 <=? n) && (n <=? 13)) || ((28 <=? n) && (n <=? 32))
  || (n =? 133) || (n =? 160).

(** The line boundaries of [str.splitlines]. *)
Definition is_linebreak (c : ascii) : bool :=
  let n := code c in
  ((10 <=? n) && (n <=? 13)) || ((28 <=? n) && (n <=? 30)) || (n =? 133).

Definition is_lf (c : ascii) : bool := Ascii.eqb c LF.
Definition is_cr (c : ascii) : bool := Ascii.eqb c CR.

Definition str_eqb (a b : str) : bool := bool_decide (a = b).

(** [s.startswith(p)] *)
Fixpoint startswith (s p : str) {struct p} : bool :=
  match p, s with
  | [], _ => true
  | _ :: _, [] => false
  | a :: p', c :: s' => Ascii.eqb c a && startswith s' p'
  end.

(** [sub in s] on strings *)
Fixpoint contains (s sub : str) : bool :=
  startswith s sub ||
  match s with
  | [] => false
  | _ :: s' => contains s' sub
  end.

(** [any(keyword in s for keyword in keywords)] *)
Definition any_in (keywords : list str) (s : str) : bool :=
  existsb (contains s) keywords.

(** [x in l] on a list of strings *)
Definition mem (x : str) (l : list str) : bool :=
  existsb (str_eqb x) l.

(** [sep.join(l)] *)
Fixpoint join (sep : str) (l : list str) : str :=
  match l with
  | [] => []
  | [x] => x
  | x :: l' => x ++ sep ++ join sep l'
  end.

Fixpoint lstrip (s : str) : str :=
  match s with
  | [] => []
  | c :: s' => if isspace c then lstrip s' else s
  end.

(** [s.strip()] *)
Definition strip (s : str) : str := rev (lstrip (rev (lstrip s))).

Fixpoint lstrip_char (ch : ascii) (s : str) : str :=
  match s with
  | [] => []
  | c :: s' => if Ascii.eqb c ch then lstrip_char ch s' else s
  end.

(** [s.strip(ch)] for a one-character argument *)
Definition strip_char (ch : ascii) (s : str) : str :=
  rev (lstrip_char ch (rev (lstrip_char ch s))).

(** [s.split(sep)] for a one-character separator *)
Fixpoint split_go (sep : ascii) (cur : str) (s : str) : list str :=
  match s with
  | [] => [cur]
  | c :: s' =>
      if Ascii.eqb c sep then cur :: split_go sep [] s'
      else split_go sep (cur ++ [c]) s'
  end.

Definition split (sep : ascii) (s : str) : list str := split_go sep [] s.

(** [s.splitlines()]: [after_cr] remembers that the previous character
    was a carriage return, whose following line feed belongs to the
    same boundary. *)
Fixpoint splitlines_go (after_cr : bool) (cur : str) (s : str) : list str :=
  match s with
  | [] => match cur with [] => [] | _ => [cur] end
  | c :: s' =>
      if is_lf c && after_cr then splitlines_go false [] s'
      else if is_linebreak c then cur :: splitlines_go (is_cr c) [] s'
      else splitlines_go false (cur ++ [c]) s'
  end.

Definition splitlines (s : str) : list str := splitlines_go false [] s.

(** [s.replace(old, new)]: leftmost, non-overlapping occurrences.
    [skip] counts the characters of a matched occurrence still to be
    dropped. *)
Fixpoint replace_go (old new : str) (skip : nat) (s : str) : str :=
  match s with
  | [] => []
  | c :: s' =>
      match skip with
      | S k => replace_go old new k s'
      | O =>
          if startswith s old
          then new ++ replace_go old new (length old - 1) s'
          else c :: replace_go old new 0 s'
      end
  end.

Definition replace (old new : str) (s : str) : str :=
  match old with
  | [] => new ++ flat_map (fun c => c :: new) s
  | _ => replace_go old new 0 s
  end.

(** [re.findall(r'\S+|\n', s)]: the maximal runs of non-whitespace
    characters, and every line feed as a token of its own. [cur] is the
    run being read. *)
Definition flush (cur : str) : list str :=
  match cur with
  | [] => []
  | _ => [cur]
  end.

Fixpoint findall_go (cur : str) (s : str) : list str :=
  match s with
  | [] => flush cur
  | c :: s' =>
      if isspace c
      then flush cur ++ (if is_lf c then [[c]] else []) ++ findall_go [] s'
      else findall_go (cur ++ [c]) s'
  end.

Definition findall_tokens (s : str) : list str := findall_go [] s.

(** Exceptions the modelled code raises or catches. *)
Inductive exn : Set :=
| TypeError
| IndexError
| ParseException.

Inductive result (A : Type) : Type :=
| Ok (a : A)
| Raise (e : exn).
Arguments Ok {A} a.
Arguments Raise {A} e.

(** [l[i]] for a non-negative index *)
Definition index {A} (l : list A) (i : nat) : result A :=
  match nth_error l i with
  | Some x => Ok x
  | None => Raise IndexError
  end.

End Py.

(** The one-character string holding a line feed, Python's ["\n"]. *)
Definition NL : str := [Py.LF].

(** ** Insertion-ordered dictionaries

    A Python [dict] iterates in insertion order, and assigning to a key
    that is present replaces the value where it stands. *)

Module Dict.

Definition t (V : Type) : Type := list (str * V).

Fixpoint get {V} (d : t V) (k : str) : option V :=
  match d with
  | [] => None
  | (k', v) :: d' => if Py.str_eqb k' k then Some v else get d' k
  end.

(** [d[k] = v] *)
Fixpoint set {V} (d : t V) (k : str) (v : V) : t V :=
  match d with
  | [] => [(k, v)]
  | (k', v') :: d' =>
      if Py.str_eqb k' k then (k, v) :: d' else (k', v') :: set d' k v
  end.

Definition keys {V} (d : t V) : list str := map fst d.
Definition values {V} (d : t V) : list V := map snd d.

End Dict.

(** ** The data model: results, the object store, statistics *)

(** List objects that are mutated in place ([scanned_import_dependencies],
    [scanned_inheritance_dependencies]) live in a store and are named by
    their address, so that two results holding the same address share
    one list. *)
Definition loc := nat.

Module Heap.

Record t := mk {
  cells : gmap loc (list str);
  next : loc
}.

Definition empty : t := mk ∅ 0.

(** a fresh list object, as the literal [[]] creates one *)
Definition alloc (h : t) (l : list str) : loc * t :=
  (next h, mk (<[next h := l]> (cells h)) (S (next h))).

Definition read (h : t) (a : loc) : list str :=
  default [] (cells h !! a).

(** [lst.append(x)] on the object at [a] *)
Definition append (h : t) (a : loc) (x : str) : t :=
  mk (<[a := read h a ++ [x]]> (cells h)) (next h).

Definition write (h : t) (a : loc) (l : list str) : t :=
  mk (<[a := l]> (cells h)) (next h).

End Heap.

(** Modelled from the spec: the [FileResult] of results.py, which is not
    among the sources. Section 3: identity (absolute path, path relative
    to the analysis root used as unique key, display name),
    [module_name], [import_dependencies], the token sequence. [analysis]
    is the analysis object the result was created for (the keyword
    [analysis=] of the constructor calls, read back as [v.analysis]); the
    parsers compare it by identity, so a number names it. *)
Module FileResult.

Record t := mk {
  analysis : nat;
  unique_name : str;
  scanned_file_name : str;
  absolute_name : str;
  display_name : str;
  module_name : str;
  scanned_tokens : list str;
  scanned_import_dependencies : loc;
  source : str
}.

Definition set_module_name (r : t) (m : str) : t :=
  mk (analysis r) (unique_name r) (scanned_file_name r) (absolute_name r)
     (display_name r) m (scanned_tokens r) (scanned_import_dependencies r)
     (source r).

End FileResult.

(** Modelled from the spec: the [EntityResult] of results.py, which is
    not among the sources. Section 3: [entity_name], [unique_name], the
    token span, [import_dependencies], [inheritance_dependencies] and
    the back-reference to the owning file; the fields are those the
    constructor call of vbnetparser.py:382 names. *)
Module EntityResult.

Record t := mk {
  analysis : nat;
  entity_name : str;
  unique_name : str;
  absolute_name : str;
  display_name : str;
  scanned_file_name : str;
  module_name : str;
  scanned_tokens : list str;
  scanned_import_dependencies : loc;
  scanned_inheritance_dependencies : loc;
  parent_file_result : FileResult.t
}.

End EntityResult.

Inductive AbstractResult : Type :=
| IsFile (f : FileResult.t)
| IsEntity (e : EntityResult.t).

(** Modelled from the spec: the [Statistics] of stats.py, which is not
    among the sources. Section 6: "two counters exposed per analysis,
    parse hits and parse misses". *)
Module Statistics.

Record t := mk {
  parsing_hits : nat;
  parsing_misses : nat
}.

Inductive Key : Set := PARSING_HITS | PARSING_MISSES.

Definition increment (s : t) (k : Key) : t :=
  match k with
  | PARSING_HITS => mk (S (parsing_hits s)) (parsing_misses s)
  | PARSING_MISSES => mk (parsing_hits s) (S (parsing_misses s))
  end.

End Statistics.

(** The state a parser run threads: its [_results] registry, the store
    of list objects and the statistics of the analysis. *)
Record Parser := mkParser {
  _results : Dict.t AbstractResult;
  heap : Heap.t;
  statistics : Statistics.t
}.

Definition set_heap (p : Parser) (h : Heap.t) : Parser :=
  mkParser (_results p) h (statistics p).
Definition set_statistics (p : Parser) (s : Statistics.t) : Parser :=
  mkParser (_results p) (heap p) s.

(** [isinstance(v, AbstractFileResult)] over the registry's values *)
Definition file_results (d : Dict.t AbstractResult) : list FileResult.t :=
  flat_map (fun kv => match snd kv with IsFile f => [f] | IsEntity _ => [] end) d.

(** [v.analysis is analysis and isinstance(v, FileResult)] over the
    registry's values *)
Definition file_results_of (analysis : nat) (d : Dict.t AbstractResult)
    : list FileResult.t :=
  List.filter (fun v => Nat.eqb (FileResult.analysis v) analysis) (file_results d).

(** Modelled from the spec: the construction of an [EntityResult] in
    [FileResult.generate_entity_results_from_scopes] (results.py is not
    among the sources), from which the C#, CSS, SCSS and Twig parsers
    take their entities. Section 3: the entity's [import_dependencies]
    are "copied" from the owning file's, a list of the entity's own,
    empty until the attachment fills it, and the back-reference to the
    owning file is set at construction; the one constructor call under
    src/ (vbnetparser.py:382) passes [scanned_import_dependencies=[]].
    The name is the raw captured name; the other identity fields are
    taken over from the owning file. *)
Definition create_entity_result (h : Heap.t) (result : FileResult.t)
    (entity_name : str) (scanned_tokens : list str) : EntityResult.t * Heap.t :=
  let '(imports, h) := Heap.alloc h [] in
  let '(inheritance, h) := Heap.alloc h [] in
  (EntityResult.mk (FileResult.analysis result) entity_name entity_name
     (FileResult.absolute_name result) (FileResult.display_name result)
     (FileResult.scanned_file_name result) (FileResult.module_name result)
     scanned_tokens imports inheritance result, h).

(** ** The pyparsing combinators the header grammars are built from *)

Module pp.

(** pyparsing's default whitespace, skipped before every element *)
Definition is_white (c : ascii) : bool :=
  let n := Py.code c in (n =? 32) || (n =? 10) || (n =? 9) || (n =? 13).

Fixpoint skip_white (s : str) : str :=
  match s with
  | [] => []
  | c :: s' => if is_white c then skip_white s' else s
  end.

Definition is_alpha (c : ascii) : bool :=
  let n := Py.code c in
  ((65 <=? n) && (n <=? 90)) || ((97 <=? n) && (n <=? 122)).

Definition is_num (c : ascii) : bool :=
  let n := Py.code c in (48 <=? n) && (n <=? 57).

(** [pp.alphanums] *)
Definition alphanums (c : ascii) : bool := is_alpha c || is_num c.

Definition is_char (ch : ascii) (c : ascii) : bool := Ascii.eqb c ch.

(** [Keyword.DEFAULT_KEYWORD_CHARS]: [alphanums + "_$"] *)
Definition ident_char (c : ascii) : bool :=
  alphanums c || is_char "_" c || is_char "$" c.

(** A parse element maps the rest of the input to the tokens it matched
    and the input left, or fails ([ParseException]). *)
Definition element : Type := str -> option (list str * str).

(** [pp.Keyword(k)]: the literal [k], not followed by an identifier
    character. The element is only used where the character before it
    is the start of the input or whitespace, so the look-behind of
    pyparsing always holds. *)
Definition Keyword (k : str) : element := fun s =>
  let s := skip_white s in
  if Py.startswith s k then
    match drop (length k) s with
    | c :: _ as rest => if ident_char c then None else Some ([k], rest)
    | [] => Some ([k], [])
    end
  else None.

Fixpoint span (chars : ascii -> bool) (s : str) : str * str :=
  match s with
  | [] => ([], [])
  | c :: s' =>
      if chars c then let '(w, r) := span chars s' in (c :: w, r)
      else ([], s)
  end.

(** [pp.Word(chars)]: the longest non-empty run of [chars] *)
Definition Word (chars : ascii -> bool) : element := fun s =>
  match span chars (skip_white s) with
  | ([], _) => None
  | (w, r) => Some ([w], r)
  end.

(** [a | b] ([MatchFirst]) *)
Definition MatchFirst (a b : element) : element := fun s =>
  match a s with
  | Some r => Some r
  | None => b s
  end.

(** [a + b] ([And]) *)
Definition And (a b : element) : element := fun s =>
  match a s with
  | Some (ta, r) =>
      match b r with
      | Some (tb, r') => Some (ta ++ tb, r')
      | None => None
      end
  | None => None
  end.

(** [e.parseString(s)]: the tokens matched, trailing input ignored *)
Definition parseString (e : element) (s : str) : option (list str) :=
  fst <$> e s.

(** a string used as an element, [pp.Literal(lit)]: the literal itself *)
Definition Literal (lit : str) : element := fun s =>
  let s := skip_white s in
  if Py.startswith s lit then Some ([lit], drop (length lit) s) else None.

(** [pp.FollowedBy(e)]: a look-ahead; [e] has to match, nothing is
    consumed and no token is kept *)
Definition FollowedBy (e : element) : element := fun s =>
  let s := skip_white s in
  match e s with
  | Some _ => Some ([], s)
  | None => None
  end.

(** [pp.SkipTo(e)]: the input is skipped, one character at a time, up to
    the first position where [e] matches; the text skipped is the token.
    It fails when [e] matches nowhere. *)
Fixpoint skip_to (e : element) (skipped : str) (s : str) : option (list str * str) :=
  match e s with
  | Some _ => Some ([skipped], s)
  | None =>
      match s with
      | [] => None
      | c :: s' => skip_to e (skipped ++ [c]) s'
      end
  end.

Definition SkipTo (e : element) : element := fun s =>
  skip_to e [] (skip_white s).

End pp.

(** ** What the parsers share: tokenizer and read-ahead *)

Module ParsingMixin.

(** [preprocess_file_content_and_generate_token_list_by_mapping]
    (vbnetparser.py:265; the other parsers call the method of the same
    name of [ParsingMixin]): every entry of the mapping is applied as a
    substring replacement, in the order of the [dict], and the result is
    split into tokens. *)
Definition apply_mapping (mapping_dict : list (str * str)) (file_content : str) : str :=
  fold_left (fun content om => Py.replace (fst om) (snd om) content)
            mapping_dict file_content.

Definition preprocess_file_content_and_generate_token_list_by_mapping
    (file_content : str) (mapping_dict : list (str * str)) : list str :=
  Py.findall_tokens (apply_mapping mapping_dict file_content).

(** Modelled from the spec: the punctuation table of
    [ParsingMixin.preprocess_file_content_and_generate_token_list]
    (abstractparser.py is not among the sources). Section 4.1: "Mapping
    entries pad punctuation ([{], [}], [:], [,], quotes, angle brackets,
    etc.) with surrounding spaces". *)
Definition default_token_mappings : list (str * str) :=
  [ (":", " : "); (";", " ; "); ("{", " { "); ("}", " } ");
    ("(", " ( "); (")", " ) "); ("[", " [ "); ("]", " ] ");
    ("?", " ? "); ("!", " ! "); (",", " , "); ("<", " < ");
    (">", " > "); ([Py.DQ], " " ++ [Py.DQ] ++ " ") ].

(** Modelled from the spec:
    [ParsingMixin.preprocess_file_content_and_generate_token_list]
    (abstractparser.py is not among the sources), the tokenizer of
    section 4.1 with the default table: substitution, then whitespace
    splitting with the newline kept as a token. *)
Definition preprocess_file_content_and_generate_token_list (file_content : str) : list str :=
  preprocess_file_content_and_generate_token_list_by_mapping
    file_content default_token_mappings.

(** [_gen_word_read_ahead] (vbnetparser.py:287). [following] starts as
    [None] and is only reassigned while [index < length - 1]; the
    generator is modelled by the list of the triples it yields. The
    parsers that do not define the method themselves call the one of the
    same name they inherit from [ParsingMixin]; abstractparser.py is not
    among the sources, and this body, the only one under src/, stands
    for it. *)
Fixpoint gen_word_read_ahead_from (list_of_words : list str) (length : nat)
    (following : option (list str)) (index : nat) (rest : list str)
    : list (nat * str * option (list str)) :=
  match rest with
  | [] => []
  | obj :: rest' =>
      let following :=
        if index <? length - 1 then Some (drop (index + 1) list_of_words)
        else following in
      (index, obj, following)
        :: gen_word_read_ahead_from list_of_words length following (S index) rest'
  end.

Definition _gen_word_read_ahead (list_of_words : list str)
    : list (nat * str * option (list str)) :=
  gen_word_read_ahead_from list_of_words (length list_of_words) None 0 list_of_words.

(** [create_read_ahead_string] (vbnetparser.py:297): [read_ahead +=
    following] raises [TypeError] when [following] is [None]. As for
    [_gen_word_read_ahead], the other parsers inherit the method of the
    same name. *)
Definition create_read_ahead_string (obj : str) (following : option (list str))
    : Py.result str :=
  match following with
  | None => Py.Raise Py.TypeError
  | Some following => Py.Ok (Py.join " " ([obj] ++ following))
  end.

End ParsingMixin.

(** ** vbnetparser.py *)

Module VBNet.

(** [VBNetParsingKeyword] *)
Definition CLASS : str := "Class".
Definition STRUCT : str := "Structure".
Definition INTERFACE : str := "Interface".
Definition ENUM : str := "Enum".
Definition NAMESPACE : str := "Namespace".
Definition IMPORT : str := "Imports".
Definition CLOSE_SCOPE : str := "End".
Definition SUB : str := "Sub".
Definition FUNCTION : str := "Function".
Definition IF : str := "If".
Definition INLINE_COMMENT : str := "'".
Definition START_BLOCK_COMMENT : str := "''".
Definition STOP_BLOCK_COMMENT : str := "''".
Definition REGION : str := "Region".
Definition INHERITANCE : str := "Inherits".

Definition _token_mappings : list (str * str) :=
  [ (":", " : "); (";", " ; "); ("(", " ( "); (")", " ) ");
    ("{", " { "); ("}", " } "); ("[", " [ "); ("]", " ] ");
    ("?", " ? "); ("!", " ! "); (",", " , "); ("<", " < ");
    (">", " > "); ([Py.DQ], " " ++ [Py.DQ] ++ " ") ].

Definition _ignore_entity_keywords : list str :=
  [ "Class"; "Structure"; "Interface"; "Enum"; "Namespace"; "Imports";
    "Public"; "Private"; "Protected"; "Friend"; "Static"; "ReadOnly";
    "Overridable"; "MustOverride"; "NotOverridable"; "Shadows"; "New"; "Me";
    "MyBase"; "Event"; "Delegate"; "Operator"; "Implicit"; "Explicit" ].

(** the three characters the source compares with: U+00EF U+00BB U+00BF *)
Definition BOM : str := [ascii_of_nat 239; ascii_of_nat 187; ascii_of_nat 191].

Definition remove_bom (input_string : str) : str :=
  if Py.startswith input_string BOM then drop 3 input_string else input_string.

(** [_filter_source_tokens_without_comments]: the loop over the lines,
    [active_block_comment] threaded. *)
Fixpoint filter_lines (line_comment_string start_comment_string stop_comment_string : str)
    (active_block_comment : bool) (source_lines : list str) : list str :=
  match source_lines with
  | [] => []
  | line :: rest =>
      let continue_ := filter_lines line_comment_string start_comment_string
                         stop_comment_string in
      if Py.startswith (Py.strip line) "#Region"
         || Py.startswith (Py.strip line) "#End Region"
      then continue_ active_block_comment rest
      else if Py.startswith (Py.strip line) start_comment_string
      then continue_ true rest
      else if Py.startswith (Py.strip line) stop_comment_string
      then continue_ false rest
      else if Py.startswith (Py.strip line) line_comment_string
      then continue_ active_block_comment rest
      else (if active_block_comment then [] else [line])
             ++ continue_ active_block_comment rest
  end.

Definition _filter_source_tokens_without_comments (list_of_words : list str)
    (line_comment_string start_comment_string stop_comment_string : str) : str :=
  let source := Py.join " " list_of_words in
  let source_lines := Py.splitlines source in
  Py.join NL (filter_lines line_comment_string start_comment_string
                stop_comment_string false source_lines).

(** the loop of [preprocess_vbnet_source] over
    [zip(scanned_tokens, scanned_tokens[1:] + [""])] *)
Fixpoint filter_regions (region_start_block region_end_block : str)
    (token_before : str) (pairs : list (str * str)) : list str :=
  match pairs with
  | [] => []
  | (current_token, next_token) :: rest =>
      let valid_token := true in
      let valid_token :=
        if Py.str_eqb current_token region_start_block then false else valid_token in
      let valid_token :=
        if Py.str_eqb token_before region_start_block
           && Py.startswith (Py.strip current_token) [Py.DQ]
        then false else valid_token in
      let valid_token :=
        if Py.str_eqb (current_token ++ " " ++ next_token) region_end_block
        then false else valid_token in
      (if valid_token then [current_token] else [])
        ++ filter_regions region_start_block region_end_block current_token rest
  end.

Definition preprocess_vbnet_source (scanned_tokens : list str) : list str :=
  let region_start_block := "#" ++ REGION in
  let region_end_block := "#" ++ CLOSE_SCOPE ++ " " ++ REGION in
  let filtered_tokens :=
    filter_regions region_start_block region_end_block ""
      (combine scanned_tokens (drop 1 scanned_tokens ++ [""])) in
  let source_string_no_comments :=
    _filter_source_tokens_without_comments filtered_tokens
      INLINE_COMMENT START_BLOCK_COMMENT STOP_BLOCK_COMMENT in
  ParsingMixin.preprocess_file_content_and_generate_token_list_by_mapping
    source_string_no_comments _token_mappings.

(** Modelled from the spec: [FileResult.create_file_result] (results.py
    is not among the sources). Section 3: the path relative to the
    analysis root is the unique key, [import_dependencies] starts as an
    empty list of its own; the result keeps the [analysis] it is created
    for. *)
Definition create_file_result (h : Heap.t) (analysis : nat)
    (relative_file_path_to_analysis absolute_name display_name : str)
    (scanned_tokens : list str) (source : str) : FileResult.t * Heap.t :=
  let '(imports, h) := Heap.alloc h [] in
  (FileResult.mk analysis
     relative_file_path_to_analysis relative_file_path_to_analysis
     absolute_name display_name "" scanned_tokens imports source, h).

(** [generate_file_result_from_analysis]; [parent_analysis_source_path]
    is [f"{Path(analysis.source_directory).parent}/"]. *)
Definition generate_file_result_from_analysis (p : Parser) (analysis : nat)
    (parent_analysis_source_path : str)
    (file_name full_file_path file_content : str) : Parser :=
  let file_content := remove_bom file_content in
  let scanned_tokens :=
    ParsingMixin.preprocess_file_content_and_generate_token_list file_content in
  let scanned_tokens := preprocess_vbnet_source scanned_tokens in
  let relative_file_path_to_analysis :=
    Py.replace parent_analysis_source_path "" full_file_path in
  let '(file_result, h) :=
    create_file_result (heap p) analysis relative_file_path_to_analysis
      full_file_path file_name scanned_tokens file_content in
  mkParser (Dict.set (_results p) (FileResult.unique_name file_result)
              (IsFile file_result))
           h (statistics p).

(** the header grammar of [generate_entity_results_from_analysis]:
    one of the four keywords, then [Word(alphanums + '_')] named
    [entity_name] *)
Definition entity_name_chars (c : ascii) : bool :=
  pp.alphanums c || pp.is_char "_" c.

Definition match_expression : pp.element :=
  pp.And
    (pp.MatchFirst (pp.Keyword CLASS)
       (pp.MatchFirst (pp.Keyword STRUCT)
          (pp.MatchFirst (pp.Keyword INTERFACE) (pp.Keyword ENUM))))
    (pp.Word entity_name_chars).

(** [parsing_result.entity_name]: the second token of a match *)
Definition parsed_entity_name (parsing_result : list str) : str :=
  nth 1 parsing_result "".

Definition entity_keywords : list str := [CLASS; STRUCT; INTERFACE; ENUM].

(** the keywords that open a scope inside an entity body *)
Definition scope_keywords : list str :=
  [NAMESPACE; CLASS; STRUCT; INTERFACE; ENUM; FUNCTION; SUB; IF].

(** *** The body-capture loop (vbnetparser.py:339-377) *)

Record capture := mkCapture {
  iterTokens : nat;
  iterNextTokens : nat;
  scope_level : Z;
  captured : list str
}.

Inductive outcome : Type :=
| Continue (c : capture)
| Break (c : capture).

(** one turn of the [while] body, entered with the loop condition true *)
Definition capture_step (close_scope_character : str)
    (all_tokens following_tokens : list str) (c : capture) : outcome :=
  let token := nth (iterTokens c) all_tokens "" in
  let next_token := nth (iterNextTokens c) following_tokens "" in
  let level :=
    if Py.any_in scope_keywords token then (scope_level c + 1)%Z
    else scope_level c in
  if Py.str_eqb token close_scope_character && Py.any_in scope_keywords next_token
  then
    let level := (level - 1)%Z in
    if (level =? 0)%Z
    then Break (mkCapture (iterTokens c) (iterNextTokens c) level (captured c))
    else Continue (mkCapture (iterTokens c + 2 + 1) (iterNextTokens c + 2 + 1)
                     level (captured c ++ [token]))
  else Continue (mkCapture (iterTokens c + 1) (iterNextTokens c + 1)
                   level (captured c ++ [token])).

(** the [while] loop, with a bound on the number of turns; [None] when
    the bound is reached with the loop still running *)
Fixpoint capture_loop (fuel : nat) (close_scope_character : str)
    (all_tokens following_tokens : list str) (c : capture) : option capture :=
  if (iterTokens c <? length all_tokens)
     && (iterNextTokens c <? length following_tokens)
  then
    match fuel with
    | O => None
    | S fuel' =>
        match capture_step close_scope_character all_tokens following_tokens c with
        | Break c' => Some c'
        | Continue c' =>
            capture_loop fuel' close_scope_character all_tokens following_tokens c'
        end
    end
  else Some c.

(** the capture for one entity: [all_tokens = [obj] + following] *)
Definition capture_body (close_scope_character : str) (obj : str)
    (following : list str) : option capture :=
  let all_tokens := [obj] ++ following in
  let following_tokens := drop 1 all_tokens ++ [""] in
  capture_loop (length all_tokens) close_scope_character all_tokens
    following_tokens (mkCapture 0 0 0 []).

(** *** [generate_entity_results_from_scopes] *)

Record markers := mkMarkers {
  line_comment : str;
  start_block_comment : str;
  stop_block_comment : str
}.

Record scan := mkScan {
  previous_obj : str;
  found_entities : Dict.t (list str);
  scan_statistics : Statistics.t
}.

(** One turn of the [for] loop over the read-ahead triples. The outer
    [option] is [None] only if the body capture exceeds its bound; the
    second component is the exception that leaves
    [create_read_ahead_string], with the state as it is when it is
    raised. On a [ParseException] the [continue] also skips
    [previous_obj = obj]. *)
Definition scan_triple (entity_keywords : list str) (entity_expression : pp.element)
    (close_scope_character : str) (st : scan)
    (triple : nat * str * option (list str)) : option (scan * option Py.exn) :=
  let '(_, obj, following) := triple in
  if Py.mem obj entity_keywords
     && negb (Py.str_eqb (previous_obj st) close_scope_character)
  then
    match ParsingMixin.create_read_ahead_string obj following with
    | Py.Raise e => Some (st, Some e)
    | Py.Ok read_ahead_string =>
        match pp.parseString entity_expression read_ahead_string with
        | None =>
            Some (mkScan (previous_obj st) (found_entities st)
                    (Statistics.increment (scan_statistics st)
                       Statistics.PARSING_MISSES), None)
        | Some parsing_result =>
            let stats := Statistics.increment (scan_statistics st)
                           Statistics.PARSING_HITS in
            match capture_body close_scope_character obj (default [] following) with
            | None => None
            | Some c =>
                Some (mkScan obj
                        (Dict.set (found_entities st)
                           (parsed_entity_name parsing_result) (captured c))
                        stats, None)
            end
        end
    end
  else Some (mkScan obj (found_entities st) (scan_statistics st), None).

(** the [for] loop: it ends with the triples, or with an exception *)
Fixpoint scan_entities (entity_keywords : list str) (entity_expression : pp.element)
    (close_scope_character : str)
    (triples : list (nat * str * option (list str))) (st : scan)
    : option (scan * option Py.exn) :=
  match triples with
  | [] => Some (st, None)
  | triple :: rest =>
      match scan_triple entity_keywords entity_expression close_scope_character
              st triple with
      | None => None
      | Some (st, Some e) => Some (st, Some e)
      | Some (st, None) =>
          scan_entities entity_keywords entity_expression close_scope_character
            rest st
      end
  end.

(** the [EntityResult]s built from [found_entities]: the constructor is
    given the literal [[]] for the imports, a list object of its own,
    and (results.py not being among the sources) is taken to start the
    inheritance dependencies the same way *)
Fixpoint create_entity_results (result : FileResult.t)
    (found : list (str * list str)) (h : Heap.t)
    : list EntityResult.t * Heap.t :=
  match found with
  | [] => ([], h)
  | (entity_name, tokens) :: found' =>
      let unique_entity_name := FileResult.absolute_name result ++ "/" ++ entity_name in
      let '(imports, h) := Heap.alloc h [] in
      let '(inheritance, h) := Heap.alloc h [] in
      let entity_result :=
        EntityResult.mk (FileResult.analysis result)
          entity_name entity_name unique_entity_name entity_name
          (FileResult.scanned_file_name result) (FileResult.module_name result)
          tokens imports inheritance result in
      let '(created, h) := create_entity_results result found' h in
      (entity_result :: created, h)
  end.

Definition generate_entity_results_from_scopes (p : Parser) (result : FileResult.t)
    (entity_keywords : list str) (entity_expression : pp.element)
    (comment_keywords : markers)
    : option (Py.result (list EntityResult.t) * Parser) :=
  let close_scope_character := CLOSE_SCOPE in
  let source_string_no_comments :=
    _filter_source_tokens_without_comments (FileResult.scanned_tokens result)
      (line_comment comment_keywords) (start_block_comment comment_keywords)
      (stop_block_comment comment_keywords) in
  let source_string_no_comments := Py.replace "{}" "" source_string_no_comments in
  let source_string_no_comments := Py.replace "{ }" "" source_string_no_comments in
  let filtered_list_no_comments :=
    ParsingMixin.preprocess_file_content_and_generate_token_list
      source_string_no_comments in
  match scan_entities entity_keywords entity_expression close_scope_character
          (ParsingMixin._gen_word_read_ahead filtered_list_no_comments)
          (mkScan "" [] (statistics p)) with
  | None => None
  | Some (st, Some e) => Some (Py.Raise e, set_statistics p (scan_statistics st))
  | Some (st, None) =>
      let '(created_entity_results, h) :=
        create_entity_results result (found_entities st) (heap p) in
      Some (Py.Ok created_entity_results,
            mkParser (_results p) h (scan_statistics st))
  end.

(** [_add_imports_to_single_entity_result]: [except Exception] catches
    the [TypeError] of the read-ahead string and the [IndexError] of
    [split(' ')[1]]. *)
Fixpoint add_imports_loop (triples : list (nat * str * option (list str)))
    (imports : loc) (h : Heap.t) : Heap.t :=
  match triples with
  | [] => h
  | (_, obj, following) :: rest =>
      if Py.str_eqb obj IMPORT then
        let h :=
          match ParsingMixin.create_read_ahead_string obj following with
          | Py.Raise _ => h
          | Py.Ok read_ahead_string =>
              let import_name :=
                Py.strip (nth 0 (Py.split Py.LF read_ahead_string) "") in
              match Py.index (Py.split " " import_name) 1 with
              | Py.Ok name => Heap.append h imports (Py.strip name)
              | Py.Raise _ => h
              end
          end in
        add_imports_loop rest imports h
      else if Py.any_in [NAMESPACE; CLASS; STRUCT; INTERFACE; ENUM] obj then h
      else add_imports_loop rest imports h
  end.

Definition _add_imports_to_single_entity_result (entity_result : EntityResult.t)
    (scanned_tokens : list str) (h : Heap.t) : Heap.t :=
  add_imports_loop (ParsingMixin._gen_word_read_ahead scanned_tokens)
    (EntityResult.scanned_import_dependencies entity_result) h.

(** the loop of [_add_inheritance_to_entity_result]; the value is
    [parent_name] *)
Fixpoint find_parent_name (classOrInterfaceName : str) (pairs : list (str * str)) : str :=
  match pairs with
  | [] => ""
  | (current_token, next_token) :: rest =>
      let classOrInterfaceName :=
        if Py.any_in [CLASS; INTERFACE] current_token then next_token
        else classOrInterfaceName in
      if Py.str_eqb current_token INHERITANCE
         && negb (Py.str_eqb classOrInterfaceName "")
      then next_token
      else find_parent_name classOrInterfaceName rest
  end.

Definition _add_inheritance_to_entity_result (result : EntityResult.t) (h : Heap.t) : Heap.t :=
  let tokens := EntityResult.scanned_tokens result in
  let parent_name := find_parent_name "" (combine tokens (drop 1 tokens ++ [""])) in
  match parent_name with
  | [] => h
  | _ => Heap.append h (EntityResult.scanned_inheritance_dependencies result) parent_name
  end.

Definition create_unique_entity_name (entity : EntityResult.t) : str :=
  EntityResult.entity_name entity.

Definition comment_keywords : markers :=
  mkMarkers INLINE_COMMENT START_BLOCK_COMMENT STOP_BLOCK_COMMENT.

(** the entities kept, with the imports attached *)
Fixpoint keep_entities (scanned_source_code : list str)
    (entity_results_unfiltered : list EntityResult.t) (h : Heap.t)
    : list EntityResult.t * Heap.t :=
  match entity_results_unfiltered with
  | [] => ([], h)
  | entity_result :: rest =>
      if Py.mem (EntityResult.entity_name entity_result) _ignore_entity_keywords
      then keep_entities scanned_source_code rest h
      else
        let h := _add_imports_to_single_entity_result entity_result
                   scanned_source_code h in
        let '(kept, h) := keep_entities scanned_source_code rest h in
        (entity_result :: kept, h)
  end.

(** the final loop: inheritance, then
    [self._results[entity_result.entity_name] = entity_result] *)
Fixpoint store_entities (entity_results : list EntityResult.t) (p : Parser) : Parser :=
  match entity_results with
  | [] => p
  | entity_result :: rest =>
      let h := _add_inheritance_to_entity_result entity_result (heap p) in
      store_entities rest
        (mkParser (Dict.set (_results p) (EntityResult.entity_name entity_result)
                     (IsEntity entity_result))
                  h (statistics p))
  end.

(** the loop of [generate_entity_results_from_analysis] over the file
    results found when it starts *)
Fixpoint entity_results_of_files (filtered_results : list FileResult.t) (p : Parser)
    : option (Py.result unit * Parser) :=
  match filtered_results with
  | [] => Some (Py.Ok tt, p)
  | result :: rest =>
      let scanned_source_code := FileResult.scanned_tokens result in
      match generate_entity_results_from_scopes p result entity_keywords
              match_expression comment_keywords with
      | None => None
      | Some (Py.Raise e, p) => Some (Py.Raise e, p)
      | Some (Py.Ok entity_results_unfiltered, p) =>
          let '(entity_results, h) :=
            keep_entities scanned_source_code entity_results_unfiltered (heap p) in
          entity_results_of_files rest (store_entities entity_results (set_heap p h))
      end
  end.

Definition generate_entity_results_from_analysis (p : Parser)
    : option (Py.result unit * Parser) :=
  entity_results_of_files (file_results (_results p)) p.

(** what a registry holds under a key, read through the store *)
Definition inheritance_dependencies (p : Parser) (e : EntityResult.t) : list str :=
  Heap.read (heap p) (EntityResult.scanned_inheritance_dependencies e).

Definition import_dependencies (p : Parser) (e : EntityResult.t) : list str :=
  Heap.read (heap p) (EntityResult.scanned_import_dependencies e).

(** the entities of a registry, in its order *)
Definition entity_results (d : Dict.t AbstractResult) : list EntityResult.t :=
  flat_map (fun kv => match snd kv with IsEntity e => [e] | IsFile _ => [] end) d.

(** what the [try] block of the two import loops yields for an [Imports]
    token: [read_ahead_string.split('\n')[0].strip()], of which
    [split(' ')[1].strip()] is appended; [None] when the [TypeError] of
    the read-ahead string or the [IndexError] of [[1]] is caught *)
Definition import_of (obj : str) (following : option (list str)) : option str :=
  match ParsingMixin.create_read_ahead_string obj following with
  | Py.Raise _ => None
  | Py.Ok read_ahead_string =>
      let import_name := Py.strip (nth 0 (Py.split Py.LF read_ahead_string) "") in
      match Py.index (Py.split " " import_name) 1 with
      | Py.Ok name => Some (Py.strip name)
      | Py.Raise _ => None
      end
  end.

(** the names [_add_imports_to_single_entity_result] appends, in order *)
Fixpoint entity_imports (triples : list (nat * str * option (list str))) : list str :=
  match triples with
  | [] => []
  | (_, obj, following) :: rest =>
      if Py.str_eqb obj IMPORT then
        match import_of obj following with
        | Some name => name :: entity_imports rest
        | None => entity_imports rest
        end
      else if Py.any_in [NAMESPACE; CLASS; STRUCT; INTERFACE; ENUM] obj then []
      else entity_imports rest
  end.

(** the inner loop of [_add_imports_to_file_results] (vbnetparser.py:278):
    the loop of the entity scan without its [break] *)
Fixpoint add_file_imports_loop (triples : list (nat * str * option (list str)))
    (imports : loc) (h : Heap.t) : Heap.t :=
  match triples with
  | [] => h
  | (_, obj, following) :: rest =>
      if Py.str_eqb obj IMPORT then
        let h :=
          match ParsingMixin.create_read_ahead_string obj following with
          | Py.Raise _ => h
          | Py.Ok read_ahead_string =>
              let import_name :=
                Py.strip (nth 0 (Py.split Py.LF read_ahead_string) "") in
              match Py.index (Py.split " " import_name) 1 with
              | Py.Ok name => Heap.append h imports (Py.strip name)
              | Py.Raise _ => h
              end
          end in
        add_file_imports_loop rest imports h
      else add_file_imports_loop rest imports h
  end.

(** the names the inner loop of [_add_imports_to_file_results] appends *)
Fixpoint file_imports (triples : list (nat * str * option (list str))) : list str :=
  match triples with
  | [] => []
  | (_, obj, following) :: rest =>
      if Py.str_eqb obj IMPORT then
        match import_of obj following with
        | Some name => name :: file_imports rest
        | None => file_imports rest
        end
      else file_imports rest
  end.

(** [_add_imports_to_file_results]: the file results of the registry
    that belong to [analysis], each scanned over its own tokens *)
Definition _add_imports_to_file_results (p : Parser) (analysis : nat) : Parser :=
  let file_results := file_results_of analysis (_results p) in
  set_heap p
    (fold_left (fun h file_result =>
                  add_file_imports_loop
                    (ParsingMixin._gen_word_read_ahead
                       (FileResult.scanned_tokens file_result))
                    (FileResult.scanned_import_dependencies file_result) h)
       file_results (heap p)).

Definition after_generated_file_results (p : Parser) (analysis : nat) : Parser :=
  _add_imports_to_file_results p analysis.

End VBNet.

(** the source of the keyword-scoped scenario: three lines *)
Definition class_foo_source : str :=
  "Class Foo" ++ NL ++ "Inherits Bar" ++ NL ++ "End Class".

Definition empty_parser : Parser := mkParser [] Heap.empty (Statistics.mk 0 0).

Definition class_foo_run : option (Py.result unit * Parser) :=
  VBNet.generate_entity_results_from_analysis
    (VBNet.generate_file_result_from_analysis empty_parser 0 "/src/"
       "Foo.vb" "/src/proj/Foo.vb" class_foo_source).

(** ** csharpparser.py *)

Module CSharp.

(** [CSharpParsingKeyword] *)
Definition CLASS : str := "class".
Definition STRUCT : str := "struct".
Definition INTERFACE : str := "interface".
Definition ENUM : str := "enum".
Definition NAMESPACE : str := "namespace".
Definition USING : str := "using".
Definition OPEN_SCOPE : str := "{".
Definition CLOSE_SCOPE : str := "}".
Definition INLINE_COMMENT : str := "//".
Definition START_BLOCK_COMMENT : str := "/*".
Definition STOP_BLOCK_COMMENT : str := "*/".

(** [CoreParsingKeyword.COLON.value] *)
Definition COLON : str := ":".

Definition _token_mappings : list (str * str) :=
  [ (":", " : "); (";", " ; "); ("{", " { "); ("}", " } ");
    ("(", " ( "); (")", " ) "); ("[", " [ "); ("]", " ] ");
    ("?", " ? "); ("!", " ! "); (",", " , "); ("<", " < ");
    (">", " > "); ([Py.DQ], " " ++ [Py.DQ] ++ " "); (".", " . ") ].

Definition declaration_keywords : list str :=
  [NAMESPACE; CLASS; STRUCT; INTERFACE; ENUM].

(** [read_ahead_string.split(';')[0].strip()] *)
Definition import_name_of (read_ahead_string : str) : str :=
  Py.strip (nth 0 (Py.split ";" read_ahead_string) "").

(** [import_name.split(' ')[1].strip()], or the [IndexError] *)
Definition second_word (import_name : str) : Py.result str :=
  match Py.index (Py.split " " import_name) 1 with
  | Py.Ok w => Py.Ok (Py.strip w)
  | Py.Raise e => Py.Raise e
  end.

(** [re.match(r'^\s*using\s+[a-zA-Z0-9_.]+$', import_name)] *)
Definition namespace_char (c : ascii) : bool :=
  pp.alphanums c || pp.is_char "_" c || pp.is_char "." c.

Definition matches_namespace_pattern (import_name : str) : bool :=
  let s := Py.lstrip import_name in
  if Py.startswith s "using" then
    match drop 5 s with
    | c :: _ as s =>
        if Py.isspace c then
          match pp.span namespace_char (Py.lstrip s) with
          | ([], _) => false
          | (_, rest) => Py.str_eqb rest [] || Py.str_eqb rest NL
          end
        else false
    | [] => false
    end
  else false.

(** the names [_add_usings_to_single_entity_result] appends, in order,
    over the triples of [_gen_word_read_ahead]: [except Exception]
    catches the [TypeError] of the read-ahead string and the [IndexError]
    of [split(' ')[1]]; the scan stops at the first token other than
    [using] that contains a declaration keyword *)
Fixpoint entity_usings (triples : list (nat * str * option (list str))) : list str :=
  match triples with
  | [] => []
  | (_, obj, following) :: rest =>
      if Py.str_eqb obj USING then
        match ParsingMixin.create_read_ahead_string obj following with
        | Py.Raise _ => entity_usings rest
        | Py.Ok read_ahead_string =>
            let import_name := import_name_of read_ahead_string in
            match second_word import_name with
            | Py.Ok name => name :: entity_usings rest
            | Py.Raise _ => entity_usings rest
            end
        end
      else if Py.any_in declaration_keywords obj then []
      else entity_usings rest
  end.

(** [_add_usings_to_single_entity_result]: each name is appended to the
    entity's list as it is found *)
Definition _add_usings_to_single_entity_result (entity_result : EntityResult.t)
    (scanned_tokens : list str) (h : Heap.t) : Heap.t :=
  fold_left (fun h name =>
               Heap.append h (EntityResult.scanned_import_dependencies entity_result) name)
    (entity_usings (ParsingMixin._gen_word_read_ahead scanned_tokens)) h.

(** the names [_add_usings_to_file_results] appends for one file: the
    [try] block as above, with the test of [namespace_pattern] before
    the append *)
Fixpoint file_usings (triples : list (nat * str * option (list str))) : list str :=
  match triples with
  | [] => []
  | (_, obj, following) :: rest =>
      if Py.str_eqb obj USING then
        match ParsingMixin.create_read_ahead_string obj following with
        | Py.Raise _ => file_usings rest
        | Py.Ok read_ahead_string =>
            let import_name := import_name_of read_ahead_string in
            if matches_namespace_pattern import_name then
              match second_word import_name with
              | Py.Ok name => name :: file_usings rest
              | Py.Raise _ => file_usings rest
              end
            else file_usings rest
        end
      else file_usings rest
  end.

Definition add_usings_to_file_result (file_result : FileResult.t) (h : Heap.t) : Heap.t :=
  fold_left (fun h name =>
               Heap.append h (FileResult.scanned_import_dependencies file_result) name)
    (file_usings
       (ParsingMixin._gen_word_read_ahead (FileResult.scanned_tokens file_result))) h.

(** [_add_usings_to_file_results]: the file results of the registry that
    belong to [analysis], each scanned over its own tokens *)
Definition _add_usings_to_file_results (p : Parser) (analysis : nat) : Parser :=
  let file_results := file_results_of analysis (_results p) in
  set_heap p (fold_left (fun h f => add_usings_to_file_result f h)
                file_results (heap p)).

(** [after_generated_file_results] (csharpparser.py:124) *)
Definition after_generated_file_results (p : Parser) (analysis : nat) : Parser :=
  _add_usings_to_file_results p analysis.

(** the [while] of [_add_namespace_to_result]: [rest] is
    [scanned_tokens[current_index:]]; an index past the end raises
    [IndexError] *)
Fixpoint namespace_parts (rest : list str) : Py.result (list str) :=
  match rest with
  | [] => Py.Raise Py.IndexError
  | token :: rest' =>
      if Py.str_eqb token OPEN_SCOPE then Py.Ok []
      else
        match namespace_parts rest' with
        | Py.Ok parts => Py.Ok (token :: parts)
        | Py.Raise e => Py.Raise e
        end
  end.

(** the [for] over [enumerate(result.scanned_tokens)]: [None] when no
    token is the namespace keyword; both branches of the [try] [break] *)
Fixpoint find_namespace (rest : list str) : option (Py.result (list str)) :=
  match rest with
  | [] => None
  | token :: rest' =>
      if Py.str_eqb token NAMESPACE then Some (namespace_parts rest')
      else find_namespace rest'
  end.

Definition _add_namespace_to_result (result : FileResult.t) : FileResult.t :=
  match find_namespace (FileResult.scanned_tokens result) with
  | Some (Py.Ok namespace_parts) =>
      FileResult.set_module_name result (Py.join "." namespace_parts)
  | Some (Py.Raise _) => result
  | None => result
  end.

(** Modelled from the spec: [FileResult.create_file_result] (results.py
    is not among the sources). Section 3: the path relative to the
    analysis root is the unique key, [import_dependencies] starts as an
    empty list of its own; the result keeps the [analysis] it is created
    for. *)
Definition create_file_result (h : Heap.t) (analysis : nat)
    (relative_file_path_to_analysis absolute_name display_name : str)
    (scanned_tokens : list str) (source : str) : FileResult.t * Heap.t :=
  let '(imports, h) := Heap.alloc h [] in
  (FileResult.mk analysis
     relative_file_path_to_analysis relative_file_path_to_analysis
     absolute_name display_name "" scanned_tokens imports source, h).

(** [generate_file_result_from_analysis]; [parent_analysis_source_path]
    is [f"{Path(analysis.source_directory).parent}/"]. *)
Definition generate_file_result_from_analysis (p : Parser) (analysis : nat)
    (parent_analysis_source_path : str)
    (file_name full_file_path file_content : str) : Parser :=
  let scanned_tokens :=
    ParsingMixin.preprocess_file_content_and_generate_token_list file_content in
  let relative_file_path_to_analysis :=
    Py.replace parent_analysis_source_path "" full_file_path in
  let '(file_result, h) :=
    create_file_result (heap p) analysis relative_file_path_to_analysis
      full_file_path file_name scanned_tokens file_content in
  let file_result := _add_namespace_to_result file_result in
  mkParser (Dict.set (_results p) (FileResult.unique_name file_result)
              (IsFile file_result))
           h (statistics p).

Definition create_unique_entity_name (entity : EntityResult.t) : str :=
  EntityResult.entity_name entity.

(** the loop of [_add_inheritance_to_entity_result] *)
Fixpoint find_parent_name (pairs : list (str * str)) : str :=
  match pairs with
  | [] => ""
  | (current_token, next_token) :: rest =>
      if Py.str_eqb current_token COLON then next_token
      else find_parent_name rest
  end.

Definition _add_inheritance_to_entity_result (result : EntityResult.t) (h : Heap.t) : Heap.t :=
  let tokens := EntityResult.scanned_tokens result in
  match find_parent_name (combine tokens (drop 1 tokens ++ [""])) with
  | [] => h
  | parent_name =>
      Heap.append h (EntityResult.scanned_inheritance_dependencies result) parent_name
  end.

(** the registration loop of [generate_entity_results_from_analysis]
    (csharpparser.py:187-190) *)
Fixpoint register_entity_results (entity_results : list EntityResult.t) (p : Parser) : Parser :=
  match entity_results with
  | [] => p
  | entity_result :: rest =>
      let h := _add_inheritance_to_entity_result entity_result (heap p) in
      register_entity_results rest
        (mkParser (Dict.set (_results p) (EntityResult.entity_name entity_result)
                     (IsEntity entity_result))
                  h (statistics p))
  end.

(** the entries the inner loop of [_add_usings_to_entity_results]
    (csharpparser.py:243) appends for one entity: [import_name] as a
    whole, for every [using] token of the entity's own tokens; when the
    read-ahead string raises its [TypeError], [except Exception] catches
    it and nothing is appended *)
Fixpoint entity_result_usings (triples : list (nat * str * option (list str)))
    : list str :=
  match triples with
  | [] => []
  | (_, obj, following) :: rest =>
      if Py.str_eqb obj USING then
        match ParsingMixin.create_read_ahead_string obj following with
        | Py.Raise _ => entity_result_usings rest
        | Py.Ok read_ahead_string =>
            import_name_of read_ahead_string :: entity_result_usings rest
        end
      else entity_result_usings rest
  end.

Definition add_usings_to_entity_result (entity_result : EntityResult.t) (h : Heap.t) : Heap.t :=
  fold_left (fun h import_name =>
               Heap.append h (EntityResult.scanned_import_dependencies entity_result)
                 import_name)
    (entity_result_usings
       (ParsingMixin._gen_word_read_ahead (EntityResult.scanned_tokens entity_result))) h.

End CSharp.

(** ** cssparser.py, scssparser.py, twigparser.py, jsonparser.py *)

(** The loop the three stylesheet and template parsers share, word for
    word: [for x in parent.scanned_import_dependencies: if x not in
    entity.scanned_import_dependencies: entity... .append(x)].
    [file_imports] is what is left of the parent's list to visit; the
    entity's list is read from the store at every turn. (Were the two
    the same object, no turn would append, so that visiting the list as
    it stood at the start loses nothing.) *)
Fixpoint attach_imports (file_imports : list str) (entity_imports : loc) (h : Heap.t) : Heap.t :=
  match file_imports with
  | [] => h
  | import_dependency :: rest =>
      attach_imports rest entity_imports
        (if Py.mem import_dependency (Heap.read h entity_imports) then h
         else Heap.append h entity_imports import_dependency)
  end.

Module CSS.

Definition IMPORT : str := "@import".

Definition _token_mappings : list (str * str) :=
  [ ("{", " { "); ("}", " } "); (":", " : "); (";", " ; ");
    ("/*", " /* "); ("*/", " */ "); ("@import", "@import "); (",", " , ") ].

(** [_add_imports_to_entity_result] (cssparser.py:124) *)
Definition _add_imports_to_entity_result (entity_result : EntityResult.t) (h : Heap.t) : Heap.t :=
  attach_imports
    (Heap.read h (FileResult.scanned_import_dependencies
                    (EntityResult.parent_file_result entity_result)))
    (EntityResult.scanned_import_dependencies entity_result) h.

(** the import a token yields in [after_generated_file_results] *)
Definition cleaned_import (token : str) : str :=
  let import_statement := Py.strip (drop (length IMPORT) token) in
  Py.strip_char Py.DQ
    (Py.strip_char "'" (Py.strip (nth 0 (Py.split ";" import_statement) ""))).

(** the loop of [after_generated_file_results] for one file result *)
Fixpoint add_imports_of_tokens (tokens : list str) (imports : loc) (h : Heap.t) : Heap.t :=
  match tokens with
  | [] => h
  | token :: rest =>
      add_imports_of_tokens rest imports
        (if Py.startswith token IMPORT
         then Heap.append h imports (cleaned_import token) else h)
  end.

(** the imports the loop appends, in order *)
Definition import_names (tokens : list str) : list str :=
  flat_map (fun token =>
              if Py.startswith token IMPORT then [cleaned_import token] else [])
    tokens.

(** [_add_imports_to_result] (cssparser.py:131): the same loop, for the
    file result given *)
Definition _add_imports_to_result (result : FileResult.t) (h : Heap.t) : Heap.t :=
  add_imports_of_tokens (FileResult.scanned_tokens result)
    (FileResult.scanned_import_dependencies result) h.

(** [after_generated_file_results]: the file results of the registry
    that belong to [analysis], each scanned over its own tokens *)
Definition after_generated_file_results (p : Parser) (analysis : nat) : Parser :=
  let filtered_results := file_results_of analysis (_results p) in
  set_heap p
    (fold_left (fun h result =>
                  add_imports_of_tokens (FileResult.scanned_tokens result)
                    (FileResult.scanned_import_dependencies result) h)
       filtered_results (heap p)).

(** [_add_inheritance_to_entity_result] (cssparser.py:146):
    [extend] appends the parts one after the other *)
Definition _add_inheritance_to_entity_result (entity : EntityResult.t) (h : Heap.t) : Heap.t :=
  if Py.contains (EntityResult.entity_name entity) " " then
    let nested_selectors := Py.split " " (EntityResult.entity_name entity) in
    fold_left (fun h selector =>
                 Heap.append h (EntityResult.scanned_inheritance_dependencies entity)
                   selector)
      nested_selectors h
  else h.

End CSS.

Module SCSS.

Definition _token_mappings : list (str * str) :=
  [ (":", " : "); (";", " ; "); ("{", " { "); ("}", " } ");
    ("(", " ( "); (")", " ) "); ("[", " [ "); ("]", " ] ");
    ("?", " ? "); ("!", " ! "); (",", " , "); ("<", " < ");
    (">", " > "); ([Py.DQ], " " ++ [Py.DQ] ++ " ") ].

(** [_add_imports_to_entity_result] (scssparser.py:157) *)
Definition _add_imports_to_entity_result (entity_result : EntityResult.t) (h : Heap.t) : Heap.t :=
  attach_imports
    (Heap.read h (FileResult.scanned_import_dependencies
                    (EntityResult.parent_file_result entity_result)))
    (EntityResult.scanned_import_dependencies entity_result) h.

(** [SCSSParsingKeyword] *)
Definition Extend : str := "extend".
Definition Import : str := "import".
Definition OpenScope : str := "{".

(** [CoreParsingKeyword.SEMICOLON.value] *)
Definition SEMICOLON : str := ";".

(** [Word(alphanums + '._')] *)
Definition imported_entity_name_chars (c : ascii) : bool :=
  pp.alphanums c || pp.is_char "." c || pp.is_char "_" c.

(** the grammar of [_add_imports_to_result]; the name is the second
    token of a match *)
Definition import_expression : pp.element :=
  pp.And (pp.And (pp.Keyword Import) (pp.Word imported_entity_name_chars))
    (pp.FollowedBy (pp.Literal SEMICOLON)).

(** the loop of [_add_imports_to_result] (scssparser.py:136) over the
    read-ahead triples. The read-ahead string is built outside the
    [try]: its [TypeError] leaves the method, with the state as it is
    then. A [ParseException] counts a miss, a match appends the name and
    counts a hit. *)
Fixpoint add_imports_loop (triples : list (nat * str * option (list str)))
    (imports : loc) (p : Parser) : Py.result unit * Parser :=
  match triples with
  | [] => (Py.Ok tt, p)
  | (_, obj, following) :: rest =>
      if Py.str_eqb obj Import then
        match ParsingMixin.create_read_ahead_string obj following with
        | Py.Raise e => (Py.Raise e, p)
        | Py.Ok read_ahead_string =>
            match pp.parseString import_expression read_ahead_string with
            | None =>
                add_imports_loop rest imports
                  (set_statistics p
                     (Statistics.increment (statistics p) Statistics.PARSING_MISSES))
            | Some parsing_result =>
                let p := set_heap p
                           (Heap.append (heap p) imports (nth 1 parsing_result "")) in
                add_imports_loop rest imports
                  (set_statistics p
                     (Statistics.increment (statistics p) Statistics.PARSING_HITS))
            end
        end
      else add_imports_loop rest imports p
  end.

Definition _add_imports_to_result (result : FileResult.t) (p : Parser)
    : Py.result unit * Parser :=
  add_imports_loop (ParsingMixin._gen_word_read_ahead (FileResult.scanned_tokens result))
    (FileResult.scanned_import_dependencies result) p.

(** [Word(alphanums + "_-")] *)
Definition inherited_entity_name_chars (c : ascii) : bool :=
  pp.alphanums c || pp.is_char "_" c || pp.is_char "-" c.

(** the grammar of [_add_inheritance_to_entity_result] *)
Definition inheritance_expression : pp.element :=
  pp.And (pp.And (pp.Keyword Extend) (pp.Word inherited_entity_name_chars))
    (pp.SkipTo (pp.FollowedBy (pp.Literal OpenScope))).

(** the loop of [_add_inheritance_to_entity_result] (scssparser.py:192):
    the read-ahead string is built outside the [try], as above; the
    parent is appended, and the hit counted, when the name matched is
    not empty *)
Fixpoint add_inheritance_loop (triples : list (nat * str * option (list str)))
    (inheritance : loc) (p : Parser) : Py.result unit * Parser :=
  match triples with
  | [] => (Py.Ok tt, p)
  | (_, obj, following) :: rest =>
      if Py.str_eqb obj Extend then
        match ParsingMixin.create_read_ahead_string obj following with
        | Py.Raise e => (Py.Raise e, p)
        | Py.Ok read_ahead_string =>
            match pp.parseString inheritance_expression read_ahead_string with
            | None =>
                add_inheritance_loop rest inheritance
                  (set_statistics p
                     (Statistics.increment (statistics p) Statistics.PARSING_MISSES))
            | Some parsing_result =>
                match nth 1 parsing_result "" with
                | [] => add_inheritance_loop rest inheritance p
                | inherited_entity_name =>
                    let p := set_heap p
                               (Heap.append (heap p) inheritance
                                  inherited_entity_name) in
                    add_inheritance_loop rest inheritance
                      (set_statistics p
                         (Statistics.increment (statistics p)
                            Statistics.PARSING_HITS))
                end
            end
        end
      else add_inheritance_loop rest inheritance p
  end.

Definition _add_inheritance_to_entity_result (result : EntityResult.t) (p : Parser)
    : Py.result unit * Parser :=
  add_inheritance_loop
    (ParsingMixin._gen_word_read_ahead (EntityResult.scanned_tokens result))
    (EntityResult.scanned_inheritance_dependencies result) p.

End SCSS.

Module Twig.

Definition _token_mappings : list (str * str) :=
  [ ("{", " { "); ("}", " } "); ("(", " ( "); (")", " ) ");
    (",", " , "); ("'", " ' "); ([Py.DQ], " " ++ [Py.DQ] ++ " ") ].

(** [_add_imports_to_entity_result] (twigparser.py) *)
Definition _add_imports_to_entity_result (entity_result : EntityResult.t) (h : Heap.t) : Heap.t :=
  attach_imports
    (Heap.read h (FileResult.scanned_import_dependencies
                    (EntityResult.parent_file_result entity_result)))
    (EntityResult.scanned_import_dependencies entity_result) h.

(** [TwigParsingKeyword.INCLUDE] *)
Definition INCLUDE : str := "include".

(** [Word(alphanums + CoreParsingKeyword.DOT.value)] *)
Definition include_name_chars (c : ascii) : bool :=
  pp.alphanums c || pp.is_char "." c.

(** the grammar of [_add_imports_to_result]; the include is the second
    token of a match *)
Definition expression_to_match : pp.element :=
  pp.And (pp.Keyword INCLUDE) (pp.Word include_name_chars).

(** the loop of [_add_imports_to_result] (twigparser.py:123) over the
    read-ahead triples. The read-ahead string is built outside the
    [try]: its [TypeError] leaves the method, with the state as it is
    then. A [ParseException] counts a miss, a match appends the include
    and counts nothing. *)
Fixpoint add_imports_loop (triples : list (nat * str * option (list str)))
    (imports : loc) (p : Parser) : Py.result unit * Parser :=
  match triples with
  | [] => (Py.Ok tt, p)
  | (_, obj, following) :: rest =>
      if Py.str_eqb obj INCLUDE then
        match ParsingMixin.create_read_ahead_string obj following with
        | Py.Raise e => (Py.Raise e, p)
        | Py.Ok read_ahead_string =>
            match pp.parseString expression_to_match read_ahead_string with
            | None =>
                add_imports_loop rest imports
                  (set_statistics p
                     (Statistics.increment (statistics p) Statistics.PARSING_MISSES))
            | Some parsing_result =>
                add_imports_loop rest imports
                  (set_heap p (Heap.append (heap p) imports (nth 1 parsing_result "")))
            end
        end
      else add_imports_loop rest imports p
  end.

Definition _add_imports_to_result (result : FileResult.t) (p : Parser)
    : Py.result unit * Parser :=
  add_imports_loop (ParsingMixin._gen_word_read_ahead (FileResult.scanned_tokens result))
    (FileResult.scanned_import_dependencies result) p.

End Twig.

Module JSON.

Definition _token_mappings : list (str * str) :=
  [ (":", " : "); (",", " , "); ("{", " { "); ("}", " } ");
    ("[", " [ "); ("]", " ] "); ([Py.DQ], " " ++ [Py.DQ] ++ " ") ].

End JSON.

(** ** xmlparser.py *)

Module XML.

(** [XMLParsingKeyword] *)
Definition OPEN_TAG : str := "<".
Definition CLOSE_TAG : ascii := ">".

Definition _token_mappings : list (str * str) :=
  [ ("<", " < "); (">", " > "); ("/", " / "); ("=", " = ");
    ([Py.DQ], " " ++ [Py.DQ] ++ " "); ("!--", " <!-- "); ("--", " -- ") ].

(** [token[1:].split('>')[0].strip()] *)
Definition tag_name_of (token : str) : str :=
  Py.strip (nth 0 (Py.split CLOSE_TAG (drop 1 token)) "").

(** the names [_add_tags_to_result] appends, in order *)
Definition tag_names (tokens : list str) : list str :=
  flat_map (fun token =>
              if Py.startswith token OPEN_TAG then [tag_name_of token] else [])
    tokens.

(** the loop of [_add_tags_to_result] *)
Fixpoint add_tags (tokens : list str) (imports : loc) (h : Heap.t) : Heap.t :=
  match tokens with
  | [] => h
  | token :: rest =>
      add_tags rest imports
        (if Py.startswith token OPEN_TAG
         then Heap.append h imports (tag_name_of token) else h)
  end.

Definition _add_tags_to_result (result : FileResult.t) (h : Heap.t) : Heap.t :=
  add_tags (FileResult.scanned_tokens result)
    (FileResult.scanned_import_dependencies result) h.

(** Modelled from the spec: [FileResult.create_file_result] (results.py
    is not among the sources). Section 3: the path relative to the
    analysis root is the unique key, [import_dependencies] starts as an
    empty list of its own; the result keeps the [analysis] it is created
    for. *)
Definition create_file_result (h : Heap.t) (analysis : nat)
    (scanned_file_name relative_file_path_to_analysis absolute_name display_name : str)
    (scanned_tokens : list str) (source : str) : FileResult.t * Heap.t :=
  let '(imports, h) := Heap.alloc h [] in
  (FileResult.mk analysis relative_file_path_to_analysis scanned_file_name
     absolute_name display_name "" scanned_tokens imports source, h).

(** [generate_file_result_from_analysis] *)
Definition generate_file_result_from_analysis (p : Parser) (analysis : nat)
    (parent_analysis_source_path : str)
    (file_name full_file_path file_content : str) : Parser :=
  let scanned_tokens :=
    ParsingMixin.preprocess_file_content_and_generate_token_list_by_mapping
      file_content _token_mappings in
  let relative_file_path_to_analysis :=
    Py.replace parent_analysis_source_path "" full_file_path in
  let '(file_result, h) :=
    create_file_result (heap p) analysis file_name relative_file_path_to_analysis
      full_file_path file_name scanned_tokens file_content in
  let h := _add_tags_to_result file_result h in
  mkParser (Dict.set (_results p) (FileResult.unique_name file_result)
              (IsFile file_result))
           h (statistics p).

End XML.

(** ** Definitions the statements use *)

(** *** The comment filter, line by line *)

Module CommentFilter.

(** [line.strip().startswith(marker)] *)
Definition starts (marker line : str) : bool :=
  Py.startswith (Py.strip line) marker.

Definition region_line (line : str) : bool :=
  starts "#Region" line || starts "#End Region" line.

(** a line removed for what it starts with *)
Definition removed_by_prefix (line_marker start stop : str) (line : str) : bool :=
  region_line line || starts start line || starts stop line
  || starts line_marker line.

(** a line that sets the block state: it starts with one of the two
    block markers and is no region line *)
Definition switches (start stop : str) (line : str) : bool :=
  negb (region_line line) && (starts start line || starts stop line).

(** a block is open after the lines [before] when the last of them that
    sets the block state starts with the start marker *)
Definition block_open (start stop : str) (before : list str) : bool :=
  match last (List.filter (switches start stop) before) with
  | Some line => starts start line
  | None => false
  end.

Definition survives (line_marker start stop : str) (before : list str) (line : str) : bool :=
  negb (removed_by_prefix line_marker start stop line)
  && negb (block_open start stop before).

(** the lines that survive, each judged by itself and the lines before it *)
Fixpoint survivors (line_marker start stop : str) (before lines : list str) : list str :=
  match lines with
  | [] => []
  | line :: rest =>
      (if survives line_marker start stop before line then [line] else [])
        ++ survivors line_marker start stop (before ++ [line]) rest
  end.

(** The filter as the specification words it: a line is removed when it
    starts with the line marker, or lies between a line starting with
    the block-start marker and the next line starting with the
    block-stop marker, both included; no other line is removed. *)
Fixpoint spec_strip (line_marker start stop : str) (inside : bool) (lines : list str) : list str :=
  match lines with
  | [] => []
  | line :: rest =>
      if inside then spec_strip line_marker start stop (negb (starts stop line)) rest
      else if starts start line then spec_strip line_marker start stop true rest
      else if starts line_marker line then spec_strip line_marker start stop false rest
      else line :: spec_strip line_marker start stop false rest
  end.

Definition spec_strip_comments (list_of_words : list str)
    (line_marker start stop : str) : str :=
  Py.join NL (spec_strip line_marker start stop false
                (Py.splitlines (Py.join " " list_of_words))).

End CommentFilter.

(** *** The read-ahead generator *)

(** the third component of the triple at [index]: the slice while
    [index < length - 1], after that the value kept from the turn before *)
Definition following_at (list_of_words : list str) (index : nat) : option (list str) :=
  if index <? length list_of_words - 1 then Some (drop (index + 1) list_of_words)
  else if 2 <=? length list_of_words
       then Some (drop (length list_of_words - 1) list_of_words)
       else None.

(** *** Token normalization *)

Definition normalize (mapping_dict : list (str * str)) (text : str) : list str :=
  ParsingMixin.preprocess_file_content_and_generate_token_list_by_mapping
    text mapping_dict.

(** normalization of the space-joined result of a first normalization *)
Definition renormalize (mapping_dict : list (str * str)) (text : str) : list str :=
  normalize mapping_dict (Py.join " " (normalize mapping_dict text)).

(** no whitespace in [s] *)
Definition ws_free (s : str) : bool :=
  forallb (fun c => negb (Py.isspace c)) s.

(** what [findall_tokens] yields: the line feed, or a non-empty run
    without whitespace *)
Definition valid_token (t : str) : Prop :=
  t = NL \/ (t <> [] /\ ws_free t = true).

(** [o] occurs nowhere in [t] *)
Definition free (o t : str) : Prop :=
  forall k : nat, Py.startswith (drop k t) o = false.

(** [o] occurs in [t] at its end only *)
Definition only_at_end (o t : str) : Prop :=
  forall k : nat, Py.startswith (drop k t) o = true -> k + length o = length t.

(** [u] is a run of consecutive characters of [t] *)
Definition run_of (u t : str) : Prop :=
  exists a b : str, t = a ++ u ++ b.

(** the entry pads its pattern with a space on both sides *)
Definition pads_both (entry : str * str) : bool :=
  Py.str_eqb (snd entry) (" " ++ fst entry ++ " ").

(** the entry pads its pattern with a space on the right *)
Definition pads_right (entry : str * str) : bool :=
  Py.str_eqb (snd entry) (fst entry ++ " ").

(** an entry that only inserts spaces next to its pattern, a non-empty
    string without whitespace *)
Definition pads (entry : str * str) : bool :=
  negb (Py.str_eqb (fst entry) []) && ws_free (fst entry)
  && (pads_both entry || pads_right entry).

(** a token the entry leaves as it is: for a pattern padded on both
    sides, the pattern itself or a token without it; for a pattern
    padded on the right, a token that has it at its end only *)
Definition settled (entry : str * str) (t : str) : Prop :=
  if pads_both entry then t = fst entry \/ free (fst entry) t
  else only_at_end (fst entry) t.

(** *** Occurrences of a character *)

(** every occurrence of [ch] in [s] is followed by a rest of the string
    that [ok] accepts *)
Fixpoint after_each (ch : ascii) (ok : str -> bool) (s : str) : Prop :=
  match s with
  | [] => True
  | c :: s' => (c = ch -> ok s' = true) /\ after_each ch ok s'
  end.

(** the rest is empty or starts with a whitespace *)
Definition at_token_end (rest : str) : bool :=
  match rest with
  | [] => true
  | c :: _ => Py.isspace c
  end.

(** what follows an opening angle bracket in a tokenized XML text: the
    end of the token, or [!] and the end of the token *)
Definition after_open_tag (rest : str) : bool :=
  at_token_end rest
  || match rest with
     | c :: rest' => Ascii.eqb c "!" && at_token_end rest'
     | [] => false
     end.

(** a token that starts with the opening angle bracket is [<] or [<!] *)
Definition bare_open_tag (token : str) : Prop :=
  Py.startswith token XML.OPEN_TAG = true -> token = "<" \/ token = "<!".

(** *** Scenarios *)

(** a file result and an entity of it, as objects of a store *)
Definition a_file (tokens : list str) (imports : loc) : FileResult.t :=
  FileResult.mk 0 "proj/A.cs" "proj/A.cs" "/src/proj/A.cs" "A.cs" "" tokens imports "".

Definition an_entity (name : str) (file : FileResult.t) (imports inheritance : loc)
    : EntityResult.t :=
  EntityResult.mk (FileResult.analysis file)
    name name name name (FileResult.scanned_file_name file) ""
    [] imports inheritance file.

(** a store of [n] empty lists, at the addresses below [n] *)
Fixpoint fresh_store (n : nat) : Heap.t :=
  match n with
  | O => Heap.empty
  | S k => snd (Heap.alloc (fresh_store k) [])
  end.

(** what a finished run shows of its entities: for each [EntityResult]
    of the registry, in order, its [entity_name], its inheritance
    dependencies and its token span; [None] if the run raised or did not
    end *)
Definition entities_of_run (run : option (Py.result unit * Parser))
    : option (list (str * list str * list str)) :=
  match run with
  | Some (Py.Ok _, p) =>
      Some (map (fun e => (EntityResult.entity_name e,
                           VBNet.inheritance_dependencies p e,
                           EntityResult.scanned_tokens e))
              (VBNet.entity_results (_results p)))
  | _ => None
  end.

(** the tokens of the file results a run registered *)
Definition file_tokens_of_run (run : option (Py.result unit * Parser))
    : list (list str) :=
  match run with
  | Some (_, p) => map FileResult.scanned_tokens (file_results (_results p))
  | None => []
  end.

(** *** Imports appended to a file's list later on *)

(** [later] appended, entry by entry, to the list at [file_imports] *)
Definition append_all (file_imports : loc) (later : list str) (h : Heap.t) : Heap.t :=
  fold_left (fun h import_name => Heap.append h file_imports import_name) later h.

(** the attachment of the three stylesheet and template parsers *)
Definition stylesheet_attachments : list (EntityResult.t -> Heap.t -> Heap.t) :=
  [ CSS._add_imports_to_entity_result;
    SCSS._add_imports_to_entity_result;
    Twig._add_imports_to_entity_result ].

(** *** Using statements before the first declaration *)

(** the triples the entity scan of the C# parser visits: those before
    the first token, other than [using], that contains a declaration
    keyword *)
Fixpoint before_declaration (triples : list (nat * str * option (list str)))
    : list (nat * str * option (list str)) :=
  match triples with
  | [] => []
  | (index, obj, following) :: rest =>
      if Py.str_eqb obj CSharp.USING
      then (index, obj, following) :: before_declaration rest
      else if Py.any_in CSharp.declaration_keywords obj then []
      else (index, obj, following) :: before_declaration rest
  end.

(** *** What tokenization keeps *)

(** the characters of [s] that are no whitespace, in order *)
Definition non_whitespace (s : str) : str :=
  List.filter (fun c => negb (Py.isspace c)) s.

(** *** Blank strings *)

(** [s] holds whitespace only *)
Definition blank (s : str) : Prop := Forall (fun c => Py.isspace c = true) s.

(** *** Names on the ignore list *)

(** the name of [e] is none of the keywords the VB.NET parser ignores *)
Definition not_ignored (e : EntityResult.t) : Prop :=
  Py.mem (EntityResult.entity_name e) VBNet._ignore_entity_keywords = false.

(** *** Tokens that start a statement *)

(** the number of tokens that are [keyword] *)
Definition occurrences (keyword : str) (tokens : list str) : nat :=
  length (List.filter (fun token => Py.str_eqb token keyword) tokens).

(** what a scan for [keyword] leaves behind when it returns: the names
    [added] to the list at [cell], each a non-empty word of the
    characters the grammar allows, one hit for every name, and every
    one of the [n] keyword tokens counted once, as a hit or as a miss *)
Definition counted_once (name_chars : ascii -> bool) (n : nat) (cell : loc)
    (p p' : Parser) : Prop :=
  exists added : list str,
    Heap.read (heap p') cell = Heap.read (heap p) cell ++ added
    /\ Forall (fun name => name <> "" /\ forallb name_chars name = true) added
    /\ Statistics.parsing_hits (statistics p')
       = Statistics.parsing_hits (statistics p) + length added
    /\ Statistics.parsing_misses (statistics p') + length added
       = Statistics.parsing_misses (statistics p) + n.

(** the number of triples whose token is [keyword] *)
Definition marked (keyword : str) (triples : list (nat * str * option (list str)))
    : nat :=
  length (List.filter (fun triple => Py.str_eqb (snd (fst triple)) keyword) triples).

(** *** Entity names and parents in the VB.NET parser *)

(** an entity name the header grammar of the VB.NET parser can yield *)
Definition vb_word (name : str) : Prop :=
  name <> "" /\ forallb VBNet.entity_name_chars name = true.

(** the parent the inheritance scan of the VB.NET parser finds among the
    tokens of [e]: a list of one name, or of none *)
Definition vb_parents (e : EntityResult.t) : list str :=
  let tokens := EntityResult.scanned_tokens e in
  match VBNet.find_parent_name "" (combine tokens (drop 1 tokens ++ [""])) with
  | [] => []
  | parent => [parent]
  end.

(** the entities the VB.NET parser keeps *)
Definition vb_kept (unfiltered : list EntityResult.t) : list EntityResult.t :=
  List.filter
    (fun e => negb (Py.mem (EntityResult.entity_name e) VBNet._ignore_entity_keywords))
    unfiltered.

(** *** A file with two classes *)

(** a VB.NET file with two classes, one of them named by a keyword of
    the ignore list *)
Definition two_classes_source : str :=
  "Imports System.IO" ++ NL ++ "Class Public" ++ NL ++ "End Class" ++ NL
  ++ "Class Foo" ++ NL ++ "Inherits Bar" ++ NL ++ "End Class".

Definition two_classes_parser : Parser :=
  VBNet.generate_file_result_from_analysis empty_parser 0 "/src/"
    "Foo.vb" "/src/proj/Foo.vb" two_classes_source.

(** the file result a parser holds under a key, if it is one *)
Definition file_result_at (p : Parser) (k : str) : FileResult.t :=
  match Dict.get (_results p) k with
  | Some (IsFile f) => f
  | _ => a_file [] 0
  end.

(** the parser a run ends with, and the entities it returns *)
Definition parser_of {A} (run : option (Py.result A * Parser)) : Parser :=
  match run with
  | Some (_, p) => p
  | None => empty_parser
  end.

Definition created_of (run : option (Py.result (list EntityResult.t) * Parser))
    : list EntityResult.t :=
  match run with
  | Some (Py.Ok created, _) => created
  | _ => []
  end.

Definition two_classes_scopes : option (Py.result (list EntityResult.t) * Parser) :=
  VBNet.generate_entity_results_from_scopes two_classes_parser
    (file_result_at two_classes_parser "proj/Foo.vb")
    VBNet.entity_keywords VBNet.match_expression VBNet.comment_keywords.

Definition two_classes_run : option (Py.result unit * Parser) :=
  VBNet.generate_entity_results_from_analysis two_classes_parser.

(** * Properties *)

(** ** The read-ahead generator *)

Section ReadAhead.

Variable list_of_words : list str.

Lemma gen_word_read_ahead_from_lookup (rest : list str) :
  forall (index : nat) (following : option (list str)),
    index + length rest = length list_of_words ->
    (index = 0 -> following = None) ->
    (0 < index -> following = following_at list_of_words (index - 1)) ->
    forall (k : nat) (t : str),
      rest !! k = Some t ->
      ParsingMixin.gen_word_read_ahead_from list_of_words (length list_of_words)
        following index rest !! k
      = Some (index + k, t, following_at list_of_words (index + k)).
Proof.
  induction rest as [|obj rest IH]; intros index following Hlen H0 Hpos k t Hk.
  - discriminate.
  - cbn [ParsingMixin.gen_word_read_ahead_from].
    set (fol := if index <? length list_of_words - 1 then _ else _).
    assert (Hfol : fol = following_at list_of_words index).
    { subst fol. unfold following_at.
      destruct (index <? length list_of_words - 1) eqn:E; [reflexivity|].
      apply Nat.ltb_ge in E. cbn [length] in Hlen.
      destruct index as [|j].
      - rewrite (H0 eq_refl).
        destruct (2 <=? length list_of_words) eqn:E2; [|reflexivity].
        apply Nat.leb_le in E2. lia.
      - rewrite (Hpos ltac:(lia)). unfold following_at.
        replace (S j - 1) with j by lia.
        destruct (j <? length list_of_words - 1) eqn:E1;
          [|apply Nat.ltb_ge in E1; lia].
        destruct (2 <=? length list_of_words) eqn:E2;
          [|apply Nat.leb_gt in E2; lia].
        do 2 f_equal. lia. }
    destruct k as [|k].
    + cbn in Hk. injection Hk as ->. cbn. rewrite Hfol.
      replace (index + 0) with index by lia. reflexivity.
    + cbn in Hk. cbn [length] in Hlen.
      assert (Hnext : 0 < S index -> fol = following_at list_of_words (S index - 1)).
      { intros _. rewrite Hfol. f_equal. lia. }
      assert (Hlen' : S index + length rest = length list_of_words) by lia.
      assert (Hz : S index = 0 -> fol = None) by discriminate.
      pose proof (IH (S index) fol Hlen' Hz Hnext k t Hk) as IH'.
      change ((?x :: ?l) !! S k) with (l !! k).
      rewrite IH'. replace (index + S k) with (S index + k) by lia. reflexivity.
Qed.

Lemma gen_word_read_ahead_from_length (rest : list str) :
  forall (n index : nat) (following : option (list str)),
    length (ParsingMixin.gen_word_read_ahead_from list_of_words n following index rest)
    = length rest.
Proof.
  induction rest as [|obj rest IH]; intros n index following; cbn; [reflexivity|].
  now rewrite IH.
Qed.

End ReadAhead.

(** C5, as the code has it. The generator yields one triple per token,
    in order, and ends after the last token; the triple at [i] is
    [(i, ts[i], ts[i+1:])] at every index but the last. At the last index
    the slice is not taken: the third component is the one of the turn
    before, the one-token list holding the last token, or [None] for a
    one-token list. The triples are a function of the list, so another
    call over the same list yields them again. *)
Theorem read_ahead_triples (ts : list str) :
  length (ParsingMixin._gen_word_read_ahead ts) = length ts
  /\ (forall (i : nat) (t : str),
        ts !! i = Some t ->
        ParsingMixin._gen_word_read_ahead ts !! i = Some (i, t, following_at ts i))
  /\ (forall i : nat, i + 1 < length ts -> following_at ts i = Some (drop (i + 1) ts))
  /\ (forall (i : nat) (t : str),
        ts !! i = Some t -> i + 1 = length ts -> 2 <= length ts ->
        following_at ts i = Some [t])
  /\ (length ts = 1 -> following_at ts 0 = None).
Proof.
  repeat split.
  - apply gen_word_read_ahead_from_length.
  - intros i t Hi. unfold ParsingMixin._gen_word_read_ahead.
    apply (gen_word_read_ahead_from_lookup ts ts 0 None); auto; lia.
  - intros i Hi. unfold following_at.
    destruct (i <? length ts - 1) eqn:E; [reflexivity|].
    apply Nat.ltb_ge in E. lia.
  - intros i t Hi Hlast H2. unfold following_at.
    destruct (i <? length ts - 1) eqn:E; [apply Nat.ltb_lt in E; lia|].
    destruct (2 <=? length ts) eqn:E2; [|apply Nat.leb_gt in E2; lia].
    f_equal. replace (length ts - 1) with i by lia.
    rewrite (drop_S ts t i Hi). rewrite drop_ge by lia. reflexivity.
  - intros H1. unfold following_at. rewrite H1. reflexivity.
Qed.

(** C5, the claim as stated fails: at the last index of a two-token list
    the third component is not the empty list of the tokens after it. *)
Lemma read_ahead_last_not_empty :
  ParsingMixin._gen_word_read_ahead ["a"; "b"] !! 1 = Some (1, "b", Some ["b"])
  /\ ParsingMixin._gen_word_read_ahead ["a"; "b"] !! 1 <> Some (1, "b", Some []).
Proof. split; [reflexivity | discriminate]. Qed.

(** C5, at a three-token list: the triple in the middle and the one at
    the end. *)
Lemma read_ahead_triples_witness :
  ParsingMixin._gen_word_read_ahead ["a"; "b"; "c"] !! 1 = Some (1, "b", Some ["c"])
  /\ ParsingMixin._gen_word_read_ahead ["a"; "b"; "c"] !! 2 = Some (2, "c", Some ["c"]).
Proof.
  split.
  - exact (proj1 (proj2 (read_ahead_triples ["a"; "b"; "c"])) 1 "b" eq_refl).
  - exact (proj1 (proj2 (read_ahead_triples ["a"; "b"; "c"])) 2 "c" eq_refl).
Defined.

(** ** Basic facts: string equality, dictionaries, the store *)

Lemma str_eqb_eq (a b : str) : Py.str_eqb a b = true <-> a = b.
Proof. unfold Py.str_eqb. apply bool_decide_eq_true. Qed.

Lemma str_eqb_neq (a b : str) : Py.str_eqb a b = false <-> a <> b.
Proof. unfold Py.str_eqb. apply bool_decide_eq_false. Qed.

Lemma str_eqb_refl (a : str) : Py.str_eqb a a = true.
Proof. now apply str_eqb_eq. Qed.

Lemma mem_true (x : str) (l : list str) : Py.mem x l = true <-> x ∈ l.
Proof.
  unfold Py.mem. rewrite existsb_exists. split.
  - intros (y & Hy & E). apply str_eqb_eq in E. subst. now apply list_elem_of_In.
  - intros H. exists x. split; [now apply list_elem_of_In | apply str_eqb_refl].
Qed.

Lemma mem_false (x : str) (l : list str) : Py.mem x l = false <-> x ∉ l.
Proof.
  rewrite <- mem_true. destruct (Py.mem x l); split; congruence.
Qed.

Section DictFacts.

Context {V : Type}.
Implicit Types (d : Dict.t V) (k : str) (v : V).

Lemma dict_get_set_eq d k v : Dict.get (Dict.set d k v) k = Some v.
Proof.
  induction d as [|[k' v'] d IH]; cbn.
  - now rewrite str_eqb_refl.
  - destruct (Py.str_eqb k' k) eqn:E; cbn.
    + now rewrite str_eqb_refl.
    + now rewrite E.
Qed.

Lemma dict_get_set_ne d k k' v : k <> k' -> Dict.get (Dict.set d k v) k' = Dict.get d k'.
Proof.
  intros Hne. induction d as [|[k0 v0] d IH]; cbn.
  - apply str_eqb_neq in Hne. now rewrite Hne.
  - destruct (Py.str_eqb k0 k) eqn:E; cbn.
    + apply str_eqb_eq in E. subst k0. apply str_eqb_neq in Hne. now rewrite Hne.
    + now rewrite IH.
Qed.

Lemma dict_keys_set_present d k v :
  k ∈ Dict.keys d -> Dict.keys (Dict.set d k v) = Dict.keys d.
Proof.
  induction d as [|[k0 v0] d IH]; cbn; intros Hin.
  - now apply elem_of_nil in Hin.
  - destruct (Py.str_eqb k0 k) eqn:E; cbn.
    + apply str_eqb_eq in E. now subst.
    + f_equal. apply IH. apply elem_of_cons in Hin as [->|Hin]; [|assumption].
      now rewrite str_eqb_refl in E.
Qed.

Lemma dict_keys_set_absent d k v :
  k ∉ Dict.keys d -> Dict.keys (Dict.set d k v) = Dict.keys d ++ [k].
Proof.
  induction d as [|[k0 v0] d IH]; cbn; intros Hin; [reflexivity|].
  destruct (Py.str_eqb k0 k) eqn:E; cbn.
  - apply str_eqb_eq in E. subst. exfalso. apply Hin. left.
  - f_equal. apply IH. intros H. apply Hin. now right.
Qed.

Lemma dict_keys_set_NoDup d k v :
  NoDup (Dict.keys d) -> NoDup (Dict.keys (Dict.set d k v)).
Proof.
  intros Hnd. destruct (decide (k ∈ Dict.keys d)) as [Hin|Hin].
  - now rewrite dict_keys_set_present.
  - rewrite dict_keys_set_absent by assumption.
    apply NoDup_app. repeat split; [assumption | | apply NoDup_singleton].
    intros x Hx Hx'. apply list_elem_of_singleton in Hx'. now subst.
Qed.

(** the number of records a dictionary holds under a key *)
Lemma dict_one_record_per_key d k :
  NoDup (Dict.keys d) -> k ∈ Dict.keys d ->
  length (List.filter (fun kv => Py.str_eqb (fst kv) k) d) = 1.
Proof.
  induction d as [|[k0 v0] d IH]; cbn; intros Hnd Hin.
  - now apply elem_of_nil in Hin.
  - apply NoDup_cons in Hnd as [Hk0 Hnd].
    destruct (Py.str_eqb k0 k) eqn:E; cbn.
    + apply str_eqb_eq in E. subst k0. f_equal.
      clear IH Hin Hnd. induction d as [|[k1 v1] d IH]; cbn; [reflexivity|].
      cbn in Hk0. apply not_elem_of_cons in Hk0 as [Hne Hk0].
      destruct (Py.str_eqb k1 k) eqn:E1.
      * apply str_eqb_eq in E1. congruence.
      * now apply IH.
    + apply IH; [assumption|].
      apply elem_of_cons in Hin as [->|Hin]; [|assumption].
      now rewrite str_eqb_refl in E.
Qed.

End DictFacts.

Section HeapFacts.

Implicit Types (h : Heap.t) (a b : loc) (x : str).

Lemma heap_read_append_eq h a x :
  Heap.read (Heap.append h a x) a = Heap.read h a ++ [x].
Proof. unfold Heap.read, Heap.append. cbn. now rewrite lookup_insert_eq. Qed.

Lemma heap_read_append_ne h a b x :
  a <> b -> Heap.read (Heap.append h a x) b = Heap.read h b.
Proof.
  intros Hne. unfold Heap.read, Heap.append. cbn. now rewrite lookup_insert_ne.
Qed.

Lemma heap_read_appends h a (l : list str) :
  Heap.read (fold_left (fun h x => Heap.append h a x) l h) a = Heap.read h a ++ l.
Proof.
  revert h. induction l as [|x l IH]; intros h; cbn.
  - now rewrite app_nil_r.
  - rewrite IH, heap_read_append_eq, <- app_assoc. reflexivity.
Qed.

Lemma heap_read_appends_ne h a b (l : list str) :
  a <> b ->
  Heap.read (fold_left (fun h x => Heap.append h a x) l h) b = Heap.read h b.
Proof.
  intros Hne. revert h. induction l as [|x l IH]; intros h; cbn; [reflexivity|].
  now rewrite IH, heap_read_append_ne.
Qed.

Lemma heap_read_alloc_new (h : Heap.t) (l : list str) :
  Heap.read (snd (Heap.alloc h l)) (fst (Heap.alloc h l)) = l.
Proof. unfold Heap.read, Heap.alloc. cbn. now rewrite lookup_insert_eq. Qed.

Lemma heap_read_alloc_old (h : Heap.t) (l : list str) (a : loc) :
  a <> Heap.next h -> Heap.read (snd (Heap.alloc h l)) a = Heap.read h a.
Proof.
  intros Ha. unfold Heap.read, Heap.alloc. cbn.
  now rewrite lookup_insert_ne by congruence.
Qed.

End HeapFacts.

(** ** The results registry *)

Lemma register_entity_results_one (e : EntityResult.t) (p : Parser) :
  _results (CSharp.register_entity_results [e] p)
  = Dict.set (_results p) (EntityResult.entity_name e) (IsEntity e).
Proof. reflexivity. Qed.

(** C7. Assigning into the registry never fails and replaces the record
    a key already holds, the other keys keeping theirs. So when the C#
    parser registers an entity [Foo] of one file and later an entity
    [Foo] of another, both under the bare entity name, the registry
    holds one record under the key [Foo], the one registered last. *)
Theorem registry_last_write_wins (p : Parser) (foo1 foo2 : EntityResult.t) :
  NoDup (Dict.keys (_results p)) ->
  EntityResult.entity_name foo1 = "Foo" ->
  EntityResult.entity_name foo2 = "Foo" ->
  let registered :=
    _results (CSharp.register_entity_results [foo2]
                (CSharp.register_entity_results [foo1] p)) in
  (forall (d : Dict.t AbstractResult) (k : str) (earlier later : AbstractResult),
      Dict.get d k = Some earlier ->
      Dict.get (Dict.set d k later) k = Some later
      /\ Dict.keys (Dict.set d k later) = Dict.keys d
      /\ forall k', k <> k' -> Dict.get (Dict.set d k later) k' = Dict.get d k')
  /\ CSharp.create_unique_entity_name foo1 = "Foo"
  /\ CSharp.create_unique_entity_name foo2 = "Foo"
  /\ Dict.get registered "Foo" = Some (IsEntity foo2)
  /\ length (List.filter (fun kv => Py.str_eqb (fst kv) "Foo") registered) = 1
  /\ (forall k, k <> "Foo" -> Dict.get registered k = Dict.get (_results p) k).
Proof.
  intros Hnd H1 H2 registered. subst registered.
  rewrite !register_entity_results_one, H1, H2.
  repeat split.
  - apply dict_get_set_eq.
  - apply dict_keys_set_present.
    clear -H. induction d as [|[k0 v0] d IH]; cbn in *; [discriminate|].
    destruct (Py.str_eqb k0 k) eqn:E.
    + apply str_eqb_eq in E. subst. left.
    + right. now apply IH.
  - intros k' Hne. now apply dict_get_set_ne.
  - exact H1.
  - exact H2.
  - apply dict_get_set_eq.
  - apply dict_one_record_per_key.
    + now do 2 apply dict_keys_set_NoDup.
    + destruct (decide ("Foo" ∈ Dict.keys (Dict.set (_results p) "Foo" (IsEntity foo1))))
        as [Hin|Hin].
      * now rewrite dict_keys_set_present.
      * rewrite dict_keys_set_absent by assumption.
        apply elem_of_app. right. left.
  - intros k Hne. rewrite !dict_get_set_ne by congruence. reflexivity.
Qed.

(** C7, at two files [A.cs] and [B.cs] that each declare [Foo]. *)
Lemma registry_last_write_wins_witness :
  let fileA := a_file ["class"; "Foo"; "{"; "}"] 0 in
  let fileB := FileResult.mk 0 "proj/B.cs" "proj/B.cs" "/src/proj/B.cs" "B.cs" ""
                 ["class"; "Foo"; "{"; "}"] 1 "" in
  let foo1 := an_entity "Foo" fileA 2 3 in
  let foo2 := an_entity "Foo" fileB 4 5 in
  let p := mkParser [("proj/A.cs", IsFile fileA); ("proj/B.cs", IsFile fileB)]
             Heap.empty (Statistics.mk 0 0) in
  Dict.get (_results (CSharp.register_entity_results [foo2]
                        (CSharp.register_entity_results [foo1] p))) "Foo"
  = Some (IsEntity foo2).
Proof.
  intros fileA fileB foo1 foo2 p.
  refine (proj1 (proj2 (proj2 (proj2
            (registry_last_write_wins p foo1 foo2 _ eq_refl eq_refl))))).
  apply (bool_decide_unpack _). vm_compute. exact I.
Defined.

(** ** Namespace attachment *)

Lemma find_namespace_first (before rest : list str) :
  CSharp.NAMESPACE ∉ before ->
  CSharp.find_namespace (before ++ CSharp.NAMESPACE :: rest)
  = Some (CSharp.namespace_parts rest).
Proof.
  induction before as [|t before IH]; intros Hnot; cbn.
  - reflexivity.
  - apply not_elem_of_cons in Hnot as [Hne Hnot].
    replace (Py.str_eqb t CSharp.NAMESPACE) with false
      by (symmetry; apply str_eqb_neq; congruence).
    now apply IH.
Qed.

Lemma find_namespace_none (tokens : list str) :
  CSharp.NAMESPACE ∉ tokens -> CSharp.find_namespace tokens = None.
Proof.
  induction tokens as [|t tokens IH]; intros Hnot; cbn; [reflexivity|].
  apply not_elem_of_cons in Hnot as [Hne Hnot].
  replace (Py.str_eqb t CSharp.NAMESPACE) with false
    by (symmetry; apply str_eqb_neq; congruence).
  now apply IH.
Qed.

Lemma namespace_parts_found (parts rest : list str) :
  CSharp.OPEN_SCOPE ∉ parts ->
  CSharp.namespace_parts (parts ++ CSharp.OPEN_SCOPE :: rest) = Py.Ok parts.
Proof.
  induction parts as [|t parts IH]; intros Hnot; cbn.
  - reflexivity.
  - apply not_elem_of_cons in Hnot as [Hne Hnot].
    replace (Py.str_eqb t CSharp.OPEN_SCOPE) with false
      by (symmetry; apply str_eqb_neq; congruence).
    now rewrite IH.
Qed.

Lemma namespace_parts_run_off (parts : list str) :
  CSharp.OPEN_SCOPE ∉ parts ->
  CSharp.namespace_parts parts = Py.Raise Py.IndexError.
Proof.
  induction parts as [|t parts IH]; intros Hnot; cbn.
  - reflexivity.
  - apply not_elem_of_cons in Hnot as [Hne Hnot].
    replace (Py.str_eqb t CSharp.OPEN_SCOPE) with false
      by (symmetry; apply str_eqb_neq; congruence).
    now rewrite IH.
Qed.

(** C8. With [before] the tokens ahead of the first namespace keyword
    and [parts] the tokens after it that are no scope-open token: when a
    scope-open token follows [parts], [module_name] becomes [parts]
    joined with ['.'], whatever comes after (later declarations are not
    looked at); when the tokens end with [parts], the [IndexError] is
    caught, the result is returned as it was, and the file result that
    [generate_file_result_from_analysis] registers has the empty
    [module_name] it was created with. *)
Theorem namespace_attachment (result : FileResult.t) (before parts : list str) :
  CSharp.NAMESPACE ∉ before ->
  CSharp.OPEN_SCOPE ∉ parts ->
  (forall rest : list str,
      FileResult.scanned_tokens result
      = before ++ [CSharp.NAMESPACE] ++ parts ++ [CSharp.OPEN_SCOPE] ++ rest ->
      CSharp._add_namespace_to_result result
      = FileResult.set_module_name result (Py.join "." parts))
  /\ (FileResult.scanned_tokens result = before ++ [CSharp.NAMESPACE] ++ parts ->
      CSharp.find_namespace (FileResult.scanned_tokens result)
      = Some (Py.Raise Py.IndexError)
      /\ CSharp._add_namespace_to_result result = result)
  /\ (forall (p : Parser) (analysis : nat)
        (root file_name full_file_path file_content : str),
      ParsingMixin.preprocess_file_content_and_generate_token_list file_content
      = before ++ [CSharp.NAMESPACE] ++ parts ->
      exists registered : FileResult.t,
        Dict.get (_results (CSharp.generate_file_result_from_analysis p analysis root
                              file_name full_file_path file_content))
          (Py.replace root "" full_file_path)
        = Some (IsFile registered)
        /\ FileResult.module_name registered = "").
Proof.
  intros Hbefore Hparts. repeat split.
  - intros rest Htokens. unfold CSharp._add_namespace_to_result.
    rewrite Htokens. cbn [app]. rewrite find_namespace_first by assumption.
    now rewrite namespace_parts_found.
  - rewrite H. cbn [app]. rewrite find_namespace_first by assumption.
    now rewrite namespace_parts_run_off.
  - unfold CSharp._add_namespace_to_result.
    rewrite H. cbn [app]. rewrite find_namespace_first by assumption.
    now rewrite namespace_parts_run_off.
  - intros p analysis root file_name full_file_path file_content Htokens.
    unfold CSharp.generate_file_result_from_analysis, CSharp.create_file_result.
    cbn [Heap.alloc]. unfold CSharp._add_namespace_to_result.
    cbn [FileResult.scanned_tokens]. rewrite Htokens. cbn [app].
    rewrite find_namespace_first by assumption.
    rewrite namespace_parts_run_off by assumption.
    eexists. cbn [_results FileResult.unique_name]. split.
    + apply dict_get_set_eq.
    + reflexivity.
Qed.

(** C8, at the tokens of [using X ; namespace A . B { class C { } }] and
    at a declaration that is cut short. *)
Lemma namespace_attachment_witness :
  let good := a_file ["using"; "X"; ";"; "namespace"; "A.B"; "C"; "{";
                      "namespace"; "D"; "{"; "}"; "}"] 0 in
  let short := a_file ["using"; "X"; ";"; "namespace"; "A.B"; "C"] 0 in
  FileResult.module_name (CSharp._add_namespace_to_result good) = "A.B.C"
  /\ CSharp._add_namespace_to_result short = short
  /\ FileResult.module_name (CSharp._add_namespace_to_result short) = "".
Proof.
  intros good short.
  assert (Hb : CSharp.NAMESPACE ∉ ["using"; "X"; ";"])
    by (apply (bool_decide_unpack _); vm_compute; exact I).
  assert (Hp : CSharp.OPEN_SCOPE ∉ ["A.B"; "C"])
    by (apply (bool_decide_unpack _); vm_compute; exact I).
  split; [|split].
  - rewrite (proj1 (namespace_attachment good ["using"; "X"; ";"] ["A.B"; "C"] Hb Hp)
               ["namespace"; "D"; "{"; "}"; "}"] eq_refl).
    reflexivity.
  - exact (proj2 (proj1 (proj2
             (namespace_attachment short ["using"; "X"; ";"] ["A.B"; "C"] Hb Hp))
             eq_refl)).
  - rewrite (proj2 (proj1 (proj2
               (namespace_attachment short ["using"; "X"; ";"] ["A.B"; "C"] Hb Hp))
               eq_refl)).
    reflexivity.
Defined.

(** ** Import attachment *)

Lemma attach_imports_spec (file_imports : list str) (e : loc) :
  forall h : Heap.t,
  exists added : list str,
    Heap.read (attach_imports file_imports e h) e = Heap.read h e ++ added
    /\ NoDup added
    /\ (forall x, x ∈ added -> (x ∉ Heap.read h e) /\ (x ∈ file_imports))
    /\ (forall x, x ∈ file_imports -> x ∈ Heap.read h e \/ x ∈ added).
Proof.
  induction file_imports as [|x rest IH]; intros h; cbn [attach_imports].
  - exists []. rewrite app_nil_r. repeat split.
    + apply NoDup_nil_2.
    + now apply elem_of_nil in H.
    + now apply elem_of_nil in H.
    + intros y Hy. now apply elem_of_nil in Hy.
  - destruct (Py.mem x (Heap.read h e)) eqn:E.
    + destruct (IH h) as (added & Hread & Hnd & Hnew & Hall).
      exists added. repeat split; try assumption.
      * now apply Hnew.
      * right. now apply Hnew.
      * intros y Hy. apply elem_of_cons in Hy as [->|Hy]; [|now apply Hall].
        left. now apply mem_true.
    + apply mem_false in E.
      destruct (IH (Heap.append h e x)) as (added & Hread & Hnd & Hnew & Hall).
      rewrite heap_read_append_eq in *.
      exists (x :: added). repeat split.
      * rewrite Hread, <- app_assoc. reflexivity.
      * apply NoDup_cons. split; [|assumption].
        intros Hin. apply Hnew in Hin as [Hin _]. apply Hin.
        apply elem_of_app. right. left.
      * apply elem_of_cons in H as [->|H]; [assumption|].
        apply Hnew in H as [H _]. intros Hin. apply H.
        apply elem_of_app. now left.
      * apply elem_of_cons in H as [->|H]; [left|].
        right. now apply Hnew.
      * intros y Hy. apply elem_of_cons in Hy as [->|Hy].
        -- right. left.
        -- destruct (Hall y Hy) as [Hin|Hin].
           ++ apply elem_of_app in Hin as [Hin|Hin]; [now left|].
              apply list_elem_of_singleton in Hin as ->. right. left.
           ++ right. now right.
Qed.

Lemma attach_imports_frame (file_imports : list str) (e a : loc) :
  e <> a ->
  forall h : Heap.t, Heap.read (attach_imports file_imports e h) a = Heap.read h a.
Proof.
  intros Hne. induction file_imports as [|x rest IH]; intros h; cbn; [reflexivity|].
  rewrite IH. destruct (Py.mem x (Heap.read h e)); [reflexivity|].
  now apply heap_read_append_ne.
Qed.

Lemma csharp_entity_usings_read (entity : EntityResult.t) (tokens : list str) (h : Heap.t) :
  Heap.read (CSharp._add_usings_to_single_entity_result entity tokens h)
    (EntityResult.scanned_import_dependencies entity)
  = Heap.read h (EntityResult.scanned_import_dependencies entity)
    ++ CSharp.entity_usings (ParsingMixin._gen_word_read_ahead tokens).
Proof. apply heap_read_appends. Qed.

Lemma file_usings_before_declaration (triples : list (nat * str * option (list str))) :
  forall x : str,
    x ∈ CSharp.file_usings (before_declaration triples) ->
    x ∈ CSharp.entity_usings triples.
Proof.
  induction triples as [|[[index obj] following] rest IH]; intros x;
    cbn [before_declaration CSharp.entity_usings].
  - trivial.
  - destruct (Py.str_eqb obj CSharp.USING) eqn:E.
    + cbn [CSharp.file_usings]. rewrite E.
      destruct (ParsingMixin.create_read_ahead_string obj following)
        as [read_ahead_string|]; [|apply IH].
      cbn zeta.
      destruct (CSharp.matches_namespace_pattern _);
        destruct (CSharp.second_word _); intros Hx.
      * apply elem_of_cons in Hx as [->|Hx]; [left | right; now apply IH].
      * now apply IH.
      * right. now apply IH.
      * now apply IH.
    + destruct (Py.any_in CSharp.declaration_keywords obj).
      * intros Hx. now apply elem_of_nil in Hx.
      * cbn [CSharp.file_usings]. rewrite E. apply IH.
Qed.

Lemma add_imports_of_tokens_frame (tokens : list str) (f a : loc) :
  f <> a ->
  forall h : Heap.t, Heap.read (CSS.add_imports_of_tokens tokens f h) a = Heap.read h a.
Proof.
  intros Hne. induction tokens as [|token tokens IH]; intros h;
    cbn [CSS.add_imports_of_tokens]; [reflexivity|].
  rewrite IH. destruct (Py.startswith token CSS.IMPORT); [|reflexivity].
  now apply heap_read_append_ne.
Qed.

Lemma attach_imports_superset (entity : EntityResult.t) (h : Heap.t) (x : str) :
  x ∈ Heap.read h (FileResult.scanned_import_dependencies
                     (EntityResult.parent_file_result entity)) ->
  x ∈ Heap.read
        (attach_imports
           (Heap.read h (FileResult.scanned_import_dependencies
                           (EntityResult.parent_file_result entity)))
           (EntityResult.scanned_import_dependencies entity) h)
        (EntityResult.scanned_import_dependencies entity).
Proof.
  intros Hx.
  destruct (attach_imports_spec
              (Heap.read h (FileResult.scanned_import_dependencies
                              (EntityResult.parent_file_result entity)))
              (EntityResult.scanned_import_dependencies entity) h)
    as (added & -> & _ & _ & Hall).
  apply elem_of_app. destruct (Hall x Hx); auto.
Qed.

(** what the constructor builds: an entity of the file given, whose
    import list is a new, empty object; the objects of the store are
    left as they were *)
Lemma create_entity_result_spec (h : Heap.t) (result : FileResult.t)
    (entity_name : str) (span : list str) :
  let created := fst (create_entity_result h result entity_name span) in
  let h0 := snd (create_entity_result h result entity_name span) in
  EntityResult.parent_file_result created = result
  /\ EntityResult.scanned_import_dependencies created = Heap.next h
  /\ Heap.read h0 (Heap.next h) = []
  /\ (forall a : loc, a < Heap.next h -> Heap.read h0 a = Heap.read h a).
Proof.
  unfold create_entity_result, Heap.alloc, Heap.read. cbn.
  split; [reflexivity|]. split; [reflexivity|]. split.
  - rewrite lookup_insert_ne by lia. now rewrite lookup_insert_eq.
  - intros a Ha. now rewrite !lookup_insert_ne by lia.
Qed.

(** into an empty list the attachment copies the imports given, each
    once *)
Lemma attach_imports_fresh (file_imports : list str) (e : loc) (h : Heap.t) :
  Heap.read h e = [] ->
  NoDup (Heap.read (attach_imports file_imports e h) e)
  /\ (forall x : str,
        x ∈ Heap.read (attach_imports file_imports e h) e <-> x ∈ file_imports).
Proof.
  intros Hempty.
  destruct (attach_imports_spec file_imports e h) as (added & Hread & Hnd & Hnew & Hall).
  rewrite Hread, Hempty. cbn [app]. split; [exact Hnd|].
  intros x. split.
  - intros Hx. now apply Hnew.
  - intros Hx. destruct (Hall x Hx) as [Hin|Hin]; [|exact Hin].
    rewrite Hempty in Hin. now apply elem_of_nil in Hin.
Qed.

(** C3, as the code has it. In the stylesheet and template parsers (CSS,
    SCSS, Twig) the attachment leaves every import of the owning file,
    as its list stands then, in the entity's list. In the C# parser the
    entity's list receives the [using] names read from the file's tokens
    up to the first token that contains a declaration keyword, among
    them every import the file scan records from those tokens. An entity
    is built with an import list of its own: for an entity so built, of
    a file whose list is in the store, the list after the attachment
    holds the file's imports of that moment, each once (CSS, SCSS, Twig),
    or the names read (C#), and nothing that is appended to the file's
    list afterwards, by the file scan of the parser or by any other
    append, reaches it. *)
Theorem entity_imports_at_attachment (entity : EntityResult.t) (h : Heap.t) :
  let e := EntityResult.scanned_import_dependencies entity in
  let f := FileResult.scanned_import_dependencies
             (EntityResult.parent_file_result entity) in
  (forall x : str,
      x ∈ Heap.read h f ->
      x ∈ Heap.read (CSS._add_imports_to_entity_result entity h) e
      /\ x ∈ Heap.read (SCSS._add_imports_to_entity_result entity h) e
      /\ x ∈ Heap.read (Twig._add_imports_to_entity_result entity h) e)
  /\ (forall tokens : list str,
        Heap.read (CSharp._add_usings_to_single_entity_result entity tokens h) e
        = Heap.read h e
          ++ CSharp.entity_usings (ParsingMixin._gen_word_read_ahead tokens)
        /\ forall x : str,
            x ∈ CSharp.file_usings
                  (before_declaration (ParsingMixin._gen_word_read_ahead tokens)) ->
            x ∈ Heap.read (CSharp._add_usings_to_single_entity_result entity tokens h) e)
  /\ (forall (result : FileResult.t) (entity_name : str) (span : list str),
        FileResult.scanned_import_dependencies result < Heap.next h ->
        let file_list := FileResult.scanned_import_dependencies result in
        let created := fst (create_entity_result h result entity_name span) in
        let h0 := snd (create_entity_result h result entity_name span) in
        let entity_list := EntityResult.scanned_import_dependencies created in
        EntityResult.parent_file_result created = result
        /\ Forall (fun attach =>
                     let attached := attach created h0 in
                     NoDup (Heap.read attached entity_list)
                     /\ (forall x : str,
                           x ∈ Heap.read attached entity_list
                           <-> x ∈ Heap.read h file_list)
                     /\ (forall later : list str,
                           Heap.read (append_all file_list later attached) entity_list
                           = Heap.read attached entity_list
                           /\ forall x : str,
                               x ∈ later -> x ∉ Heap.read h file_list ->
                               x ∉ Heap.read (append_all file_list later attached)
                                     entity_list))
             stylesheet_attachments
        /\ (let attached := CSS._add_imports_to_entity_result created h0 in
            Heap.read (CSS._add_imports_to_result result attached) entity_list
            = Heap.read attached entity_list)
        /\ (forall tokens : list str,
              let attached :=
                CSharp._add_usings_to_single_entity_result created tokens h0 in
              Heap.read attached entity_list
              = CSharp.entity_usings (ParsingMixin._gen_word_read_ahead tokens)
              /\ Heap.read (CSharp.add_usings_to_file_result result attached)
                   entity_list
                 = Heap.read attached entity_list
              /\ forall later : list str,
                  Heap.read (append_all file_list later attached) entity_list
                  = Heap.read attached entity_list)).
Proof.
  intros e f. split; [|split].
  - intros x Hx. repeat split; now apply attach_imports_superset.
  - intros tokens. subst e. rewrite csharp_entity_usings_read. split; [reflexivity|].
    intros x Hx. apply elem_of_app. right.
    now apply file_usings_before_declaration.
  - clear e f. intros result entity_name span Hf file_list created h0 entity_list.
    destruct (create_entity_result_spec h result entity_name span)
      as (Hparent & Hlist & Hempty & Hold).
    fold created in Hparent, Hlist. fold h0 in Hempty, Hold.
    fold entity_list in Hlist. rewrite <- Hlist in Hempty.
    fold file_list in Hf.
    assert (Hne : file_list <> entity_list) by lia.
    assert (Hfile : Heap.read h0 file_list = Heap.read h file_list)
      by now apply Hold.
    assert (Hattach :
              let attached :=
                attach_imports (Heap.read h0 file_list) entity_list h0 in
              NoDup (Heap.read attached entity_list)
              /\ (forall x : str,
                    x ∈ Heap.read attached entity_list <-> x ∈ Heap.read h file_list)
              /\ (forall later : list str,
                    Heap.read (append_all file_list later attached) entity_list
                    = Heap.read attached entity_list
                    /\ forall x : str,
                        x ∈ later -> x ∉ Heap.read h file_list ->
                        x ∉ Heap.read (append_all file_list later attached)
                              entity_list)).
    { intros attached.
      destruct (attach_imports_fresh (Heap.read h0 file_list) entity_list h0 Hempty)
        as [Hnd Hsame].
      fold attached in Hnd, Hsame. rewrite Hfile in Hsame.
      split; [exact Hnd|]. split; [exact Hsame|].
      intros later.
      assert (Hlater : Heap.read (append_all file_list later attached) entity_list
                       = Heap.read attached entity_list)
        by now apply heap_read_appends_ne.
      split; [exact Hlater|].
      intros x _ Hx. rewrite Hlater. now rewrite Hsame. }
    split; [exact Hparent|]. split; [|split].
    + unfold stylesheet_attachments.
      constructor; [|constructor; [|constructor; [|constructor]]];
        unfold CSS._add_imports_to_entity_result,
          SCSS._add_imports_to_entity_result, Twig._add_imports_to_entity_result;
        rewrite Hparent; apply Hattach.
    + intros attached. unfold CSS._add_imports_to_result. fold file_list.
      now apply add_imports_of_tokens_frame.
    + intros tokens attached. split; [|split].
      * unfold attached. rewrite csharp_entity_usings_read.
        fold entity_list. now rewrite Hempty.
      * unfold CSharp.add_usings_to_file_result. fold file_list.
        now apply heap_read_appends_ne.
      * intros later. now apply heap_read_appends_ne.
Qed.

(** C3, the claim as stated fails in the C# parser: for the tokens of
    [namespace N { using A ; class C { int x ; } }] the file scan records [A],
    the entity scan stops at [namespace] and attaches nothing. *)
Lemma csharp_entity_misses_file_import :
  let tokens := ["namespace"; "N"; "{"; "using"; "A"; ";";
                 "class"; "C"; "{"; "int"; "x"; ";"; "}"; "}"] in
  let file := a_file tokens 0 in
  let entity := an_entity "C" file 1 2 in
  let at_attachment := CSharp.add_usings_to_file_result file (fresh_store 3) in
  let attached := CSharp._add_usings_to_single_entity_result entity tokens at_attachment in
  Heap.read at_attachment 0 = ["A"]
  /\ Heap.read attached 1 = []
  /\ ~ (forall x : str, x ∈ Heap.read at_attachment 0 -> x ∈ Heap.read attached 1).
Proof.
  cbv zeta. split; [|split].
  - vm_compute. reflexivity.
  - vm_compute. reflexivity.
  - intros Hall. specialize (Hall "A").
    assert (Hin : "A" ∈ Heap.read
                    (CSharp._add_usings_to_single_entity_result
                       (an_entity "C" (a_file ["namespace"; "N"; "{"; "using"; "A"; ";";
                                               "class"; "C"; "{"; "int"; "x"; ";";
                                               "}"; "}"] 0) 1 2)
                       ["namespace"; "N"; "{"; "using"; "A"; ";";
                        "class"; "C"; "{"; "int"; "x"; ";"; "}"; "}"]
                       (CSharp.add_usings_to_file_result
                          (a_file ["namespace"; "N"; "{"; "using"; "A"; ";";
                                   "class"; "C"; "{"; "int"; "x"; ";"; "}"; "}"] 0)
                          (fresh_store 3))) 1).
    { apply Hall. vm_compute. left. }
    vm_compute in Hin. now apply elem_of_nil in Hin.
Qed.

(** C3, at a stylesheet entity built for a file that imports [a.css]
    and [b.css] and later records the import of [c.css]. *)
Lemma entity_imports_at_attachment_witness :
  let file := a_file ["@import'c.css'"; ";"; "b"; "{"; "}"] 0 in
  let h := Heap.write (fresh_store 1) 0 ["a.css"; "b.css"] in
  let created := fst (create_entity_result h file "b" ["{"; "}"]) in
  let h0 := snd (create_entity_result h file "b" ["{"; "}"]) in
  let attached := CSS._add_imports_to_entity_result created h0 in
  "b.css" ∈ Heap.read (CSS._add_imports_to_entity_result created h0) 1
  /\ Heap.read (CSS._add_imports_to_result file attached) 1 = Heap.read attached 1
  /\ "c.css" ∉ Heap.read (append_all 0 ["c.css"] attached) 1.
Proof.
  intros file h created h0 attached.
  destruct (proj2 (proj2 (entity_imports_at_attachment (an_entity "b" file 1 2) h))
              file "b" ["{"; "}"] ltac:(vm_compute; lia))
    as (_ & Hall & Hscan & _).
  inversion Hall as [|attach rest (_ & Hsame & Hlater) _]; subst.
  split; [|split].
  - apply Hsame. vm_compute. right. left.
  - exact Hscan.
  - apply (proj2 (Hlater ["c.css"]) "c.css"); [left|].
    apply (bool_decide_unpack _). vm_compute. exact I.
Defined.

Lemma attach_imports_no_duplicate (file_imports : list str) (e : loc) (h : Heap.t) :
  exists added : list str,
    Heap.read (attach_imports file_imports e h) e = Heap.read h e ++ added
    /\ NoDup added
    /\ (forall x, x ∈ added -> (x ∉ Heap.read h e) /\ (x ∈ file_imports))
    /\ (NoDup (Heap.read h e) -> NoDup (Heap.read (attach_imports file_imports e h) e)).
Proof.
  destruct (attach_imports_spec file_imports e h) as (added & Hread & Hnd & Hnew & _).
  exists added. repeat split; try assumption; try (now apply Hnew).
  intros Hbefore. rewrite Hread. apply NoDup_app. repeat split; try assumption.
  intros x Hx Hx'. now apply Hnew in Hx'.
Qed.

(** C9, as the code has it. The CSS and SCSS parsers insert an import of
    the owning file only when it is not yet in the entity's list: what
    the attachment appends is free of repetitions and was absent before,
    so a list without duplicates stays so. The C# parser has no such
    check: it appends every [using] name it reads. *)
Theorem attachment_checks_containment (entity : EntityResult.t) (h : Heap.t) :
  let e := EntityResult.scanned_import_dependencies entity in
  let f := FileResult.scanned_import_dependencies
             (EntityResult.parent_file_result entity) in
  (exists added : list str,
      Heap.read (CSS._add_imports_to_entity_result entity h) e = Heap.read h e ++ added
      /\ NoDup added
      /\ (forall x, x ∈ added -> (x ∉ Heap.read h e) /\ (x ∈ Heap.read h f))
      /\ (NoDup (Heap.read h e) ->
          NoDup (Heap.read (CSS._add_imports_to_entity_result entity h) e)))
  /\ (exists added : list str,
        Heap.read (SCSS._add_imports_to_entity_result entity h) e = Heap.read h e ++ added
        /\ NoDup added
        /\ (forall x, x ∈ added -> (x ∉ Heap.read h e) /\ (x ∈ Heap.read h f))
        /\ (NoDup (Heap.read h e) ->
            NoDup (Heap.read (SCSS._add_imports_to_entity_result entity h) e)))
  /\ (forall tokens : list str,
        Heap.read (CSharp._add_usings_to_single_entity_result entity tokens h) e
        = Heap.read h e ++ CSharp.entity_usings (ParsingMixin._gen_word_read_ahead tokens)).
Proof.
  intros e f. split; [|split].
  - apply attach_imports_no_duplicate.
  - apply attach_imports_no_duplicate.
  - intros tokens. apply csharp_entity_usings_read.
Qed.

(** C9, the claim as stated fails in the C# parser: for the tokens of
    [using A ; using A ; class C { int x ; }] the attachment turns an empty list
    into one that holds [A] twice. *)
Lemma csharp_attachment_duplicates :
  let tokens := ["using"; "A"; ";"; "using"; "A"; ";";
                 "class"; "C"; "{"; "int"; "x"; ";"; "}"] in
  let entity := an_entity "C" (a_file tokens 0) 1 2 in
  let attached := CSharp._add_usings_to_single_entity_result entity tokens (fresh_store 3) in
  NoDup (Heap.read (fresh_store 3) 1)
  /\ Heap.read attached 1 = ["A"; "A"]
  /\ ~ NoDup (Heap.read attached 1).
Proof.
  cbv zeta. split; [|split].
  - vm_compute. apply NoDup_nil_2.
  - vm_compute. reflexivity.
  - intros Hnd.
    assert (E : Heap.read
                  (CSharp._add_usings_to_single_entity_result
                     (an_entity "C"
                        (a_file ["using"; "A"; ";"; "using"; "A"; ";";
                                 "class"; "C"; "{"; "int"; "x"; ";"; "}"] 0) 1 2)
                     ["using"; "A"; ";"; "using"; "A"; ";";
                      "class"; "C"; "{"; "int"; "x"; ";"; "}"]
                     (fresh_store 3)) 1 = ["A"; "A"]) by (vm_compute; reflexivity).
    rewrite E in Hnd. apply NoDup_cons in Hnd as [Hin _]. apply Hin. left.
Qed.

(** C9, at a stylesheet entity that already holds [a.css], attached to
    a file that imports [a.css] twice and [b.css]. *)
Lemma attachment_checks_containment_witness :
  let entity := an_entity "C" (a_file [] 0) 1 2 in
  let h := Heap.write (Heap.write (fresh_store 3) 0 ["a.css"; "b.css"; "a.css"])
             1 ["a.css"] in
  NoDup (Heap.read (CSS._add_imports_to_entity_result entity h) 1).
Proof.
  intros entity h.
  destruct (proj1 (attachment_checks_containment entity h))
    as (added & _ & _ & _ & Hkeeps).
  apply Hkeeps. apply (bool_decide_unpack _). vm_compute. exact I.
Defined.

(** ** Keyword-scoped extraction: [Class Foo / Inherits Bar / End Class] *)

(** C2. For the three-line source the run ends without an exception and
    the registry holds one [EntityResult]: its [entity_name] is [Foo],
    its inheritance dependencies are [[Bar]], and its token span is the
    file's token sequence without the closing [End Class] pair. *)
Theorem class_foo_entity :
  entities_of_run class_foo_run
  = Some [("Foo", ["Bar"], ["Class"; "Foo"; NL; "Inherits"; "Bar"; NL])]
  /\ file_tokens_of_run class_foo_run
     = [["Class"; "Foo"; NL; "Inherits"; "Bar"; NL] ++ ["End"; "Class"]].
Proof. split; vm_compute; reflexivity. Qed.

(** ** Scope extraction: the body-capture loop ends *)

Section CaptureLoop.

Variables (close_scope_character : str) (all_tokens following_tokens : list str).

Lemma capture_step_advances (c c' : VBNet.capture) :
  VBNet.capture_step close_scope_character all_tokens following_tokens c
  = VBNet.Continue c' ->
  VBNet.iterTokens c < VBNet.iterTokens c'.
Proof.
  unfold VBNet.capture_step.
  destruct (Py.str_eqb _ close_scope_character && _).
  - destruct (_ =? 0)%Z; [discriminate|].
    intros [= <-]. cbn. lia.
  - intros [= <-]. cbn. lia.
Qed.

(** with as many turns as there are tokens left the loop ends *)
Lemma capture_loop_ends (fuel : nat) :
  forall c : VBNet.capture,
    length all_tokens <= fuel + VBNet.iterTokens c ->
    exists c' : VBNet.capture,
      VBNet.capture_loop fuel close_scope_character all_tokens following_tokens c
      = Some c'.
Proof.
  induction fuel as [|fuel IH]; intros c Hfuel; cbn [VBNet.capture_loop].
  - destruct (VBNet.iterTokens c <? length all_tokens) eqn:E.
    + apply Nat.ltb_lt in E. lia.
    + cbn. eauto.
  - destruct ((VBNet.iterTokens c <? length all_tokens) && _) eqn:E; [|eauto].
    destruct (VBNet.capture_step _ _ _ c) as [c'|c'] eqn:Hstep; [|eauto].
    apply capture_step_advances in Hstep. apply IH. lia.
Qed.

End CaptureLoop.

Lemma capture_body_ends (close_scope_character obj : str) (following : list str) :
  exists c : VBNet.capture,
    VBNet.capture_body close_scope_character obj following = Some c.
Proof.
  unfold VBNet.capture_body. apply capture_loop_ends. cbn. lia.
Qed.

Lemma scan_triple_ends (entity_keywords : list str) (entity_expression : pp.element)
    (close_scope_character : str) (st : VBNet.scan)
    (triple : nat * str * option (list str)) :
  exists r, VBNet.scan_triple entity_keywords entity_expression
              close_scope_character st triple = Some r.
Proof.
  destruct triple as [[index obj] following]. unfold VBNet.scan_triple.
  destruct (Py.mem obj entity_keywords && _); [|eauto].
  destruct (ParsingMixin.create_read_ahead_string obj following); [|eauto].
  destruct (pp.parseString entity_expression a); [|eauto].
  destruct (capture_body_ends close_scope_character obj (default [] following))
    as [c ->].
  eauto.
Qed.

Lemma scan_entities_ends (entity_keywords : list str) (entity_expression : pp.element)
    (close_scope_character : str) (triples : list (nat * str * option (list str))) :
  forall st : VBNet.scan,
  exists r, VBNet.scan_entities entity_keywords entity_expression
              close_scope_character triples st = Some r.
Proof.
  induction triples as [|triple rest IH]; intros st; cbn [VBNet.scan_entities].
  - eauto.
  - destruct (scan_triple_ends entity_keywords entity_expression
                close_scope_character st triple) as [[st' [e|]] ->]; eauto.
Qed.

(** C1, as the code has it. The body-capture loop ends within as many
    turns as [all_tokens] has tokens (the entity keyword and the tokens
    read ahead), whatever the nesting, and so does the extraction over a
    whole file result. Running out of tokens is not reported as a miss:
    once the header has matched, the turn counts a hit, leaves the miss
    counter as it was, and records the tokens captured, whether the
    depth came back to zero or the tokens ran out. *)
Theorem scope_extraction_terminates :
  (forall (close_scope_character obj : str) (following : list str),
      exists c : VBNet.capture,
        VBNet.capture_loop (length ([obj] ++ following)) close_scope_character
          ([obj] ++ following) (drop 1 ([obj] ++ following) ++ [""])
          (VBNet.mkCapture 0 0 0 [])
        = Some c
        /\ VBNet.capture_body close_scope_character obj following = Some c)
  /\ (forall (p : Parser) (result : FileResult.t) (entity_keywords : list str)
             (entity_expression : pp.element) (comment_keywords : VBNet.markers),
        exists (r : Py.result (list EntityResult.t)) (p' : Parser),
          VBNet.generate_entity_results_from_scopes p result entity_keywords
            entity_expression comment_keywords = Some (r, p'))
  /\ (forall (entity_keywords : list str) (entity_expression : pp.element)
             (close_scope_character : str) (st : VBNet.scan) (index : nat)
             (obj : str) (following parsing_result : list str),
        Py.mem obj entity_keywords = true ->
        VBNet.previous_obj st <> close_scope_character ->
        pp.parseString entity_expression (Py.join " " ([obj] ++ following))
        = Some parsing_result ->
        exists c : VBNet.capture,
          VBNet.capture_body close_scope_character obj following = Some c
          /\ VBNet.scan_triple entity_keywords entity_expression
               close_scope_character st (index, obj, Some following)
             = Some (VBNet.mkScan obj
                       (Dict.set (VBNet.found_entities st)
                          (VBNet.parsed_entity_name parsing_result)
                          (VBNet.captured c))
                       (Statistics.mk
                          (S (Statistics.parsing_hits (VBNet.scan_statistics st)))
                          (Statistics.parsing_misses (VBNet.scan_statistics st))),
                     None)).
Proof.
  split; [|split].
  - intros csc obj following.
    destruct (capture_body_ends csc obj following) as [c Hc].
    exists c. split; exact Hc.
  - intros p result kws expr markers.
    unfold VBNet.generate_entity_results_from_scopes.
    destruct (scan_entities_ends kws expr VBNet.CLOSE_SCOPE
                (ParsingMixin._gen_word_read_ahead
                   (ParsingMixin.preprocess_file_content_and_generate_token_list
                      (Py.replace "{ }" ""
                         (Py.replace "{}" ""
                            (VBNet._filter_source_tokens_without_comments
                               (FileResult.scanned_tokens result)
                               (VBNet.line_comment markers)
                               (VBNet.start_block_comment markers)
                               (VBNet.stop_block_comment markers))))))
                (VBNet.mkScan "" [] (statistics p)))
      as [[st [e|]] ->].
    + eauto.
    + destruct (VBNet.create_entity_results result (VBNet.found_entities st) (heap p)).
      eauto.
  - intros kws expr csc st index obj following parsing_result Hkw Hprev Hparse.
    destruct (capture_body_ends csc obj following) as [c Hc].
    exists c. split; [exact Hc|].
    unfold VBNet.scan_triple. rewrite Hkw.
    apply str_eqb_neq in Hprev. rewrite Hprev. cbn [negb andb].
    cbn [ParsingMixin.create_read_ahead_string]. rewrite Hparse.
    change (default [] (Some following)) with following. rewrite Hc. reflexivity.
Qed.

(** C1, the claim as stated fails: the tokens [Class Foo], with nothing
    to close the class, run out at depth 1; the extraction returns the
    entity [Foo], counts one hit and no miss. *)
Lemma unbalanced_is_not_a_miss :
  let result := FileResult.mk 0 "proj/Foo.vb" "proj/Foo.vb" "/src/proj/Foo.vb"
                  "Foo.vb" "" ["Class"; "Foo"] 0 "Class Foo" in
  let p := mkParser [("proj/Foo.vb", IsFile result)] (fresh_store 1)
             (Statistics.mk 0 0) in
  VBNet.capture_body VBNet.CLOSE_SCOPE "Class" ["Foo"]
  = Some (VBNet.mkCapture 2 2 1 ["Class"; "Foo"])
  /\ (match VBNet.generate_entity_results_from_scopes p result
              VBNet.entity_keywords VBNet.match_expression VBNet.comment_keywords with
      | Some (Py.Ok entities, p') =>
          Some (map EntityResult.entity_name entities,
                Statistics.parsing_hits (statistics p'),
                Statistics.parsing_misses (statistics p'))
      | _ => None
      end = Some (["Foo"], 1, 0)).
Proof. split; vm_compute; reflexivity. Qed.

(** C1, at the header [Class Foo] followed by nothing that closes it. *)
Lemma scope_extraction_terminates_witness :
  exists c : VBNet.capture,
    VBNet.capture_body VBNet.CLOSE_SCOPE "Class" ["Foo"] = Some c
    /\ VBNet.scan_triple VBNet.entity_keywords VBNet.match_expression
         VBNet.CLOSE_SCOPE (VBNet.mkScan "" [] (Statistics.mk 0 0))
         (0, "Class", Some ["Foo"])
       = Some (VBNet.mkScan "Class"
                 (Dict.set [] (VBNet.parsed_entity_name ["Class"; "Foo"])
                    (VBNet.captured c))
                 (Statistics.mk 1 0), None).
Proof.
  apply (proj2 (proj2 scope_extraction_terminates)
           VBNet.entity_keywords VBNet.match_expression VBNet.CLOSE_SCOPE
           (VBNet.mkScan "" [] (Statistics.mk 0 0)) 0 "Class" ["Foo"]
           ["Class"; "Foo"]).
  - vm_compute. reflexivity.
  - discriminate.
  - vm_compute. reflexivity.
Defined.

(** ** The comment filter *)

Section CommentFilterFacts.

Variables (line_marker start stop : str).

Lemma block_open_snoc (before : list str) (line : str) :
  CommentFilter.block_open start stop (before ++ [line])
  = if CommentFilter.switches start stop line
    then CommentFilter.starts start line
    else CommentFilter.block_open start stop before.
Proof.
  unfold CommentFilter.block_open. rewrite List.filter_app. cbn [List.filter].
  destruct (CommentFilter.switches start stop line).
  - now rewrite last_snoc.
  - now rewrite app_nil_r.
Qed.

Lemma filter_lines_survivors (lines : list str) :
  forall before : list str,
    VBNet.filter_lines line_marker start stop
      (CommentFilter.block_open start stop before) lines
    = CommentFilter.survivors line_marker start stop before lines.
Proof.
  induction lines as [|line rest IH]; intros before;
    cbn [VBNet.filter_lines CommentFilter.survivors]; [reflexivity|].
  rewrite <- IH, block_open_snoc.
  unfold CommentFilter.survives, CommentFilter.removed_by_prefix,
    CommentFilter.switches, CommentFilter.region_line, CommentFilter.starts.
  destruct (Py.startswith (Py.strip line) "#Region"
            || Py.startswith (Py.strip line) "#End Region"); cbn [negb andb orb app];
    [reflexivity|].
  destruct (Py.startswith (Py.strip line) start); cbn [negb andb orb app];
    [reflexivity|].
  destruct (Py.startswith (Py.strip line) stop); cbn [negb andb orb app];
    [reflexivity|].
  destruct (Py.startswith (Py.strip line) line_marker); cbn [negb andb orb app];
    [reflexivity|].
  now destruct (CommentFilter.block_open start stop before).
Qed.

Lemma survivors_sublist (lines : list str) :
  forall before : list str,
    sublist (CommentFilter.survivors line_marker start stop before lines) lines.
Proof.
  induction lines as [|line rest IH]; intros before; cbn [CommentFilter.survivors].
  - constructor.
  - destruct (CommentFilter.survives _ _ _ before line); cbn [app].
    + apply sublist_skip, IH.
    + apply sublist_cons, IH.
Qed.

Lemma survivors_not_removed (lines : list str) :
  forall before : list str,
    Forall (fun line =>
              CommentFilter.removed_by_prefix line_marker start stop line = false)
      (CommentFilter.survivors line_marker start stop before lines).
Proof.
  induction lines as [|line rest IH]; intros before; cbn [CommentFilter.survivors].
  - constructor.
  - destruct (CommentFilter.survives _ _ _ before line) eqn:E; cbn [app]; [|apply IH].
    constructor; [|apply IH].
    unfold CommentFilter.survives in E. apply andb_true_iff in E as [E _].
    now apply negb_true_iff in E.
Qed.

Lemma survivors_app (lines rest : list str) :
  forall before : list str,
    CommentFilter.survivors line_marker start stop before (lines ++ rest)
    = CommentFilter.survivors line_marker start stop before lines
      ++ CommentFilter.survivors line_marker start stop (before ++ lines) rest.
Proof.
  induction lines as [|line lines IH]; intros before; cbn [app CommentFilter.survivors].
  - now rewrite app_nil_r.
  - rewrite IH, <- !app_assoc. reflexivity.
Qed.

(** while a block is open and no line closes it, nothing survives *)
Lemma survivors_in_open_block (inside : list str) :
  forall before : list str,
    CommentFilter.block_open start stop before = true ->
    Forall (fun line => CommentFilter.switches start stop line = true ->
                        CommentFilter.starts start line = true) inside ->
    CommentFilter.survivors line_marker start stop before inside = []
    /\ CommentFilter.block_open start stop (before ++ inside) = true.
Proof.
  induction inside as [|line inside IH]; intros before Hopen Hinside;
    cbn [CommentFilter.survivors].
  - now rewrite app_nil_r.
  - apply Forall_cons in Hinside as [Hline Hinside].
    unfold CommentFilter.survives at 1. rewrite Hopen, andb_false_r. cbn [app].
    replace (before ++ line :: inside) with ((before ++ [line]) ++ inside)
      by now rewrite <- app_assoc.
    apply IH; [|assumption].
    rewrite block_open_snoc.
    destruct (CommentFilter.switches start stop line); auto.
Qed.

End CommentFilterFacts.

(** C4, as the code has it. Over the lines of the space-joined tokens,
    a line is removed when, trimmed, it starts with [#Region] or
    [#End Region], with the block-start marker, with the block-stop
    marker or with the line marker, and when a block is open: the last
    line before it that starts with a block marker (start tested first,
    region lines aside) starts with the start marker. Every other line
    survives, and the survivors keep their order. In particular a line
    that opens a block and the lines after it are removed as long as no
    line closes the block. *)
Theorem comment_filter_lines (list_of_words : list str) (line_marker start stop : str) :
  let lines := Py.splitlines (Py.join " " list_of_words) in
  let kept := CommentFilter.survivors line_marker start stop [] lines in
  VBNet._filter_source_tokens_without_comments list_of_words line_marker start stop
  = Py.join NL kept
  /\ sublist kept lines
  /\ Forall (fun line =>
               CommentFilter.removed_by_prefix line_marker start stop line = false)
       kept
  /\ (forall (before : list str) (opener : str) (inside after : list str),
        lines = before ++ [opener] ++ inside ++ after ->
        CommentFilter.region_line opener = false ->
        CommentFilter.starts start opener = true ->
        Forall (fun line => CommentFilter.switches start stop line = true ->
                            CommentFilter.starts start line = true) inside ->
        kept = CommentFilter.survivors line_marker start stop [] before
               ++ CommentFilter.survivors line_marker start stop
                    (before ++ [opener] ++ inside) after).
Proof.
  intros lines kept. subst kept. split; [|split; [|split]].
  - unfold VBNet._filter_source_tokens_without_comments. fold lines.
    now rewrite <- (filter_lines_survivors line_marker start stop lines []).
  - apply survivors_sublist.
  - apply survivors_not_removed.
  - intros before opener inside after -> Hregion Hstart Hinside.
    rewrite survivors_app. cbn [app]. f_equal.
    assert (Hopen : CommentFilter.block_open start stop (before ++ [opener]) = true).
    { rewrite block_open_snoc. unfold CommentFilter.switches.
      now rewrite Hregion, Hstart. }
    cbn [CommentFilter.survivors].
    unfold CommentFilter.survives at 1. unfold CommentFilter.removed_by_prefix.
    rewrite Hstart, orb_true_r. cbn [negb andb orb app].
    rewrite survivors_app.
    destruct (survivors_in_open_block line_marker start stop inside
                (before ++ [opener]) Hopen Hinside) as [-> _].
    cbn [app]. now rewrite <- !app_assoc.
Qed.

(** C4, at a block comment of C#. *)
Lemma comment_filter_lines_witness :
  CommentFilter.survivors "//" "/*" "*/" []
    (Py.splitlines (Py.join " " ["a"; NL; "/*"; "b"; NL; "c"; NL; "*/"; NL; "d"]))
  = CommentFilter.survivors "//" "/*" "*/" [] ["a "]
    ++ CommentFilter.survivors "//" "/*" "*/" (["a "] ++ [" /* b "] ++ [" c "])
         [" */ "; " d"].
Proof.
  apply (proj2 (proj2 (proj2
           (comment_filter_lines ["a"; NL; "/*"; "b"; NL; "c"; NL; "*/"; NL; "d"]
              "//" "/*" "*/")))
           ["a "] " /* b " [" c "] [" */ "; " d"]).
  - vm_compute. reflexivity.
  - vm_compute. reflexivity.
  - vm_compute. reflexivity.
  - repeat constructor. vm_compute. discriminate.
Defined.

(** C4, the claim as stated fails: a [#Region] line starts with no
    comment marker and lies in no block, and is removed. *)
Lemma region_line_is_removed :
  VBNet._filter_source_tokens_without_comments ["#Region"; "x"; NL; "y"] "'" "''" "''"
  = " y"
  /\ CommentFilter.spec_strip_comments ["#Region"; "x"; NL; "y"] "'" "''" "''"
     = "#Region x " ++ NL ++ " y"
  /\ VBNet._filter_source_tokens_without_comments ["#Region"; "x"; NL; "y"] "'" "''" "''"
     <> CommentFilter.spec_strip_comments ["#Region"; "x"; NL; "y"] "'" "''" "''".
Proof.
  split; [|split].
  - vm_compute. reflexivity.
  - vm_compute. reflexivity.
  - vm_compute. discriminate.
Qed.

(** ** Substring replacement *)

Section ReplaceFacts.

Variables (o : ascii) (old' new : str).

Let old : str := o :: old'.

Lemma replace_go_skip (s : str) :
  forall k : nat, Py.replace_go old new k s = Py.replace_go old new 0 (drop k s).
Proof.
  induction s as [|c s IH]; intros k.
  - now destruct k.
  - destruct k as [|k]; [reflexivity|]. cbn [Py.replace_go drop]. apply IH.
Qed.

Lemma replace_nil : Py.replace old new [] = [].
Proof. reflexivity. Qed.

Lemma replace_match (s : str) :
  Py.startswith s old = true ->
  Py.replace old new s = new ++ Py.replace old new (drop (length old) s).
Proof.
  intros Hs. destruct s as [|c s]; [discriminate|].
  unfold Py.replace, old in *. cbn [Py.replace_go]. rewrite Hs.
  rewrite replace_go_skip.
  replace (length (o :: old') - 1) with (length old') by (cbn [length]; lia).
  reflexivity.
Qed.

Lemma replace_nomatch (c : ascii) (s : str) :
  Py.startswith (c :: s) old = false ->
  Py.replace old new (c :: s) = c :: Py.replace old new s.
Proof.
  intros Hs. unfold Py.replace, old in *. cbn [Py.replace_go]. now rewrite Hs.
Qed.

(** induction along the scan of [replace] *)
Lemma replace_ind (P : str -> str -> Prop) :
  P [] [] ->
  (forall s : str,
      Py.startswith s old = true ->
      P (drop (length old) s) (Py.replace old new (drop (length old) s)) ->
      P s (new ++ Py.replace old new (drop (length old) s))) ->
  (forall (c : ascii) (s : str),
      Py.startswith (c :: s) old = false ->
      P s (Py.replace old new s) ->
      P (c :: s) (c :: Py.replace old new s)) ->
  forall s : str, P s (Py.replace old new s).
Proof.
  intros Hnil Hmatch Hnomatch s.
  remember (length s) as n eqn:Hn. revert s Hn.
  induction n as [n IH] using lt_wf_ind. intros s Hn.
  destruct s as [|c s]; [exact Hnil|].
  destruct (Py.startswith (c :: s) old) eqn:E.
  - rewrite replace_match by assumption. apply Hmatch; [assumption|].
    apply (IH (length (drop (length old) (c :: s)))); [|reflexivity].
    subst n. rewrite length_drop. unfold old. cbn [length]. lia.
  - rewrite replace_nomatch by assumption. apply Hnomatch; [assumption|].
    apply (IH (length s)); [|reflexivity]. subst n. cbn. lia.
Qed.

End ReplaceFacts.

Lemma startswith_app (p s : str) : Py.startswith (p ++ s) p = true.
Proof.
  induction p as [|a p IH]; cbn; [now destruct s|].
  now rewrite Ascii.eqb_refl.
Qed.

Lemma startswith_inv (p s : str) :
  Py.startswith s p = true -> s = p ++ drop (length p) s.
Proof.
  revert s. induction p as [|a p IH]; intros s Hs; [reflexivity|].
  destruct s as [|c s]; [discriminate|].
  cbn in Hs. apply andb_true_iff in Hs as [Hc Hs].
  apply Ascii.eqb_eq in Hc. subst c. cbn [app length drop]. f_equal. now apply IH.
Qed.

Lemma replace_prefix (o : ascii) (old' new s : str) :
  Py.replace (o :: old') new ((o :: old') ++ s)
  = new ++ Py.replace (o :: old') new s.
Proof.
  rewrite replace_match by apply startswith_app. now rewrite drop_app_length.
Qed.

(** a one-character pattern: the replacement works character by character *)
Lemma replace_single (a : ascii) (new s : str) :
  Py.replace [a] new s
  = flat_map (fun c => if Ascii.eqb c a then new else [c]) s.
Proof.
  induction s as [|c s IH]; [reflexivity|].
  cbn [flat_map]. destruct (Ascii.eqb c a) eqn:E.
  - apply Ascii.eqb_eq in E. subst c.
    change (a :: s) with ([a] ++ s).
    rewrite (replace_prefix a [] new s). now rewrite IH.
  - rewrite replace_nomatch by (cbn; now rewrite E). cbn [app]. now rewrite IH.
Qed.

(** ** Occurrences of a character and what follows them *)

Lemma after_each_app (ch : ascii) (ok : str -> bool) (a b : str) :
  after_each ch ok (a ++ b) -> after_each ch ok b.
Proof. induction a as [|c a IH]; cbn; [trivial|]. intros [_ H]. now apply IH. Qed.

Lemma after_each_drop (ch : ascii) (ok : str -> bool) (n : nat) (s : str) :
  after_each ch ok s -> after_each ch ok (drop n s).
Proof.
  intros H. rewrite <- (take_drop n s) in H. now apply after_each_app in H.
Qed.

Lemma after_each_weaken (ch : ascii) (ok ok' : str -> bool) (s : str) :
  (forall r, ok r = true -> ok' r = true) ->
  after_each ch ok s -> after_each ch ok' s.
Proof.
  intros Hok. induction s as [|c s IH]; cbn; [trivial|].
  intros [H1 H2]. split; auto.
Qed.

(** ** The XML token map and the opening angle bracket *)

Section XmlTokenMap.

Let LT : ascii := "<"%char.
Let followed_by_space : str -> bool := fun r => Py.startswith r " ".
Let after_comment_entry : str -> bool :=
  fun r => Py.startswith r " " || Py.startswith r "!-- ".
Let after_dashes_entry : str -> bool :=
  fun r => Py.startswith r " " || Py.startswith r "! ".

(** after the first entry every [<] is followed by a space *)
Lemma xml_open_tag_padded (s : str) :
  after_each LT followed_by_space (Py.replace "<" " < " s).
Proof.
  rewrite replace_single. induction s as [|c s IH]; cbn [flat_map]; [exact I|].
  destruct (Ascii.eqb c "<") eqn:E.
  - cbn. repeat split; try discriminate; try reflexivity. exact IH.
  - cbn. split; [|exact IH].
    intros ->. now rewrite Ascii.eqb_refl in E.
Qed.

(** padding another character keeps it so *)
Lemma xml_pad_other (b : ascii) (s : str) :
  b <> LT -> b <> " "%char ->
  after_each LT followed_by_space s ->
  after_each LT followed_by_space (Py.replace [b] [" "%char; b; " "%char] s).
Proof.
  intros Hlt Hsp. rewrite replace_single.
  induction s as [|c s IH]; cbn [flat_map after_each]; [trivial|].
  intros [Hc Hs]. destruct (Ascii.eqb c b) eqn:E.
  - cbn. repeat split; try discriminate; auto; intros Hb; congruence.
  - cbn. split; [|auto].
    intros ->. specialize (Hc eq_refl). unfold followed_by_space in *.
    destruct s as [|c' s]; [discriminate|].
    cbn in Hc. rewrite andb_true_r in Hc. apply Ascii.eqb_eq in Hc. subst c'.
    cbn [flat_map].
    replace (Ascii.eqb " " b) with false
      by (symmetry; apply Ascii.eqb_neq; congruence).
    reflexivity.
Qed.

(** the comment entry writes [<] itself, followed by [!-- ] *)
Lemma xml_comment_entry (s : str) :
  after_each LT followed_by_space s ->
  after_each LT after_comment_entry (Py.replace "!--" " <!-- " s).
Proof.
  apply (replace_ind "!" "--" " <!-- "
           (fun s out => after_each LT followed_by_space s ->
                         after_each LT after_comment_entry out)).
  - trivial.
  - intros s' Hs' IH Hall.
    specialize (IH (after_each_drop _ _ _ _ Hall)).
    cbn. repeat split; try discriminate; try reflexivity. exact IH.
  - intros c s' Hc IH [Hhead Hall]. split; [|auto].
    intros ->. specialize (Hhead eq_refl). unfold followed_by_space in Hhead.
    destruct s' as [|c' s']; [discriminate|].
    cbn in Hhead. rewrite andb_true_r in Hhead. apply Ascii.eqb_eq in Hhead.
    subst c'. rewrite replace_nomatch by reflexivity. reflexivity.
Qed.

(** the last entry splits the [--] the comment entry wrote *)
Lemma xml_dashes_entry (s : str) :
  after_each LT after_comment_entry s ->
  after_each LT after_dashes_entry (Py.replace "--" " -- " s).
Proof.
  apply (replace_ind "-" "-" " -- "
           (fun s out => after_each LT after_comment_entry s ->
                         after_each LT after_dashes_entry out)).
  - trivial.
  - intros s' Hs' IH Hall.
    specialize (IH (after_each_drop _ _ _ _ Hall)).
    cbn. repeat split; try discriminate. exact IH.
  - intros c s' Hc IH [Hhead Hall]. split; [|auto].
    intros ->. specialize (Hhead eq_refl). unfold after_comment_entry in Hhead.
    apply orb_true_iff in Hhead as [Hsp|Hcomment].
    + apply startswith_inv in Hsp. rewrite Hsp. cbn [app].
      rewrite replace_nomatch by reflexivity. reflexivity.
    + apply startswith_inv in Hcomment. rewrite Hcomment. cbn [app length].
      rewrite replace_nomatch by reflexivity.
      change ("-"%char :: "-"%char :: " "%char :: drop 4 s')
        with ("--" ++ " "%char :: drop 4 s').
      rewrite replace_prefix. reflexivity.
Qed.

Lemma xml_mapping_open_tags (file_content : str) :
  after_each LT after_open_tag
    (ParsingMixin.apply_mapping XML._token_mappings file_content).
Proof.
  unfold ParsingMixin.apply_mapping, XML._token_mappings. cbn [fold_left fst snd].
  apply (after_each_weaken LT after_dashes_entry).
  { intros r Hr. unfold after_dashes_entry in Hr. unfold after_open_tag.
    apply orb_true_iff in Hr as [Hr|Hr]; apply startswith_inv in Hr; rewrite Hr;
      reflexivity. }
  apply xml_dashes_entry, xml_comment_entry.
  apply (xml_pad_other Py.DQ); [discriminate..|].
  apply (xml_pad_other "="); [discriminate..|].
  apply (xml_pad_other "/"); [discriminate..|].
  apply (xml_pad_other ">"); [discriminate..|].
  apply xml_open_tag_padded.
Qed.

(** the run being read, when it starts with [<], is [<] or [<!] and the
    input left lets it end there *)
Let run_bare (cur s : str) : Prop :=
  match cur with
  | [] => True
  | c :: r =>
      c = LT ->
      (r = [] /\ after_open_tag s = true) \/ (r = "!" /\ at_token_end s = true)
  end.

Lemma findall_go_bare (s : str) :
  forall cur : str,
    after_each LT after_open_tag s -> run_bare cur s ->
    Forall bare_open_tag (Py.findall_go cur s).
Proof.
  assert (Hflush : forall cur s', run_bare cur s' ->
                     Forall bare_open_tag (Py.flush cur)).
  { intros [|c r] s' Hrun; cbn; constructor; [|constructor].
    intros Hstart. cbn in Hstart. rewrite andb_true_r in Hstart.
    apply Ascii.eqb_eq in Hstart.
    destruct (Hrun Hstart) as [[-> _]|[-> _]]; subst c; auto. }
  induction s as [|c s IH]; intros cur Hall Hrun; cbn [Py.findall_go].
  - now apply (Hflush cur []).
  - destruct Hall as [Hhead Hall]. destruct (Py.isspace c) eqn:Hsp.
    + apply Forall_app. split; [now apply (Hflush cur (c :: s))|].
      apply Forall_app. split.
      * destruct (Py.is_lf c); constructor; [|constructor].
        intros Hstart. cbn in Hstart. rewrite andb_true_r in Hstart.
        apply Ascii.eqb_eq in Hstart. subst c. discriminate.
      * apply IH; [assumption | exact I].
    + apply IH; [assumption|].
      destruct cur as [|c0 r]; cbn [app run_bare].
      * intros ->. left. split; [reflexivity | now apply Hhead].
      * intros Hc0. destruct (Hrun Hc0) as [[-> Hafter]|[-> Hend]].
        -- right. unfold after_open_tag in Hafter. cbn in Hafter.
           rewrite Hsp in Hafter. cbn in Hafter.
           apply andb_true_iff in Hafter as [Hbang Hend].
           apply Ascii.eqb_eq in Hbang. subst c. split; [reflexivity | assumption].
        -- cbn in Hend. congruence.
Qed.

End XmlTokenMap.

Lemma xml_tokens_bare (file_content : str) :
  Forall bare_open_tag
    (ParsingMixin.preprocess_file_content_and_generate_token_list_by_mapping
       file_content XML._token_mappings).
Proof.
  unfold ParsingMixin.preprocess_file_content_and_generate_token_list_by_mapping,
    Py.findall_tokens.
  apply findall_go_bare; [apply xml_mapping_open_tags | exact I].
Qed.

Lemma tag_names_of_bare (tokens : list str) :
  Forall bare_open_tag tokens ->
  Forall (fun name => name = "" \/ name = "!") (XML.tag_names tokens).
Proof.
  induction 1 as [|token tokens Htoken _ IH]; unfold XML.tag_names;
    cbn [flat_map]; [constructor|].
  apply Forall_app. split; [|exact IH].
  destruct (Py.startswith token XML.OPEN_TAG) eqn:E; [|constructor].
  constructor; [|constructor].
  destruct (Htoken E) as [-> | ->]; [left | right]; reflexivity.
Qed.

Lemma add_tags_read (tokens : list str) (a : loc) :
  forall h : Heap.t,
    Heap.read (XML.add_tags tokens a h) a = Heap.read h a ++ XML.tag_names tokens.
Proof.
  induction tokens as [|token tokens IH]; intros h; unfold XML.tag_names;
    cbn [XML.add_tags flat_map].
  - now rewrite app_nil_r.
  - rewrite IH. unfold XML.tag_names.
    destruct (Py.startswith token XML.OPEN_TAG); cbn [app].
    + now rewrite heap_read_append_eq, <- app_assoc.
    + reflexivity.
Qed.

(** C10, as the code has it. For every input file the tokens that start
    with [<] are the standalone [<] and the [<!] that the comment entry
    of the token map leaves behind; tag extraction appends one entry per
    such token to the import dependencies of the file result, the empty
    string for [<] and [!] for [<!], so no tag name is recorded. *)
Theorem xml_tags_are_never_names (file_content : str) :
  let tokens :=
    ParsingMixin.preprocess_file_content_and_generate_token_list_by_mapping
      file_content XML._token_mappings in
  Forall bare_open_tag tokens
  /\ XML.tag_name_of "<" = ""
  /\ XML.tag_name_of "<!" = "!"
  /\ Forall (fun name => name = "" \/ name = "!") (XML.tag_names tokens)
  /\ length (XML.tag_names tokens)
     = length (List.filter (fun token => Py.startswith token XML.OPEN_TAG) tokens)
  /\ (forall (p : Parser) (analysis : nat) (root file_name full_file_path : str),
        Heap.read
          (heap (XML.generate_file_result_from_analysis p analysis root file_name
                   full_file_path file_content))
          (Heap.next (heap p))
        = XML.tag_names tokens).
Proof.
  intros tokens. split; [apply xml_tokens_bare|].
  split; [reflexivity|]. split; [reflexivity|].
  split; [apply tag_names_of_bare, xml_tokens_bare|]. split.
  - unfold XML.tag_names.
    induction tokens as [|token rest IH]; cbn [flat_map List.filter]; [reflexivity|].
    rewrite length_app, IH. now destruct (Py.startswith token XML.OPEN_TAG).
  - intros p analysis root file_name full_file_path.
    unfold XML.generate_file_result_from_analysis, XML.create_file_result,
      XML._add_tags_to_result.
    cbn [Heap.alloc heap FileResult.scanned_tokens
           FileResult.scanned_import_dependencies].
    rewrite add_tags_read. unfold Heap.read at 1. cbn [Heap.cells].
    now rewrite lookup_insert_eq.
Qed.

(** C10, the claim as stated fails: the tokens of an XML comment include
    [<!], for which tag extraction records the non-empty entry [!]. *)
Lemma xml_comment_records_bang :
  ParsingMixin.preprocess_file_content_and_generate_token_list_by_mapping
    "<!-- x -->" XML._token_mappings
  = ["<"; "<!"; "--"; "x"; "--"; ">"]
  /\ Heap.read
       (heap (XML.generate_file_result_from_analysis empty_parser 0 "/src/"
                "a.xml" "/src/proj/a.xml" "<!-- x -->")) 0
     = [""; "!"]
  /\ ~ Forall (fun name => name = "")
         (Heap.read
            (heap (XML.generate_file_result_from_analysis empty_parser 0 "/src/"
                     "a.xml" "/src/proj/a.xml" "<!-- x -->")) 0).
Proof.
  split; [vm_compute; reflexivity|]. split; [vm_compute; reflexivity|].
  intros Hall.
  assert (E : Heap.read
                (heap (XML.generate_file_result_from_analysis empty_parser 0 "/src/"
                         "a.xml" "/src/proj/a.xml" "<!-- x -->")) 0
              = [""; "!"]) by (vm_compute; reflexivity).
  rewrite E in Hall. apply Forall_cons in Hall as [_ Hall].
  apply Forall_cons in Hall as [Hbang _]. discriminate.
Qed.

(** ** Tokens: runs without whitespace *)

Lemma ws_free_app (a b : str) : ws_free (a ++ b) = ws_free a && ws_free b.
Proof. apply forallb_app. Qed.

Lemma ws_free_cons (c : ascii) (s : str) :
  ws_free (c :: s) = negb (Py.isspace c) && ws_free s.
Proof. reflexivity. Qed.

Lemma flush_cons (c : ascii) (s : str) : Py.flush (c :: s) = [c :: s].
Proof. reflexivity. Qed.

Lemma flush_nonempty (s : str) : s <> [] -> Py.flush s = [s].
Proof. now destruct s. Qed.

(** a run without whitespace is read into the current token *)
Lemma findall_go_run (w : str) :
  forall cur r : str,
    ws_free w = true -> Py.findall_go cur (w ++ r) = Py.findall_go (cur ++ w) r.
Proof.
  induction w as [|c w IH]; intros cur r Hw; cbn [app].
  - now rewrite app_nil_r.
  - rewrite ws_free_cons in Hw. apply andb_true_iff in Hw as [Hc Hw].
    apply negb_true_iff in Hc. cbn [Py.findall_go]. rewrite Hc.
    rewrite IH by assumption. now rewrite <- app_assoc.
Qed.

(** a space ends the current token *)
Lemma findall_go_space (cur r : str) :
  Py.findall_go cur (" "%char :: r) = Py.flush cur ++ Py.findall_go [] r.
Proof. reflexivity. Qed.

(** tokenization splits at a whitespace *)
Lemma findall_go_app_space (a : str) :
  forall (cur : str) (w : ascii) (b : str),
    Py.isspace w = true ->
    Py.findall_go cur (a ++ w :: b)
    = Py.findall_go cur a ++ Py.findall_go [] (w :: b).
Proof.
  induction a as [|c a IH]; intros cur w b Hw; cbn [app Py.findall_go].
  - rewrite Hw. cbn [Py.flush app]. reflexivity.
  - destruct (Py.isspace c).
    + rewrite (IH [] w b Hw). cbn [Py.findall_go]. rewrite Hw.
      now rewrite <- !app_assoc.
    + now apply IH.
Qed.

Lemma tokens_app_space (a b : str) :
  Py.findall_tokens (a ++ " " ++ b) = Py.findall_tokens a ++ Py.findall_tokens b.
Proof.
  unfold Py.findall_tokens. cbn [app].
  rewrite findall_go_app_space by reflexivity. now rewrite findall_go_space.
Qed.

Lemma tokens_valid_token (t : str) :
  valid_token t -> Py.findall_tokens t = [t].
Proof.
  intros [->|[Hne Hws]]; [reflexivity|].
  unfold Py.findall_tokens. rewrite <- (app_nil_r t) at 1.
  rewrite findall_go_run by assumption. cbn. now apply flush_nonempty.
Qed.

Lemma tokens_valid_token_space (t : str) :
  valid_token t -> Py.findall_tokens (t ++ " ") = [t].
Proof.
  intros Ht. change (t ++ " ") with (t ++ " " ++ []).
  rewrite tokens_app_space, tokens_valid_token by assumption. reflexivity.
Qed.

Lemma tokens_space_valid_token_space (t : str) :
  valid_token t -> Py.findall_tokens (" " ++ t ++ " ") = [t].
Proof.
  intros Ht. change (" " ++ t ++ " ") with ([] ++ " " ++ t ++ " ").
  rewrite tokens_app_space. now rewrite tokens_valid_token_space.
Qed.

(** the tokens of any text are valid *)
Lemma findall_go_valid (s : str) :
  forall cur : str,
    ws_free cur = true -> Forall valid_token (Py.findall_go cur s).
Proof.
  assert (Hflush : forall cur, ws_free cur = true -> Forall valid_token (Py.flush cur)).
  { intros [|c r] Hcur; cbn; constructor; [|constructor]. now right. }
  induction s as [|c s IH]; intros cur Hcur; cbn [Py.findall_go].
  - now apply Hflush.
  - destruct (Py.isspace c) eqn:Hc.
    + apply Forall_app. split; [now apply Hflush|]. apply Forall_app. split.
      * destruct (Py.is_lf c) eqn:Hlf; constructor; [|constructor].
        left. apply Ascii.eqb_eq in Hlf. now subst c.
      * now apply IH.
    + apply IH. rewrite ws_free_app, Hcur. cbn. now rewrite Hc.
Qed.

Lemma tokens_valid (s : str) : Forall valid_token (Py.findall_tokens s).
Proof. now apply findall_go_valid. Qed.

(** the tokens of space-joined strings are the tokens of the strings *)
Lemma tokens_join (xs : list str) :
  Py.findall_tokens (Py.join " " xs) = flat_map Py.findall_tokens xs.
Proof.
  induction xs as [|x xs IH]; [reflexivity|].
  destruct xs as [|y xs].
  - cbn. now rewrite app_nil_r.
  - change (Py.join " " (x :: y :: xs)) with (x ++ " " ++ Py.join " " (y :: xs)).
    rewrite tokens_app_space, IH. reflexivity.
Qed.

Lemma tokens_join_valid (ts : list str) :
  Forall valid_token ts -> Py.findall_tokens (Py.join " " ts) = ts.
Proof.
  intros Hts. rewrite tokens_join.
  induction Hts as [|t ts Ht _ IH]; [reflexivity|].
  cbn [flat_map]. now rewrite tokens_valid_token, IH.
Qed.

(** ** Replacement works token by token *)

Lemma startswith_length (o x : str) :
  Py.startswith x o = true -> length o <= length x.
Proof.
  revert x. induction o as [|a o IH]; intros x Hx; cbn; [lia|].
  destruct x as [|c x]; [discriminate|].
  cbn in Hx. apply andb_true_iff in Hx as [_ Hx]. apply IH in Hx. cbn. lia.
Qed.

Lemma startswith_app_l (o x y : str) :
  Py.startswith x o = true -> Py.startswith (x ++ y) o = true.
Proof.
  revert x. induction o as [|a o IH]; intros x Hx; [reflexivity|].
  destruct x as [|c x]; [discriminate|].
  cbn in *. apply andb_true_iff in Hx as [-> Hx]. now apply IH.
Qed.

Lemma startswith_app_ws (o : str) :
  forall (x : str) (w : ascii) (b : str),
    ws_free o = true -> Py.isspace w = true ->
    Py.startswith (x ++ w :: b) o = Py.startswith x o.
Proof.
  induction o as [|a o IH]; intros x w b Ho Hw; [reflexivity|].
  rewrite ws_free_cons in Ho. apply andb_true_iff in Ho as [Ha Ho].
  apply negb_true_iff in Ha.
  destruct x as [|c x]; cbn.
  - replace (Ascii.eqb w a) with false; [reflexivity|].
    symmetry. apply Ascii.eqb_neq. congruence.
  - now rewrite IH.
Qed.

Section ReplaceLocal.

Variables (o : ascii) (old' new : str).
Hypothesis old_ws_free : ws_free (o :: old') = true.

Let R : str -> str := Py.replace (o :: old') new.

Lemma replace_local (a : str) :
  forall (w : ascii) (b : str),
    Py.isspace w = true -> R (a ++ w :: b) = R a ++ w :: R b.
Proof.
  intros w b Hw. unfold R.
  apply (replace_ind o old' new
           (fun a out => Py.replace (o :: old') new (a ++ w :: b)
                         = out ++ w :: Py.replace (o :: old') new b)).
  - cbn [app]. apply replace_nomatch.
    apply (startswith_app_ws (o :: old') [] w b old_ws_free Hw).
  - intros s Hs IH. rewrite (startswith_inv _ _ Hs) at 1.
    rewrite <- app_assoc, replace_prefix, IH. now rewrite <- app_assoc.
  - intros c s Hc IH. cbn [app].
    rewrite replace_nomatch.
    + now rewrite IH.
    + change (c :: s ++ w :: b) with ((c :: s) ++ w :: b).
      now rewrite startswith_app_ws.
Qed.

Lemma replace_whitespace (w : ascii) : Py.isspace w = true -> R [w] = [w].
Proof. intros Hw. apply (replace_local [] w [] Hw). Qed.

(** the tokens after a replacement are those of the replacement in each token *)
Lemma findall_go_replace (s : str) :
  forall cur : str,
    Py.findall_tokens (R (cur ++ s))
    = flat_map (fun t => Py.findall_tokens (R t)) (Py.findall_go cur s).
Proof.
  assert (Hflush : forall cur,
            flat_map (fun t => Py.findall_tokens (R t)) (Py.flush cur)
            = Py.findall_tokens (R cur)).
  { intros [|c r]; cbn; [reflexivity | now rewrite app_nil_r]. }
  induction s as [|c s IH]; intros cur; cbn [Py.findall_go].
  - now rewrite app_nil_r, Hflush.
  - destruct (Py.isspace c) eqn:Hc.
    + rewrite replace_local by assumption.
      unfold Py.findall_tokens at 1.
      rewrite findall_go_app_space by assumption.
      rewrite !flat_map_app, Hflush. f_equal.
      cbn [Py.findall_go]. rewrite Hc. cbn [Py.flush app]. f_equal.
      * destruct (Py.is_lf c) eqn:Hlf; [|reflexivity].
        cbn [flat_map]. rewrite replace_whitespace by assumption.
        unfold Py.findall_tokens. cbn [Py.findall_go]. now rewrite Hc, Hlf.
      * apply (IH []).
    + replace (cur ++ c :: s) with ((cur ++ [c]) ++ s) by now rewrite <- app_assoc.
      apply IH.
Qed.

Lemma tokens_replace (s : str) :
  Py.findall_tokens (R s)
  = flat_map (fun t => Py.findall_tokens (R t)) (Py.findall_tokens s).
Proof. apply (findall_go_replace s []). Qed.

End ReplaceLocal.

(** ** Tokens after the replacement of a padded pattern *)

Section PaddedPattern.

Variables (o : ascii) (old' : str).
Hypothesis old_ws_free : ws_free (o :: old') = true.

Let old : str := o :: old'.

(** no occurrence of the pattern in [cur ++ s] starts within [cur] *)
Let no_start (cur s : str) : Prop :=
  forall k : nat, k < length cur -> Py.startswith (drop k (cur ++ s)) old = false.

Lemma no_start_nil (s : str) : no_start [] s.
Proof. intros k Hk. cbn in Hk. lia. Qed.

Lemma no_start_free (cur s : str) : no_start cur s -> free old cur.
Proof.
  intros Hcur k. destruct (decide (k < length cur)) as [Hk|Hk].
  - destruct (Py.startswith (drop k cur) old) eqn:E; [|reflexivity].
    apply (startswith_app_l old _ s) in E.
    rewrite <- drop_app_le in E by lia. now rewrite Hcur in E.
  - rewrite drop_ge by lia. reflexivity.
Qed.

Lemma no_start_snoc (cur : str) (c : ascii) (s : str) :
  no_start cur (c :: s) -> Py.startswith (c :: s) old = false ->
  no_start (cur ++ [c]) s.
Proof.
  intros Hcur Hc k Hk. rewrite length_app in Hk. cbn in Hk.
  rewrite <- app_assoc. cbn [app].
  destruct (decide (k < length cur)) as [Hlt|Hge]; [now apply Hcur|].
  replace k with (length cur + 0) by lia. now rewrite drop_app_add.
Qed.

Lemma free_whitespace (w : ascii) : Py.isspace w = true -> free old [w].
Proof.
  intros Hw k. destruct k as [|k]; [|now rewrite drop_ge by (cbn; lia)].
  apply (startswith_app_ws old [] w [] old_ws_free Hw).
Qed.

Lemma free_cons (c : ascii) (t : str) : free old (c :: t) -> free old t.
Proof. intros H k. apply (H (S k)). Qed.

Lemma replace_free (new t : str) : free old t -> Py.replace old new t = t.
Proof.
  apply (replace_ind o old' new (fun t out => free old t -> out = t)).
  - reflexivity.
  - intros s Hs _ Hfree. specialize (Hfree 0). rewrite drop_0 in Hfree.
    unfold old in Hfree. congruence.
  - intros c s _ IH Hfree. f_equal. apply IH. now apply free_cons in Hfree.
Qed.

Lemma flush_free (cur s : str) :
  no_start cur s -> Forall (fun t => t = old \/ free old t) (Py.flush cur).
Proof.
  intros Hcur. destruct cur as [|c r]; cbn; constructor; [|constructor].
  right. now apply (no_start_free _ s).
Qed.

(** the tokens after a both-sided padding: the pattern, or tokens
    without it *)
Lemma pieces_both (s : str) :
  forall cur : str,
    no_start cur s ->
    Forall (fun t => t = old \/ free old t)
      (Py.findall_go cur (Py.replace old (" " ++ old ++ " ") s)).
Proof.
  apply (replace_ind o old' (" " ++ old ++ " ")
           (fun s out => forall cur, no_start cur s ->
                         Forall (fun t => t = old \/ free old t)
                           (Py.findall_go cur out))).
  - intros cur Hcur. cbn [Py.findall_go]. now apply (flush_free cur []).
  - intros s' Hs IH cur Hcur.
    match goal with
    | |- context [(" " ++ old ++ " ") ++ ?rest] =>
        replace ((" " ++ old ++ " ") ++ rest)
          with (" "%char :: old ++ " "%char :: rest)
          by (cbn [app]; now rewrite <- app_assoc)
    end.
    rewrite findall_go_space, findall_go_run by exact old_ws_free.
    rewrite findall_go_space. cbn [app]. unfold old at 3. rewrite flush_cons.
    apply Forall_app. split; [now apply (flush_free cur s')|].
    constructor; [now left|]. apply IH, no_start_nil.
  - intros c s' Hc IH cur Hcur. cbn [Py.findall_go].
    destruct (Py.isspace c) eqn:Hsp.
    + apply Forall_app. split; [now apply (flush_free cur (c :: s'))|].
      apply Forall_app. split.
      * destruct (Py.is_lf c); constructor; [|constructor].
        right. now apply free_whitespace.
      * apply IH, no_start_nil.
    + apply IH. now apply no_start_snoc.
Qed.

Lemma flush_only_at_end (cur s : str) :
  no_start cur s -> Forall (only_at_end old) (Py.flush cur).
Proof.
  intros Hcur. destruct cur as [|c r]; cbn; constructor; [|constructor].
  intros k Hk. now rewrite (no_start_free _ s Hcur k) in Hk.
Qed.

(** the tokens after a padding on the right have the pattern at their
    end only *)
Lemma pieces_right (s : str) :
  forall cur : str,
    no_start cur s ->
    Forall (only_at_end old)
      (Py.findall_go cur (Py.replace old (old ++ " ") s)).
Proof.
  apply (replace_ind o old' (old ++ " ")
           (fun s out => forall cur, no_start cur s ->
                         Forall (only_at_end old) (Py.findall_go cur out))).
  - intros cur Hcur. cbn [Py.findall_go]. now apply (flush_only_at_end cur []).
  - intros s' Hs IH cur Hcur.
    match goal with
    | |- context [(old ++ " ") ++ ?rest] =>
        replace ((old ++ " ") ++ rest) with (old ++ " "%char :: rest)
          by now rewrite <- app_assoc
    end.
    rewrite findall_go_run by exact old_ws_free. rewrite findall_go_space.
    rewrite flush_nonempty by (unfold old; now destruct cur).
    constructor; [|apply IH, no_start_nil].
    intros k Hk. rewrite length_app.
    destruct (decide (k < length cur)) as [Hlt|Hge].
    + exfalso. rewrite drop_app_le in Hk by lia.
      apply (startswith_app_l old _ (drop (length old) s')) in Hk.
      pose proof (startswith_inv _ _ Hs) as Hsplit. fold old in Hsplit.
      rewrite <- app_assoc, <- Hsplit in Hk.
      rewrite <- drop_app_le in Hk by lia. now rewrite Hcur in Hk.
    + replace k with (length cur + (k - length cur)) in Hk by lia.
      rewrite drop_app_add in Hk. apply startswith_length in Hk.
      rewrite length_drop in Hk. unfold old in *. cbn [length] in *. lia.
  - intros c s' Hc IH cur Hcur. cbn [Py.findall_go].
    destruct (Py.isspace c) eqn:Hsp.
    + apply Forall_app. split; [now apply (flush_only_at_end cur (c :: s'))|].
      apply Forall_app. split.
      * destruct (Py.is_lf c); constructor; [|constructor].
        intros k Hk. now rewrite (free_whitespace c Hsp k) in Hk.
      * apply IH, no_start_nil.
    + apply IH. now apply no_start_snoc.
Qed.

End PaddedPattern.

Section PaddedPatternTokens.

Variables (o : ascii) (old' : str).
Hypothesis old_ws_free : ws_free (o :: old') = true.

Let old : str := o :: old'.

Lemma old_valid_token : valid_token old.
Proof. right. split; [discriminate | exact old_ws_free]. Qed.

(** the tokens after a padding are runs of the text before it *)
Lemma pieces_run_of (pre : str) (s : str) :
  pre = [] \/ pre = " " ->
  forall cur before : str,
    Forall (fun t => run_of t (before ++ cur ++ s))
      (Py.findall_go cur (Py.replace old (pre ++ old ++ " ") s)).
Proof.
  intros Hpre.
  assert (Hflush : forall cur before rest,
            Forall (fun t => run_of t (before ++ cur ++ rest)) (Py.flush cur)).
  { intros [|c r] before rest; cbn [Py.flush]; constructor; [|constructor].
    now exists before, rest. }
  apply (replace_ind o old' (pre ++ old ++ " ")
           (fun s out => forall cur before,
                Forall (fun t => run_of t (before ++ cur ++ s))
                  (Py.findall_go cur out))).
  - intros cur before. cbn [Py.findall_go]. apply Hflush.
  - intros s' Hs IH cur before.
    pose proof (startswith_inv _ _ Hs) as Hsplit. fold old in Hsplit, IH.
    set (rest := drop (length old) s') in *.
    assert (Hrest : Forall (fun t => run_of t (before ++ cur ++ s'))
                      (Py.findall_go [] (Py.replace old (pre ++ old ++ " ") rest))).
    { eapply Forall_impl; [apply (IH [] (before ++ cur ++ old))|].
      intros t Ht. cbn beta in Ht. rewrite Hsplit.
      now rewrite <- !app_assoc in Ht. }
    destruct Hpre as [-> | ->].
    + cbn [app]. rewrite <- app_assoc. cbn [app].
      rewrite findall_go_run by exact old_ws_free. rewrite findall_go_space.
      rewrite flush_nonempty by (unfold old; now destruct cur).
      constructor; [|exact Hrest].
      exists before, rest. rewrite Hsplit at 1. now rewrite <- app_assoc.
    + match goal with
      | |- context [(" " ++ old ++ " ") ++ ?r] =>
          replace ((" " ++ old ++ " ") ++ r) with (" "%char :: old ++ " "%char :: r)
            by (cbn [app]; now rewrite <- app_assoc)
      end.
      rewrite findall_go_space, findall_go_run by exact old_ws_free.
      rewrite findall_go_space. change (Py.flush ([] ++ old)) with [old].
      apply Forall_app. split; [apply Hflush|].
      constructor; [|exact Hrest].
      exists (before ++ cur), rest. rewrite Hsplit at 1. now rewrite <- !app_assoc.
  - intros c s' Hc IH cur before. cbn [Py.findall_go].
    destruct (Py.isspace c) eqn:Hsp.
    + apply Forall_app. split; [apply Hflush|].
      apply Forall_app. split.
      * destruct (Py.is_lf c); constructor; [|constructor].
        exists (before ++ cur), s'. now rewrite <- app_assoc.
      * eapply Forall_impl; [apply (IH [] (before ++ cur ++ [c]))|].
        intros t Ht. cbn beta in Ht. now rewrite <- !app_assoc in Ht.
    + eapply Forall_impl; [apply (IH (cur ++ [c]) before)|].
      intros t Ht. cbn beta in Ht. now rewrite <- !app_assoc in Ht.
Qed.

Lemma free_run_of (u t : str) : free old t -> run_of u t -> free old u.
Proof.
  intros Hfree (a & b & ->) k.
  destruct (Py.startswith (drop k u) old) eqn:E; [|reflexivity].
  destruct (decide (k <= length u)) as [Hk|Hk].
  - apply (startswith_app_l old _ b) in E.
    rewrite <- drop_app_le in E by assumption.
    rewrite <- (drop_app_add a) in E. now rewrite Hfree in E.
  - rewrite drop_ge in E by lia. discriminate.
Qed.

Lemma only_at_end_run_of (u t : str) :
  only_at_end old t -> run_of u t -> only_at_end old u.
Proof.
  intros Hend (a & b & ->) k Hk.
  destruct (decide (k <= length u)) as [Hle|Hgt];
    [|rewrite drop_ge in Hk by lia; discriminate].
  pose proof (startswith_length _ _ Hk) as Hlen. rewrite length_drop in Hlen.
  apply (startswith_app_l old _ b) in Hk.
  rewrite <- drop_app_le in Hk by assumption.
  rewrite <- (drop_app_add a) in Hk. apply Hend in Hk.
  rewrite !length_app in Hk. lia.
Qed.

Lemma both_run_of (u t : str) :
  t = old \/ free old t -> run_of u t -> u = old \/ free old u.
Proof.
  intros [->|Hfree] Hrun; [|right; now apply (free_run_of u t)].
  destruct Hrun as (a & b & Hsplit).
  destruct a as [|c a]; [destruct b as [|c b]|].
  - left. rewrite app_nil_r in Hsplit. now cbn in Hsplit.
  - right. intros k.
    destruct (Py.startswith (drop k u) old) eqn:E; [|reflexivity].
    apply startswith_length in E. rewrite length_drop in E.
    apply (f_equal length) in Hsplit. rewrite !length_app in Hsplit.
    cbn [length] in Hsplit. lia.
  - right. intros k.
    destruct (Py.startswith (drop k u) old) eqn:E; [|reflexivity].
    apply startswith_length in E. rewrite length_drop in E.
    apply (f_equal length) in Hsplit. rewrite !length_app in Hsplit.
    cbn [length] in Hsplit. lia.
Qed.

(** a token with the pattern at its end only gets at most a space
    appended *)
Lemma replace_only_at_end (t : str) :
  only_at_end old t ->
  Py.replace old (old ++ " ") t = t \/ Py.replace old (old ++ " ") t = t ++ " ".
Proof.
  apply (replace_ind o old' (old ++ " ")
           (fun t out => only_at_end old t -> out = t \/ out = t ++ " ")).
  - now left.
  - intros s Hs _ Hend. right.
    pose proof (startswith_inv _ _ Hs) as Hsplit. fold old in Hsplit.
    specialize (Hend 0). rewrite drop_0 in Hend. specialize (Hend Hs).
    assert (Hnil : drop (length old) s = []).
    { apply length_zero_iff_nil. rewrite length_drop. fold old. lia. }
    change (drop (length (o :: old')) s) with (drop (length old) s).
    rewrite Hnil in *. rewrite replace_nil, app_nil_r.
    rewrite app_nil_r in Hsplit. now rewrite <- Hsplit.
  - intros c s _ IH Hend.
    assert (Hend' : only_at_end old s).
    { intros k Hk. specialize (Hend (S k) Hk). cbn [length] in Hend. lia. }
    destruct (IH Hend') as [-> | ->]; [now left | now right].
Qed.

Lemma settled_both_tokens (t : str) :
  t = old \/ free old t -> valid_token t ->
  Py.findall_tokens (Py.replace old (" " ++ old ++ " ") t) = [t].
Proof.
  intros [->|Hfree] Hvalid.
  - pose proof (replace_prefix o old' (" " ++ old ++ " ") []) as E.
    rewrite replace_nil, !app_nil_r in E. unfold old in *. rewrite E.
    now apply tokens_space_valid_token_space.
  - unfold old in *. rewrite replace_free by assumption.
    now apply tokens_valid_token.
Qed.

Lemma settled_right_tokens (t : str) :
  only_at_end old t -> valid_token t ->
  Py.findall_tokens (Py.replace old (old ++ " ") t) = [t].
Proof.
  intros Hend Hvalid. destruct (replace_only_at_end t Hend) as [-> | ->].
  - now apply tokens_valid_token.
  - now apply tokens_valid_token_space.
Qed.

End PaddedPatternTokens.

(** ** Padding entries and the tokens they leave alone *)

Lemma pads_inv (old new : str) :
  pads (old, new) = true ->
  exists (o : ascii) (old' : str),
    old = o :: old' /\ ws_free (o :: old') = true
    /\ ((pads_both (old, new) = true /\ new = " " ++ old ++ " ")
        \/ (pads_both (old, new) = false /\ new = old ++ " ")).
Proof.
  unfold pads. cbn [fst snd]. intros H.
  apply andb_true_iff in H as [H Hkind]. apply andb_true_iff in H as [Hne Hws].
  destruct old as [|o old']; [discriminate|].
  exists o, old'. split; [reflexivity|]. split; [assumption|].
  unfold pads_both, pads_right in *. cbn [fst snd] in *.
  apply orb_true_iff in Hkind.
  destruct (Py.str_eqb new (" " ++ (o :: old') ++ " ")) eqn:Hboth.
  - left. split; [reflexivity|]. now apply str_eqb_eq in Hboth.
  - right. split; [reflexivity|]. destruct Hkind as [Hkind|Hkind]; [discriminate|].
    now apply str_eqb_eq in Hkind.
Qed.

Section PaddingEntry.

Variables (old new : str).
Hypothesis entry_pads : pads (old, new) = true.

Let R : str -> str := Py.replace old new.

Lemma entry_tokens_replace (s : str) :
  Py.findall_tokens (R s)
  = flat_map (fun t => Py.findall_tokens (R t)) (Py.findall_tokens s).
Proof.
  destruct (pads_inv old new entry_pads) as (o & old' & Hold & Hws & _).
  unfold R. subst old. now apply tokens_replace.
Qed.

Lemma entry_settles (s : str) :
  Forall (settled (old, new)) (Py.findall_tokens (R s)).
Proof.
  destruct (pads_inv old new entry_pads)
    as (o & old' & Hold & Hws & [[Hboth ->]|[Hboth ->]]);
    unfold R, settled; rewrite Hboth; cbn [fst]; subst old.
  - apply (pieces_both o old' Hws s []). intros k Hk. cbn in Hk. lia.
  - apply (pieces_right o old' Hws s []). intros k Hk. cbn in Hk. lia.
Qed.

Lemma entry_runs (t : str) :
  Forall (fun u => run_of u t) (Py.findall_tokens (R t)).
Proof.
  destruct (pads_inv old new entry_pads)
    as (o & old' & Hold & Hws & [[_ ->]|[_ ->]]); unfold R; subst old.
  - apply (pieces_run_of o old' Hws " " t (or_intror eq_refl) [] []).
  - apply (pieces_run_of o old' Hws [] t (or_introl eq_refl) [] []).
Qed.

Lemma entry_settled_tokens (t : str) :
  settled (old, new) t -> valid_token t -> Py.findall_tokens (R t) = [t].
Proof.
  destruct (pads_inv old new entry_pads)
    as (o & old' & Hold & Hws & [[Hboth ->]|[Hboth ->]]);
    unfold R, settled; rewrite Hboth; cbn [fst]; subst old.
  - now apply settled_both_tokens.
  - now apply settled_right_tokens.
Qed.

Lemma settled_run_of (u t : str) :
  settled (old, new) t -> run_of u t -> settled (old, new) u.
Proof.
  destruct (pads_inv old new entry_pads)
    as (o & old' & Hold & Hws & [[Hboth _]|[Hboth _]]);
    unfold settled; rewrite Hboth; cbn [fst]; subst old.
  - apply both_run_of.
  - apply only_at_end_run_of.
Qed.

End PaddingEntry.

Lemma flat_map_singletons {A} (g : A -> list A) (l : list A) :
  Forall (fun x => g x = [x]) l -> flat_map g l = l.
Proof.
  induction 1 as [|x l Hx _ IH]; [reflexivity|].
  cbn [flat_map]. now rewrite Hx, IH.
Qed.

Lemma apply_mapping_snoc (mapping : list (str * str)) (entry : str * str) (s : str) :
  ParsingMixin.apply_mapping (mapping ++ [entry]) s
  = Py.replace (fst entry) (snd entry) (ParsingMixin.apply_mapping mapping s).
Proof. unfold ParsingMixin.apply_mapping. now rewrite fold_left_app. Qed.

(** after a table of padding entries every token is settled for every
    entry of the table *)
Lemma mapping_settles (mapping : list (str * str)) :
  forallb pads mapping = true ->
  forall s : str,
    Forall (fun t => Forall (fun entry => settled entry t) mapping)
      (Py.findall_tokens (ParsingMixin.apply_mapping mapping s)).
Proof.
  induction mapping as [|[old new] mapping IH] using rev_ind; intros Hpads s.
  - apply Forall_forall. intros t _. constructor.
  - rewrite forallb_app in Hpads. apply andb_true_iff in Hpads as [Hpads Hentry].
    cbn in Hentry. rewrite andb_true_r in Hentry.
    rewrite apply_mapping_snoc. cbn [fst snd].
    set (before := ParsingMixin.apply_mapping mapping s).
    apply Forall_forall. intros t Ht. apply Forall_app. split.
    + rewrite (entry_tokens_replace old new Hentry) in Ht.
      apply list_elem_of_In, in_flat_map in Ht as (t0 & Ht0 & Ht).
      pose proof (IH Hpads s) as Hsettled. fold before in Hsettled.
      rewrite Forall_forall in Hsettled.
      specialize (Hsettled t0 ltac:(now apply list_elem_of_In)).
      pose proof (entry_runs old new Hentry t0) as Hruns.
      rewrite Forall_forall in Hruns.
      specialize (Hruns t ltac:(now apply list_elem_of_In)).
      rewrite forallb_forall in Hpads.
      apply Forall_forall. intros [old1 new1] Hin.
      rewrite Forall_forall in Hsettled.
      apply (settled_run_of old1 new1
               (Hpads (old1, new1) ltac:(now apply list_elem_of_In)) t t0);
        [now apply Hsettled | assumption].
    + constructor; [|constructor].
      pose proof (entry_settles old new Hentry before) as Hall.
      rewrite Forall_forall in Hall. now apply Hall.
Qed.

(** a table of padding entries leaves the tokens of a text alone when
    they are settled for its entries *)
Lemma mapping_stable (mapping : list (str * str)) :
  forallb pads mapping = true ->
  forall s : str,
    Forall (fun t => Forall (fun entry => settled entry t) mapping)
      (Py.findall_tokens s) ->
    Py.findall_tokens (ParsingMixin.apply_mapping mapping s) = Py.findall_tokens s.
Proof.
  induction mapping as [|[old new] mapping IH]; intros Hpads s Hsettled;
    [reflexivity|].
  cbn in Hpads. apply andb_true_iff in Hpads as [Hentry Hpads].
  change (ParsingMixin.apply_mapping ((old, new) :: mapping) s)
    with (ParsingMixin.apply_mapping mapping (Py.replace old new s)).
  assert (Hsame : Py.findall_tokens (Py.replace old new s) = Py.findall_tokens s).
  { rewrite (entry_tokens_replace old new Hentry).
    apply flat_map_singletons.
    pose proof (tokens_valid s) as Hvalid.
    rewrite Forall_forall in *. intros t Ht.
    apply (entry_settled_tokens old new Hentry); [|now apply Hvalid].
    specialize (Hsettled t Ht). now apply Forall_cons in Hsettled as [Hs _]. }
  rewrite IH; [assumption | assumption |].
  rewrite Hsame. eapply Forall_impl; [exact Hsettled|].
  intros t Ht. cbn beta in Ht. now apply Forall_cons in Ht as [_ Ht].
Qed.

Lemma padding_normalization_idempotent (mapping : list (str * str)) (text : str) :
  forallb pads mapping = true ->
  renormalize mapping text = normalize mapping text.
Proof.
  intros Hpads. unfold renormalize, normalize,
    ParsingMixin.preprocess_file_content_and_generate_token_list_by_mapping.
  set (tokens := Py.findall_tokens (ParsingMixin.apply_mapping mapping text)).
  assert (Hjoin : Py.findall_tokens (Py.join " " tokens) = tokens)
    by apply tokens_join_valid, tokens_valid.
  rewrite mapping_stable; [assumption | assumption |].
  rewrite Hjoin. now apply mapping_settles.
Qed.

(** C6, as the code has it. Normalization is idempotent on normalized
    output for every token map whose entries only insert spaces next to
    a pattern without whitespace (a space on both sides, or on the
    right): these are the maps of the VB.NET, C#, CSS, SCSS, Twig and
    JSON parsers. The XML map is not of this kind: its comment entry
    writes a [<] of its own. *)
Theorem normalization_idempotent :
  (forall (mapping_dict : list (str * str)) (text : str),
      forallb pads mapping_dict = true ->
      renormalize mapping_dict text = normalize mapping_dict text)
  /\ (forall text : str,
        renormalize VBNet._token_mappings text = normalize VBNet._token_mappings text)
  /\ (forall text : str,
        renormalize CSharp._token_mappings text = normalize CSharp._token_mappings text)
  /\ (forall text : str,
        renormalize CSS._token_mappings text = normalize CSS._token_mappings text)
  /\ (forall text : str,
        renormalize SCSS._token_mappings text = normalize SCSS._token_mappings text)
  /\ (forall text : str,
        renormalize Twig._token_mappings text = normalize Twig._token_mappings text)
  /\ (forall text : str,
        renormalize JSON._token_mappings text = normalize JSON._token_mappings text)
  /\ forallb pads XML._token_mappings = false.
Proof.
  split; [exact padding_normalization_idempotent|].
  repeat (split; [intros text; apply padding_normalization_idempotent; reflexivity|]).
  reflexivity.
Qed.

(** C6, the claim as stated fails for the XML token map: normalizing
    the space-joined tokens of an XML comment splits [<!] again. *)
Lemma xml_normalization_not_idempotent :
  normalize XML._token_mappings "<!-- x -->" = ["<"; "<!"; "--"; "x"; "--"; ">"]
  /\ renormalize XML._token_mappings "<!-- x -->"
     = ["<"; "<"; "!"; "--"; "x"; "--"; ">"]
  /\ renormalize XML._token_mappings "<!-- x -->"
     <> normalize XML._token_mappings "<!-- x -->".
Proof.
  split; [vm_compute; reflexivity|]. split; [vm_compute; reflexivity|].
  vm_compute. discriminate.
Qed.

(** C6, at the CSS map and a text with a comment and an import. *)
Lemma normalization_idempotent_witness :
  renormalize CSS._token_mappings "/*x*/@import'a.css';b{c:d}"
  = normalize CSS._token_mappings "/*x*/@import'a.css';b{c:d}".
Proof.
  apply (proj1 normalization_idempotent CSS._token_mappings). reflexivity.
Defined.

(** ** Trimming and splitting *)

Lemma lstrip_nonspace (c : ascii) (s : str) :
  Py.isspace c = false -> Py.lstrip (c :: s) = c :: s.
Proof. intros H. cbn [Py.lstrip]. now rewrite H. Qed.

Lemma lstrip_app_nonspace (a : str) (c : ascii) (b : str) :
  Py.isspace c = false -> Py.lstrip (a ++ c :: b) = Py.lstrip a ++ c :: b.
Proof.
  intros H. induction a as [|x a IH]; cbn [Py.lstrip app].
  - now rewrite H.
  - destruct (Py.isspace x); [exact IH | reflexivity].
Qed.

Lemma ws_free_rev (s : str) : ws_free (rev s) = ws_free s.
Proof.
  induction s as [|c s IH]; [reflexivity|].
  cbn [rev]. rewrite ws_free_app, IH, !ws_free_cons. cbn [ws_free forallb].
  now rewrite andb_true_r, andb_comm.
Qed.

Lemma lstrip_ws_free (s : str) : ws_free s = true -> Py.lstrip s = s.
Proof.
  destruct s as [|c s]; [reflexivity|]. rewrite ws_free_cons.
  intros [Hc _]%andb_true_iff. apply lstrip_nonspace.
  now destruct (Py.isspace c).
Qed.

Lemma strip_ws_free (s : str) : ws_free s = true -> Py.strip s = s.
Proof.
  intros H. unfold Py.strip. rewrite (lstrip_ws_free s H).
  rewrite lstrip_ws_free by now rewrite ws_free_rev.
  apply rev_involutive.
Qed.

(** trimming a string that starts with a word: the word stays, what
    follows it is trimmed on the right *)
Lemma strip_word_app (w x : str) :
  w <> [] -> ws_free w = true ->
  Py.strip (w ++ x) = w ++ rev (Py.lstrip (rev x)).
Proof.
  intros Hne Hw. unfold Py.strip.
  destruct w as [|c w]; [done|].
  assert (Hc : Py.isspace c = false).
  { rewrite ws_free_cons in Hw. apply andb_true_iff in Hw as [Hc _].
    now destruct (Py.isspace c). }
  change ((c :: w) ++ x) with (c :: (w ++ x)).
  rewrite (lstrip_nonspace c (w ++ x) Hc).
  change (c :: w ++ x) with ((c :: w) ++ x).
  rewrite rev_app_distr.
  destruct (rev (c :: w)) as [|d r] eqn:Hrev.
  { apply (f_equal (@length _)) in Hrev. rewrite length_rev in Hrev. discriminate. }
  assert (Hd : Py.isspace d = false).
  { assert (Hr : ws_free (d :: r) = true) by now rewrite <- Hrev, ws_free_rev.
    rewrite ws_free_cons in Hr. apply andb_true_iff in Hr as [Hd _].
    now destruct (Py.isspace d). }
  rewrite (lstrip_app_nonspace _ d r Hd), rev_app_distr, <- Hrev, rev_involutive.
  reflexivity.
Qed.

(** what trimming on the right leaves is a prefix *)
Lemma lstrip_suffix (s : str) : exists t : str, s = t ++ Py.lstrip s.
Proof.
  induction s as [|c s [t IH]]; [now exists []|].
  cbn [Py.lstrip]. destruct (Py.isspace c).
  - exists (c :: t). cbn [app]. now f_equal.
  - now exists [].
Qed.

Lemma rstrip_prefix (s : str) : exists t : str, s = rev (Py.lstrip (rev s)) ++ t.
Proof.
  destruct (lstrip_suffix (rev s)) as [t Ht].
  exists (rev t). rewrite <- rev_app_distr, <- Ht. now rewrite rev_involutive.
Qed.

Section Split.

Variable sep : ascii.

(** [sep] does not occur in [s] *)
Let without (s : str) : Prop := Forall (fun c => c <> sep) s.

Lemma split_go_without (a : str) :
  forall cur s : str,
    without a -> Py.split_go sep cur (a ++ s) = Py.split_go sep (cur ++ a) s.
Proof.
  induction a as [|c a IH]; intros cur s Ha; cbn [app].
  - now rewrite app_nil_r.
  - inversion Ha as [|? ? Hc Ha']; subst. cbn [Py.split_go].
    destruct (Ascii.eqb_spec c sep) as [->|_]; [done|].
    rewrite IH by assumption. now rewrite <- app_assoc.
Qed.

Lemma split_without (a : str) : without a -> Py.split sep a = [a].
Proof.
  intros Ha. unfold Py.split.
  pose proof (split_go_without a [] [] Ha) as H.
  rewrite app_nil_r in H. rewrite H. reflexivity.
Qed.

Lemma split_at_sep (a b : str) :
  without a -> Py.split sep (a ++ sep :: b) = a :: Py.split sep b.
Proof.
  intros Ha. unfold Py.split. rewrite split_go_without by assumption.
  cbn [Py.split_go app]. now rewrite Ascii.eqb_refl.
Qed.

(** the first piece of a split: the string up to its first separator *)
Lemma split_first (s : str) :
  exists a : str,
    without a /\ nth 0 (Py.split sep s) [] = a
    /\ (s = a \/ exists b : str, s = a ++ sep :: b).
Proof.
  induction s as [|c s (a & Ha & Hn & Hs)].
  - exists []. repeat split; [constructor | now left].
  - destruct (Ascii.eqb_spec c sep) as [->|Hc].
    + exists []. split; [constructor|]. split.
      * unfold Py.split. cbn [Py.split_go]. now rewrite Ascii.eqb_refl.
      * right. now exists s.
    + exists (c :: a). split; [now constructor|]. split.
      * destruct Hs as [->|[b ->]].
        -- now rewrite split_without by now constructor.
        -- change (c :: a ++ sep :: b) with ((c :: a) ++ sep :: b).
           now rewrite split_at_sep by now constructor.
      * destruct Hs as [->|[b ->]]; [now left | right; now exists b].
Qed.

Lemma split_go_nonempty (s : str) : forall cur, Py.split_go sep cur s <> [].
Proof.
  induction s as [|c s IH]; intros cur; cbn [Py.split_go]; [done|].
  destruct (Ascii.eqb c sep); [done | apply IH].
Qed.

Lemma join_cons (x : str) (l : list str) :
  l <> [] -> Py.join [sep] (x :: l) = x ++ [sep] ++ Py.join [sep] l.
Proof. destruct l; [done | reflexivity]. Qed.

Lemma join_split_go (s : str) :
  forall cur : str, Py.join [sep] (Py.split_go sep cur s) = cur ++ s.
Proof.
  induction s as [|c s IH]; intros cur; cbn [Py.split_go].
  - cbn. now rewrite app_nil_r.
  - destruct (Ascii.eqb_spec c sep) as [->|_].
    + rewrite join_cons by apply split_go_nonempty. now rewrite IH.
    + rewrite IH. now rewrite <- app_assoc.
Qed.

Lemma split_go_pieces (s : str) :
  forall cur : str, without cur -> Forall without (Py.split_go sep cur s).
Proof.
  induction s as [|c s IH]; intros cur Hcur; cbn [Py.split_go].
  - now constructor.
  - destruct (Ascii.eqb_spec c sep) as [->|Hc].
    + constructor; [assumption | apply IH; constructor].
    + apply IH. apply Forall_app. split; [assumption | now repeat constructor].
Qed.

Lemma split_go_length (s : str) :
  forall cur : str,
    length (Py.split_go sep cur s) = S (length (List.filter (fun c => Ascii.eqb c sep) s)).
Proof.
  induction s as [|c s IH]; intros cur; cbn [Py.split_go List.filter]; [reflexivity|].
  destruct (Ascii.eqb c sep); cbn [length]; now rewrite IH.
Qed.

End Split.

Lemma join_cons_cons (sep x y : str) (l : list str) :
  Py.join sep (x :: y :: l) = x ++ sep ++ Py.join sep (y :: l).
Proof. reflexivity. Qed.

(** ** The statement after a keyword *)

Lemma ws_free_without (sep : ascii) (s : str) :
  Py.isspace sep = true -> ws_free s = true -> Forall (fun c => c <> sep) s.
Proof.
  intros Hsep. induction s as [|c s IH]; [constructor|].
  rewrite ws_free_cons. intros [Hc Hs]%andb_true_iff. constructor; [|now apply IH].
  intros ->. now rewrite Hsep in Hc.
Qed.

Lemma split_go_first (sep : ascii) (s : str) :
  forall cur : str,
    nth 0 (Py.split_go sep cur s) [] = cur ++ nth 0 (Py.split_go sep [] s) [].
Proof.
  induction s as [|c s IH]; intros cur; cbn [Py.split_go].
  - cbn. now rewrite app_nil_r.
  - destruct (Ascii.eqb c sep).
    + cbn. now rewrite app_nil_r.
    + rewrite (IH (cur ++ [c])), (IH ([] ++ [c])). now rewrite <- app_assoc.
Qed.

Lemma split_first_app (sep : ascii) (u s : str) :
  Forall (fun c => c <> sep) u ->
  nth 0 (Py.split sep (u ++ s)) [] = u ++ nth 0 (Py.split sep s) [].
Proof.
  intros Hu. unfold Py.split. rewrite split_go_without by assumption.
  apply split_go_first.
Qed.

Lemma rstrip_after_word (u w a : str) :
  w <> [] -> ws_free w = true ->
  rev (Py.lstrip (rev (u ++ w ++ a))) = u ++ w ++ rev (Py.lstrip (rev a)).
Proof.
  intros Hne Hw. rewrite !rev_app_distr.
  destruct (rev w) as [|d r] eqn:Hrev.
  { apply (f_equal (@length _)) in Hrev. rewrite length_rev in Hrev.
    destruct w; [done | discriminate]. }
  assert (Hd : Py.isspace d = false).
  { assert (Hr : ws_free (d :: r) = true) by now rewrite <- Hrev, ws_free_rev.
    rewrite ws_free_cons in Hr. apply andb_true_iff in Hr as [Hd _].
    now destruct (Py.isspace d). }
  rewrite <- app_assoc. cbn [app].
  rewrite (lstrip_app_nonspace _ d _ Hd), rev_app_distr.
  change (d :: r ++ rev u) with ((d :: r) ++ rev u).
  rewrite rev_app_distr, rev_involutive, <- Hrev, rev_involutive.
  now rewrite <- app_assoc.
Qed.

(** a space-joined list is empty or goes on with a space after its
    first element *)
Lemma join_space_cons (x : str) (l : list str) :
  exists rest : str,
    Py.join " " (x :: l) = x ++ rest /\ (rest = [] \/ exists r, rest = " " ++ r).
Proof.
  destruct l as [|y l].
  - exists []. split; [cbn; now rewrite app_nil_r | now left].
  - exists (" " ++ Py.join " " (y :: l)). split; [reflexivity | right; eauto].
Qed.

Section ImportOf.

Variables (obj : str).
Hypothesis obj_word : obj <> [] /\ ws_free obj = true.

(** the statement text the loops cut out of the read-ahead string, when
    the token after [obj] is a word: [obj], the word, and what is left
    of the line *)
Lemma import_of_word (name : str) (rest : list str) :
  name <> [] -> ws_free name = true ->
  VBNet.import_of obj (Some (name :: rest)) = Some name.
Proof.
  intros Hne Hname. destruct obj_word as [Hobj_ne Hobj].
  unfold VBNet.import_of, ParsingMixin.create_read_ahead_string.
  cbn [app].
  destruct (join_space_cons name rest) as (x & Hjoin & Hx).
  assert (Hread : Py.join " " (obj :: name :: rest) = (obj ++ " " ++ name) ++ x).
  { change (Py.join " " (obj :: name :: rest))
      with (obj ++ " " ++ Py.join " " (name :: rest)).
    rewrite Hjoin. now rewrite <- !app_assoc. }
  rewrite Hread.
  rewrite split_first_app.
  2:{ apply Forall_app. split; [now apply ws_free_without|].
      apply Forall_app. split; [repeat constructor; discriminate|].
      now apply ws_free_without. }
  destruct (split_first Py.LF x) as (a & Ha & -> & Hxa).
  assert (Ha' : a = [] \/ exists a', a = " " ++ a').
  { destruct Hx as [->|[r ->]].
    - left. destruct Hxa as [<-|[b Hb]]; [reflexivity|].
      destruct a; discriminate.
    - destruct Hxa as [<-|[b Hb]]; [right; eauto|].
      destruct a as [|c a]; [discriminate|]. right. exists a.
      injection Hb as <- _. reflexivity. }
  rewrite <- app_assoc.
  rewrite (strip_word_app obj _ Hobj_ne Hobj).
  rewrite <- app_assoc.
  rewrite (rstrip_after_word " " name a Hne Hname).
  destruct (rstrip_prefix a) as [t Ht].
  set (R := rev (Py.lstrip (rev a))) in *.
  assert (HR : R = [] \/ exists R', R = " " ++ R').
  { destruct Ha' as [->|[a' ->]].
    - left. destruct R; [reflexivity | discriminate].
    - destruct R as [|c R]; [now left|]. right. exists R.
      injection Ht as <- _. reflexivity. }
  change (obj ++ " " ++ name ++ R) with (obj ++ " "%char :: (name ++ R)).
  rewrite split_at_sep by now apply ws_free_without.
  assert (Hsplit : exists l, Py.split " " (name ++ R) = name :: l).
  { destruct HR as [->|[R' ->]].
    - rewrite app_nil_r. exists []. apply split_without. now apply ws_free_without.
    - exists (Py.split " " R').
      change (name ++ " " ++ R') with (name ++ " "%char :: R').
      apply split_at_sep. now apply ws_free_without. }
  destruct Hsplit as [l ->]. unfold Py.index. cbn [nth_error].
  now rewrite strip_ws_free.
Qed.

(** no name when the line ends right after [obj] *)
Lemma import_of_newline (rest : list str) :
  VBNet.import_of obj (Some (NL :: rest)) = None.
Proof.
  destruct obj_word as [Hobj_ne Hobj].
  unfold VBNet.import_of, ParsingMixin.create_read_ahead_string. cbn [app].
  destruct (join_space_cons NL rest) as (x & Hjoin & _).
  assert (Hread : Py.join " " (obj :: NL :: rest)
                  = (obj ++ " ") ++ Py.LF :: x).
  { change (Py.join " " (obj :: NL :: rest))
      with (obj ++ " " ++ Py.join " " (NL :: rest)).
    rewrite Hjoin. now rewrite <- !app_assoc. }
  rewrite Hread, split_at_sep.
  2:{ apply Forall_app. split; [now apply ws_free_without|].
      repeat constructor; discriminate. }
  cbn [nth]. rewrite (strip_word_app obj _ Hobj_ne Hobj).
  change (rev (Py.lstrip (rev " "))) with (@nil ascii). rewrite app_nil_r.
  rewrite split_without by now apply ws_free_without. reflexivity.
Qed.

End ImportOf.

Lemma import_of_none (obj : str) : VBNet.import_of obj None = None.
Proof. reflexivity. Qed.

(** ** What tokenization keeps *)

Lemma non_whitespace_app (a b : str) :
  non_whitespace (a ++ b) = non_whitespace a ++ non_whitespace b.
Proof. apply List.filter_app. Qed.

Lemma non_whitespace_ws_free (s : str) : ws_free s = true -> non_whitespace s = s.
Proof.
  induction s as [|c s IH]; [reflexivity|]. rewrite ws_free_cons.
  intros [Hc Hs]%andb_true_iff. unfold non_whitespace. cbn [List.filter].
  rewrite Hc. f_equal. now apply IH.
Qed.

Lemma non_whitespace_flush (cur : str) :
  non_whitespace (concat (Py.flush cur)) = non_whitespace cur.
Proof. destruct cur; [reflexivity|]. cbn [Py.flush concat]. now rewrite app_nil_r. Qed.

Lemma non_whitespace_findall_go (s : str) :
  forall cur : str,
    non_whitespace (concat (Py.findall_go cur s)) = non_whitespace (cur ++ s).
Proof.
  induction s as [|c s IH]; intros cur; cbn [Py.findall_go].
  - rewrite app_nil_r. apply non_whitespace_flush.
  - destruct (Py.isspace c) eqn:Hc.
    + rewrite !concat_app, !non_whitespace_app, non_whitespace_flush, IH.
      assert (Hmid : non_whitespace (concat (if Py.is_lf c then [[c]] else [])) = []).
      { destruct (Py.is_lf c); [|reflexivity].
        unfold non_whitespace. cbn. now rewrite Hc. }
      rewrite Hmid. unfold non_whitespace at 4. cbn [List.filter app].
      now rewrite Hc.
    + rewrite IH, <- app_assoc. reflexivity.
Qed.

Lemma non_whitespace_tokens (s : str) :
  non_whitespace (concat (Py.findall_tokens s)) = non_whitespace s.
Proof. apply (non_whitespace_findall_go s []). Qed.

Lemma non_whitespace_replace (old new s : str) :
  pads (old, new) = true ->
  non_whitespace (Py.replace old new s) = non_whitespace s.
Proof.
  intros Hpads.
  destruct (pads_inv old new Hpads) as (o & old' & -> & Hfree & Hnew).
  assert (Hn : non_whitespace new = non_whitespace (o :: old')).
  { destruct Hnew as [[_ ->]|[_ ->]]; rewrite !non_whitespace_app;
      change (non_whitespace " ") with (@nil ascii);
      now rewrite ?app_nil_r. }
  apply (replace_ind o old' new
           (fun s r => non_whitespace r = non_whitespace s)).
  - reflexivity.
  - intros t Hstart IH. rewrite non_whitespace_app, IH, Hn.
    rewrite <- non_whitespace_app. f_equal. symmetry.
    exact (startswith_inv _ _ Hstart).
  - intros c t _ IH. unfold non_whitespace in *. cbn [List.filter].
    now rewrite IH.
Qed.

Lemma non_whitespace_apply_mapping (mapping : list (str * str)) :
  forallb pads mapping = true ->
  forall s : str,
    non_whitespace (ParsingMixin.apply_mapping mapping s) = non_whitespace s.
Proof.
  unfold ParsingMixin.apply_mapping.
  induction mapping as [|[old new] mapping IH]; intros Hpads s; [reflexivity|].
  cbn [forallb] in Hpads. apply andb_true_iff in Hpads as [Hentry Hpads].
  cbn [fold_left fst snd]. rewrite IH by assumption.
  now apply non_whitespace_replace.
Qed.

(** X1. Whatever the token map, every token the tokenizer yields is the
    line feed or a non-empty run without whitespace. When every entry of
    the map only sets spaces next to its pattern, as the entries of the
    six maps named do, the characters of the tokens that are no
    whitespace, read in order, are those of the text: tokenization neither
    drops nor invents any. *)
Theorem tokenizer_keeps_the_text (mapping_dict : list (str * str)) (file_content : str) :
  let tokens :=
    ParsingMixin.preprocess_file_content_and_generate_token_list_by_mapping
      file_content mapping_dict in
  Forall valid_token tokens
  /\ (forallb pads mapping_dict = true ->
      non_whitespace (concat tokens) = non_whitespace file_content)
  /\ forallb (forallb pads)
       [VBNet._token_mappings; CSharp._token_mappings; CSS._token_mappings;
        SCSS._token_mappings; Twig._token_mappings; JSON._token_mappings]
     = true.
Proof.
  intros tokens. split; [apply tokens_valid|]. split; [|vm_compute; reflexivity].
  intros Hpads. unfold tokens,
    ParsingMixin.preprocess_file_content_and_generate_token_list_by_mapping.
  rewrite non_whitespace_tokens. now apply non_whitespace_apply_mapping.
Qed.

(** ** The read-ahead string *)

(** X2. The read-ahead string of a token and the tokens after it, all of
    them tokens of the tokenizer, splits back into these very tokens; with
    nothing to follow ([None]) building the string raises [TypeError]. *)
Theorem read_ahead_string_tokens (obj : str) (following : list str) :
  valid_token obj -> Forall valid_token following ->
  ParsingMixin.create_read_ahead_string obj (Some following)
  = Py.Ok (Py.join " " (obj :: following))
  /\ Py.findall_tokens (Py.join " " (obj :: following)) = obj :: following
  /\ ParsingMixin.create_read_ahead_string obj None = Py.Raise Py.TypeError.
Proof.
  intros Hobj Hfollowing. split; [reflexivity|]. split; [|reflexivity].
  apply tokens_join_valid. now constructor.
Qed.

(** X2, at the tokens of a class header and its end. *)
Lemma read_ahead_string_tokens_witness :
  Py.findall_tokens (Py.join " " ["Class"; "Foo"; NL; "End"; "Class"])
  = ["Class"; "Foo"; NL; "End"; "Class"].
Proof.
  refine (proj1 (proj2 (read_ahead_string_tokens "Class" ["Foo"; NL; "End"; "Class"]
                          _ _))).
  - right. split; [discriminate | reflexivity].
  - repeat constructor; discriminate.
Defined.

(** ** The byte order mark *)

(** X3. A byte order mark ahead of a text that does not itself start with
    one is dropped before anything else is done: the file result
    registered is the one of the text without the mark. *)
Theorem bom_is_transparent (file_content : str) :
  Py.startswith file_content VBNet.BOM = false ->
  VBNet.remove_bom (VBNet.BOM ++ file_content) = file_content
  /\ VBNet.remove_bom file_content = file_content
  /\ (forall (p : Parser) (analysis : nat) (root file_name full_file_path : str),
        VBNet.generate_file_result_from_analysis p analysis root file_name
          full_file_path (VBNet.BOM ++ file_content)
        = VBNet.generate_file_result_from_analysis p analysis root file_name
            full_file_path file_content).
Proof.
  intros Hno.
  assert (H1 : VBNet.remove_bom (VBNet.BOM ++ file_content) = file_content).
  { unfold VBNet.remove_bom. rewrite startswith_app.
    change 3 with (length VBNet.BOM). now rewrite drop_app_length. }
  assert (H2 : VBNet.remove_bom file_content = file_content).
  { unfold VBNet.remove_bom. now rewrite Hno. }
  split; [exact H1|]. split; [exact H2|].
  intros p analysis root file_name full_file_path.
  unfold VBNet.generate_file_result_from_analysis. now rewrite H1, H2.
Qed.

(** X3, at a class header. *)
Lemma bom_is_transparent_witness :
  VBNet.remove_bom (VBNet.BOM ++ "Class Foo") = "Class Foo".
Proof. refine (proj1 (bom_is_transparent "Class Foo" _)). reflexivity. Defined.

(** ** A token and its successor *)

(** [zip(tokens, tokens[1:] + [""])], one token at a time *)
Lemma zip_next_cons (x : str) (l : list str) :
  combine (x :: l) (drop 1 (x :: l) ++ [""])
  = (x, nth 0 l "") :: combine l (drop 1 l ++ [""]).
Proof. destruct l as [|y l]; reflexivity. Qed.

Lemma zip_next_lookup (l : list str) :
  forall (i : nat) (a b : str),
    combine l (drop 1 l ++ [""]) !! i = Some (a, b) ->
    l !! i = Some a /\ b = nth (S i) l "".
Proof.
  induction l as [|x l IH]; intros i a b H; [destruct i; discriminate|].
  rewrite zip_next_cons in H. destruct i as [|i]; cbn in H.
  - injection H as <- <-. now split.
  - apply IH in H as [H1 H2]. now split.
Qed.

Lemma nth_nonempty_lookup (l : list str) (i : nat) (b : str) :
  b = nth i l "" -> b <> "" -> l !! i = Some b.
Proof.
  intros -> Hb. destruct (l !! i) as [y|] eqn:Hl.
  - f_equal. symmetry. now apply nth_lookup_Some with (d := ""%str) in Hl.
  - apply lookup_ge_None in Hl. rewrite nth_overflow in Hb by lia. done.
Qed.

Lemma zip_next_fst (l : list str) : map fst (combine l (drop 1 l ++ [""])) = l.
Proof.
  induction l as [|x l IH]; [reflexivity|].
  rewrite zip_next_cons. cbn [map fst]. now rewrite IH.
Qed.

(** ** Region directives among the tokens *)

Lemma region_end_pair (current next : str) :
  current ++ " " ++ next = "#End Region" -> current = "#End" /\ next = "Region".
Proof.
  intros H.
  do 4 (destruct current as [|? current]; [cbn in H; discriminate|]).
  destruct current as [|? current].
  - cbn in H. injection H as -> -> -> -> <-. now split.
  - exfalso. cbn in H. injection H as _ _ _ _ _ H.
    do 6 (destruct current as [|? current]; [cbn in H; discriminate|]).
    destruct current; cbn in H; discriminate.
Qed.

Lemma filter_regions_spec (pairs : list (str * str)) :
  forall before : str,
    let kept := VBNet.filter_regions "#Region" "#End Region" before pairs in
    sublist kept (map fst pairs)
    /\ ("#Region" ∉ kept)
    /\ (forall token : str,
          token ∈ map fst pairs ->
          token <> "#Region" ->
          Py.startswith (Py.strip token) [Py.DQ] = false ->
          token <> "#End" ->
          token ∈ kept).
Proof.
  induction pairs as [|[current next] pairs IH]; intros before.
  - cbn. split; [constructor|]. split; [apply not_elem_of_nil|].
    intros token Hin. now apply elem_of_nil in Hin.
  - cbn [VBNet.filter_regions map fst]. cbn zeta.
    destruct (IH current) as (Hsub & Hnot & Hkeep). cbn zeta in Hsub, Hnot, Hkeep.
    set (rest := VBNet.filter_regions "#Region" "#End Region" current pairs) in *.
    set (valid := if Py.str_eqb (current ++ " " ++ next) "#End Region" then false
                  else if Py.str_eqb before "#Region"
                          && Py.startswith (Py.strip current) [Py.DQ]
                       then false
                       else if Py.str_eqb current "#Region" then false else true).
    split; [|split].
    + destruct valid; cbn [app]; [now constructor | now apply sublist_cons].
    + destruct (Py.str_eqb current "#Region") eqn:Hcur.
      * subst valid.
        destruct (Py.str_eqb (current ++ " " ++ next) "#End Region");
          [exact Hnot|].
        destruct (Py.str_eqb before "#Region" && _); exact Hnot.
      * apply str_eqb_neq in Hcur.
        destruct valid; cbn [app]; [|exact Hnot].
        apply not_elem_of_cons. split; [congruence | exact Hnot].
    + intros token Hin Hregion Hquote Hend.
      apply elem_of_cons in Hin as [->|Hin].
      * assert (Hvalid : valid = true).
        { subst valid.
          destruct (Py.str_eqb (current ++ " " ++ next) "#End Region") eqn:Hpair.
          - apply str_eqb_eq, region_end_pair in Hpair as [Hc _]. done.
          - rewrite Hquote, andb_false_r.
            apply str_eqb_neq in Hregion. now rewrite Hregion. }
        rewrite Hvalid. left.
      * apply elem_of_app. right. now apply Hkeep.
Qed.

(** X4. The tokens the region filter of [preprocess_vbnet_source] keeps
    are a subsequence of the tokens, and none of them is [#Region]; a
    token is dropped only if it is [#Region], or starts with a double
    quote once trimmed, or is [#End]. The comment filter and the token map
    then work on the tokens kept. *)
Theorem region_filter_tokens (scanned_tokens : list str) :
  let kept :=
    VBNet.filter_regions ("#" ++ VBNet.REGION)
      ("#" ++ VBNet.CLOSE_SCOPE ++ " " ++ VBNet.REGION) ""
      (combine scanned_tokens (drop 1 scanned_tokens ++ [""])) in
  sublist kept scanned_tokens
  /\ ("#Region" ∉ kept)
  /\ (forall token : str,
        token ∈ scanned_tokens ->
        token <> "#Region" ->
        Py.startswith (Py.strip token) [Py.DQ] = false ->
        token <> "#End" ->
        token ∈ kept)
  /\ VBNet.preprocess_vbnet_source scanned_tokens
     = ParsingMixin.preprocess_file_content_and_generate_token_list_by_mapping
         (VBNet._filter_source_tokens_without_comments kept
            VBNet.INLINE_COMMENT VBNet.START_BLOCK_COMMENT VBNet.STOP_BLOCK_COMMENT)
         VBNet._token_mappings.
Proof.
  intros kept.
  pose proof (filter_regions_spec
                (combine scanned_tokens (drop 1 scanned_tokens ++ [""])) "") as H.
  cbn zeta in H. rewrite zip_next_fst in H.
  destruct H as (Hsub & Hnot & Hkeep).
  repeat split; assumption || reflexivity.
Qed.

(** ** Block comments whose two markers coincide *)

Lemma filter_lines_never_closes (line_marker marker : str) (lines : list str) :
  VBNet.filter_lines line_marker marker marker true lines = [].
Proof.
  induction lines as [|line lines IH]; [reflexivity|].
  cbn [VBNet.filter_lines].
  destruct (_ || _); [exact IH|].
  destruct (Py.startswith (Py.strip line) marker); [exact IH|].
  destruct (Py.startswith (Py.strip line) line_marker); [exact IH|].
  exact IH.
Qed.

(** the lines ahead of the first line that opens a block are filtered
    as if nothing followed them *)
Lemma filter_lines_until_opener (line_marker marker : str)
    (before : list str) (opener : str) (after : list str) :
  Forall (fun line => CommentFilter.region_line line = true
                      \/ CommentFilter.starts marker line = false) before ->
  CommentFilter.region_line opener = false ->
  CommentFilter.starts marker opener = true ->
  VBNet.filter_lines line_marker marker marker false (before ++ opener :: after)
  = VBNet.filter_lines line_marker marker marker false before.
Proof.
  intros Hbefore Hregion Hstart.
  induction Hbefore as [|line before Hline _ IH]; cbn [app VBNet.filter_lines].
  - unfold CommentFilter.region_line, CommentFilter.starts in Hregion, Hstart.
    rewrite Hregion, Hstart. apply filter_lines_never_closes.
  - unfold CommentFilter.region_line, CommentFilter.starts in Hline.
    destruct (_ || _) eqn:Hr; [exact IH|].
    destruct Hline as [Hline|Hline]; [discriminate|]. rewrite Hline.
    destruct (Py.startswith (Py.strip line) line_marker); [exact IH|].
    cbn [app]. now rewrite IH.
Qed.

(** X5. VB.NET names the same marker as start and as stop of a block
    comment. With one marker in both roles, the start being tested first,
    a block once open never closes: of a source whose lines go [before],
    [opener], [after], where [opener] is the first line, region lines
    aside, that starts with the marker, only lines of [before] survive. *)
Theorem block_comment_never_closes (line_marker marker : str) :
  VBNet.START_BLOCK_COMMENT = VBNet.STOP_BLOCK_COMMENT
  /\ (forall lines : list str,
        VBNet.filter_lines line_marker marker marker true lines = [])
  /\ (forall (list_of_words before : list str) (opener : str) (after : list str),
        Py.splitlines (Py.join " " list_of_words) = before ++ opener :: after ->
        Forall (fun line => CommentFilter.region_line line = true
                            \/ CommentFilter.starts marker line = false) before ->
        CommentFilter.region_line opener = false ->
        CommentFilter.starts marker opener = true ->
        VBNet._filter_source_tokens_without_comments list_of_words
          line_marker marker marker
        = Py.join NL (VBNet.filter_lines line_marker marker marker false before)).
Proof.
  split; [reflexivity|]. split; [apply filter_lines_never_closes|].
  intros list_of_words before opener after Hlines Hbefore Hregion Hstart.
  unfold VBNet._filter_source_tokens_without_comments. rewrite Hlines.
  now rewrite filter_lines_until_opener.
Qed.

(** ** The VB.NET import scans *)

Lemma vb_add_imports_loop_read (triples : list (nat * str * option (list str))) (a : loc) :
  forall h : Heap.t,
    Heap.read (VBNet.add_imports_loop triples a h) a
    = Heap.read h a ++ VBNet.entity_imports triples.
Proof.
  induction triples as [|[[i obj] following] triples IH]; intros h;
    cbn [VBNet.add_imports_loop VBNet.entity_imports].
  - now rewrite app_nil_r.
  - destruct (Py.str_eqb obj VBNet.IMPORT).
    + rewrite IH. unfold VBNet.import_of.
      destruct (ParsingMixin.create_read_ahead_string obj following) as [s|e];
        [|reflexivity].
      destruct (Py.index _ 1) as [name|e]; [|reflexivity].
      now rewrite heap_read_append_eq, <- app_assoc.
    + destruct (Py.any_in _ obj); [now rewrite app_nil_r | apply IH].
Qed.

Lemma vb_add_imports_loop_frame (triples : list (nat * str * option (list str)))
    (a b : loc) :
  a <> b ->
  forall h : Heap.t, Heap.read (VBNet.add_imports_loop triples a h) b = Heap.read h b.
Proof.
  intros Hab. induction triples as [|[[i obj] following] triples IH]; intros h;
    cbn [VBNet.add_imports_loop]; [reflexivity|].
  destruct (Py.str_eqb obj VBNet.IMPORT).
  - rewrite IH.
    destruct (ParsingMixin.create_read_ahead_string obj following) as [s|e];
      [|reflexivity].
    destruct (Py.index _ 1) as [name|e]; [|reflexivity].
    now apply heap_read_append_ne.
  - destruct (Py.any_in _ obj); [reflexivity | apply IH].
Qed.

Lemma vb_add_file_imports_loop_read (triples : list (nat * str * option (list str)))
    (a : loc) :
  forall h : Heap.t,
    Heap.read (VBNet.add_file_imports_loop triples a h) a
    = Heap.read h a ++ VBNet.file_imports triples.
Proof.
  induction triples as [|[[i obj] following] triples IH]; intros h;
    cbn [VBNet.add_file_imports_loop VBNet.file_imports].
  - now rewrite app_nil_r.
  - destruct (Py.str_eqb obj VBNet.IMPORT); [|apply IH].
    rewrite IH. unfold VBNet.import_of.
    destruct (ParsingMixin.create_read_ahead_string obj following) as [s|e];
      [|reflexivity].
    destruct (Py.index _ 1) as [name|e]; [|reflexivity].
    now rewrite heap_read_append_eq, <- app_assoc.
Qed.

Lemma vb_entity_imports_prefix (triples : list (nat * str * option (list str))) :
  VBNet.entity_imports triples `prefix_of` VBNet.file_imports triples.
Proof.
  induction triples as [|[[i obj] following] triples IH];
    cbn [VBNet.entity_imports VBNet.file_imports]; [done|].
  destruct (Py.str_eqb obj VBNet.IMPORT).
  - destruct (VBNet.import_of obj following); [now apply prefix_cons | exact IH].
  - destruct (Py.any_in _ obj); [apply prefix_nil | exact IH].
Qed.

Lemma read_ahead_lookup (ts : list str) (k : nat) (t : str) :
  ts !! k = Some t ->
  ParsingMixin._gen_word_read_ahead ts !! k = Some (k, t, following_at ts k).
Proof.
  intros H. unfold ParsingMixin._gen_word_read_ahead.
  apply (gen_word_read_ahead_from_lookup ts ts 0 None); auto; lia.
Qed.

Lemma read_ahead_objs (ts : list str) :
  map (fun triple => snd (fst triple)) (ParsingMixin._gen_word_read_ahead ts) = ts.
Proof.
  apply list_eq. intros k. rewrite list_lookup_fmap.
  destruct (ts !! k) as [t|] eqn:Hk.
  - now rewrite (read_ahead_lookup ts k t Hk).
  - apply lookup_ge_None in Hk.
    rewrite (proj2 (lookup_ge_None _ k)); [reflexivity|].
    unfold ParsingMixin._gen_word_read_ahead.
    now rewrite gen_word_read_ahead_from_length.
Qed.

(** the triples of a token list, cut at a token that has a successor *)
Lemma read_ahead_split (pre : list str) (obj next : str) (rest : list str) :
  exists before after : list (nat * str * option (list str)),
    ParsingMixin._gen_word_read_ahead (pre ++ obj :: next :: rest)
    = before ++ (length pre, obj, Some (next :: rest)) :: after
    /\ map (fun triple => snd (fst triple)) before = pre.
Proof.
  set (ts := pre ++ obj :: next :: rest).
  set (T := ParsingMixin._gen_word_read_ahead ts).
  assert (Hk : ts !! length pre = Some obj).
  { unfold ts. now rewrite lookup_app_r, Nat.sub_diag by lia. }
  pose proof (read_ahead_lookup ts _ _ Hk) as HT. fold T in HT.
  assert (Hf : following_at ts (length pre) = Some (next :: rest)).
  { unfold following_at, ts. rewrite length_app. cbn [length].
    destruct (Nat.ltb_spec (length pre) (length pre + S (S (length rest)) - 1)); [|lia].
    f_equal. replace (length pre + 1) with (length pre + 1 + 0) by lia.
    rewrite <- Nat.add_assoc.
    rewrite drop_app_add. reflexivity. }
  rewrite Hf in HT.
  exists (take (length pre) T), (drop (S (length pre)) T). split.
  - symmetry. now apply take_drop_middle.
  - rewrite <- firstn_map. unfold T.
    rewrite read_ahead_objs. unfold ts. now rewrite take_app_length.
Qed.

Lemma vb_entity_imports_after (before triples : list (nat * str * option (list str))) :
  Forall (fun triple =>
            Py.any_in [VBNet.NAMESPACE; VBNet.CLASS; VBNet.STRUCT; VBNet.INTERFACE;
                       VBNet.ENUM] (snd (fst triple)) = false) before ->
  forall x : str,
    x ∈ VBNet.entity_imports triples -> x ∈ VBNet.entity_imports (before ++ triples).
Proof.
  induction 1 as [|[[i obj] following] before Hobj _ IH]; intros x Hx; [exact Hx|].
  cbn [app VBNet.entity_imports]. cbn [fst snd] in Hobj. rewrite Hobj.
  destruct (Py.str_eqb obj VBNet.IMPORT); [|now apply IH].
  destruct (VBNet.import_of obj following); [right|]; now apply IH.
Qed.

(** X6. An [Imports] token that no token containing a declaration keyword
    precedes, followed by a word, records this word among the imports of
    the entity. *)
Theorem vb_import_before_declaration
    (entity_result : EntityResult.t) (h : Heap.t)
    (pre : list str) (name : str) (rest : list str) :
  Forall (fun token =>
            Py.any_in [VBNet.NAMESPACE; VBNet.CLASS; VBNet.STRUCT; VBNet.INTERFACE;
                       VBNet.ENUM] token = false) pre ->
  name <> [] -> ws_free name = true ->
  name ∈ Heap.read
           (VBNet._add_imports_to_single_entity_result entity_result
              (pre ++ [VBNet.IMPORT; name] ++ rest) h)
           (EntityResult.scanned_import_dependencies entity_result).
Proof.
  intros Hpre Hne Hname. unfold VBNet._add_imports_to_single_entity_result.
  rewrite vb_add_imports_loop_read. apply elem_of_app. right.
  change (pre ++ [VBNet.IMPORT; name] ++ rest) with (pre ++ VBNet.IMPORT :: name :: rest).
  destruct (read_ahead_split pre VBNet.IMPORT name rest) as (before & after & -> & Hobjs).
  apply vb_entity_imports_after.
  - rewrite <- Hobjs in Hpre. now apply Forall_fmap in Hpre.
  - cbn [VBNet.entity_imports].
    change (Py.str_eqb VBNet.IMPORT VBNet.IMPORT) with true. cbn match.
    rewrite import_of_word by first [assumption | split; [discriminate | reflexivity]].
    left.
Qed.

(** X6, at an import that follows an option line. *)
Lemma vb_import_before_declaration_witness :
  "System.IO" ∈ Heap.read
                  (VBNet._add_imports_to_single_entity_result
                     (an_entity "Foo" (a_file [] 0) 1 2)
                     (["Option"; "Strict"; NL] ++ ["Imports"; "System.IO"]
                        ++ [NL; "Class"; "Foo"; NL; "End"; "Class"])
                     (fresh_store 3))
                  1.
Proof.
  apply (vb_import_before_declaration (an_entity "Foo" (a_file [] 0) 1 2)
           (fresh_store 3) ["Option"; "Strict"; NL] "System.IO"
           [NL; "Class"; "Foo"; NL; "End"; "Class"]).
  - repeat constructor.
  - discriminate.
  - reflexivity.
Defined.

(** X7. Over the same tokens the imports the entity scan appends are a
    prefix of those the file scan appends: the two loops differ by the
    [break] at the first declaration keyword only. The entity scan changes
    no list but the entity's. *)
Theorem vb_entity_imports_are_a_prefix (entity_result : EntityResult.t)
    (file_imports : loc) (scanned_tokens : list str) (h : Heap.t) :
  let triples := ParsingMixin._gen_word_read_ahead scanned_tokens in
  let entity_imports := EntityResult.scanned_import_dependencies entity_result in
  Heap.read (VBNet._add_imports_to_single_entity_result entity_result scanned_tokens h)
    entity_imports
  = Heap.read h entity_imports ++ VBNet.entity_imports triples
  /\ Heap.read (VBNet.add_file_imports_loop triples file_imports h) file_imports
     = Heap.read h file_imports ++ VBNet.file_imports triples
  /\ VBNet.entity_imports triples `prefix_of` VBNet.file_imports triples
  /\ (forall a : loc,
        a <> entity_imports ->
        Heap.read (VBNet._add_imports_to_single_entity_result entity_result
                     scanned_tokens h) a
        = Heap.read h a).
Proof.
  intros triples entity_imports.
  split; [apply vb_add_imports_loop_read|].
  split; [apply vb_add_file_imports_loop_read|].
  split; [apply vb_entity_imports_prefix|].
  intros a Ha. apply vb_add_imports_loop_frame. now apply not_eq_sym.
Qed.

(** ** Inheritance in the VB.NET parser *)

Lemma vb_find_parent_none (pairs : list (str * str)) :
  forall c : str,
    Forall (fun pair => fst pair <> VBNet.INHERITANCE) pairs ->
    VBNet.find_parent_name c pairs = "".
Proof.
  induction pairs as [|[current next] pairs IH]; intros c Hall; [reflexivity|].
  inversion Hall as [|? ? Hcur Hrest]; subst. cbn [fst] in Hcur.
  cbn [VBNet.find_parent_name].
  apply str_eqb_neq in Hcur. rewrite Hcur. cbn [andb]. now apply IH.
Qed.

Lemma vb_find_parent_some (pairs : list (str * str)) :
  forall c parent : str,
    VBNet.find_parent_name c pairs = parent -> parent <> "" ->
    exists i : nat, pairs !! i = Some (VBNet.INHERITANCE, parent).
Proof.
  induction pairs as [|[current next] pairs IH]; intros c parent H Hne;
    [now subst|].
  cbn [VBNet.find_parent_name] in H.
  destruct (Py.str_eqb current VBNet.INHERITANCE && _) eqn:Hc.
  - apply andb_true_iff in Hc as [Hc _]. apply str_eqb_eq in Hc. subst.
    now exists 0.
  - destruct (IH _ _ H Hne) as [i Hi]. now exists (S i).
Qed.

Lemma vb_find_parent_after_class (pre : list str) :
  forall (c parent : str) (rest : list str),
    VBNet.INHERITANCE ∉ pre ->
    Forall (fun token => token <> "") pre ->
    c <> "" \/ Exists (fun token => Py.any_in [VBNet.CLASS; VBNet.INTERFACE] token = true) pre ->
    VBNet.find_parent_name c
      (combine (pre ++ VBNet.INHERITANCE :: parent :: rest)
         (drop 1 (pre ++ VBNet.INHERITANCE :: parent :: rest) ++ [""]))
    = parent.
Proof.
  induction pre as [|x pre IH]; intros c parent rest Hnot Hne Hc.
  - cbn [app]. rewrite zip_next_cons. cbn [VBNet.find_parent_name nth].
    change (Py.any_in [VBNet.CLASS; VBNet.INTERFACE] VBNet.INHERITANCE) with false.
    cbn match. rewrite str_eqb_refl.
    destruct Hc as [Hc|Hc]; [|inversion Hc].
    apply str_eqb_neq in Hc. rewrite Hc. reflexivity.
  - cbn [app]. rewrite zip_next_cons. cbn [VBNet.find_parent_name].
    apply not_elem_of_cons in Hnot as [Hx Hnot].
    inversion Hne as [|? ? Hx_ne Hne']; subst.
    assert (Hx' : Py.str_eqb x VBNet.INHERITANCE = false)
      by (apply str_eqb_neq; congruence).
    rewrite Hx'. cbn [andb]. apply IH; [assumption..|].
    destruct (Py.any_in [VBNet.CLASS; VBNet.INTERFACE] x) eqn:Hcls.
    + left. destruct pre as [|y pre]; cbn [app nth]; [discriminate|].
      now inversion Hne'.
    + destruct Hc as [Hc|Hc]; [now left|]. right.
      inversion Hc as [? ? Hhd|]; subst; [congruence | assumption].
Qed.

(** X8. At most one parent is recorded, and never the empty string: it is
    the token after an [Inherits] token, and none is recorded when no
    token is [Inherits]. When a token containing [Class] or [Interface]
    comes before the first [Inherits], no token before it being empty, the
    parent recorded is the token after that [Inherits]. *)
Theorem vb_inheritance_parent (result : EntityResult.t) (h : Heap.t) :
  let tokens := EntityResult.scanned_tokens result in
  let parents := EntityResult.scanned_inheritance_dependencies result in
  (VBNet.INHERITANCE ∉ tokens ->
   VBNet._add_inheritance_to_entity_result result h = h)
  /\ (VBNet._add_inheritance_to_entity_result result h = h
      \/ exists (i : nat) (parent : str),
           parent <> ""
           /\ tokens !! i = Some VBNet.INHERITANCE
           /\ tokens !! S i = Some parent
           /\ VBNet._add_inheritance_to_entity_result result h
              = Heap.append h parents parent)
  /\ (forall (pre : list str) (parent : str) (rest : list str),
        tokens = pre ++ [VBNet.INHERITANCE; parent] ++ rest ->
        VBNet.INHERITANCE ∉ pre ->
        Forall (fun token => token <> "") pre ->
        Exists (fun token => Py.any_in [VBNet.CLASS; VBNet.INTERFACE] token = true) pre ->
        parent <> "" ->
        VBNet._add_inheritance_to_entity_result result h
        = Heap.append h parents parent).
Proof.
  intros tokens parents. unfold VBNet._add_inheritance_to_entity_result.
  fold tokens parents. split; [|split].
  - intros Hnot. rewrite vb_find_parent_none; [reflexivity|].
    apply Forall_forall. intros [a b] Hin. cbn [fst]. intros ->.
    apply Hnot. rewrite <- (zip_next_fst tokens).
    apply list_elem_of_fmap. now exists (VBNet.INHERITANCE, b).
  - destruct (VBNet.find_parent_name "" _) as [|c parent] eqn:Hfind; [now left|].
    right. destruct (vb_find_parent_some _ _ _ Hfind) as [i Hi]; [discriminate|].
    apply zip_next_lookup in Hi as [Hi Hnext].
    exists i, (c :: parent). split; [discriminate|]. split; [exact Hi|].
    split; [|reflexivity]. now apply nth_nonempty_lookup.
  - intros pre parent rest Htokens Hnot Hne Hcls Hparent.
    rewrite Htokens. cbn [app].
    rewrite vb_find_parent_after_class by auto.
    destruct parent; [done | reflexivity].
Qed.

(** ** The body capture on a scope without inner scopes *)

Lemma nth_zip_next (l : list str) (i : nat) :
  nth i (drop 1 l ++ [""]) "" = nth (S i) l "".
Proof.
  destruct l as [|x l]; [now destruct i as [|[|i]]|].
  cbn [drop]. rewrite drop_0. cbn [nth].
  destruct (Nat.lt_ge_cases i (length l)) as [Hi|Hi].
  - now rewrite app_nth1.
  - rewrite app_nth2 by lia. rewrite (nth_overflow l) by lia.
    destruct (i - length l) as [|[|k]]; reflexivity.
Qed.

Lemma nth_middle_app (done : list str) (x : str) (rest : list str) :
  nth (length done) (done ++ x :: rest) "" = x.
Proof. now rewrite app_nth2, Nat.sub_diag by lia. Qed.

Section FlatBody.

Variables (closer : str) (rest : list str).
Hypothesis closer_opens : Py.any_in VBNet.scope_keywords closer = true.

Lemma capture_loop_flat (body : list str) :
  forall (done cap : list str) (fuel : nat),
    Forall (fun token => Py.any_in VBNet.scope_keywords token = false) body ->
    length body < fuel ->
    VBNet.capture_loop fuel VBNet.CLOSE_SCOPE
      (done ++ body ++ VBNet.CLOSE_SCOPE :: closer :: rest)
      (drop 1 (done ++ body ++ VBNet.CLOSE_SCOPE :: closer :: rest) ++ [""])
      (VBNet.mkCapture (length done) (length done) 1 cap)
    = Some (VBNet.mkCapture (length done + length body) (length done + length body)
              0 (cap ++ body)).
Proof.
  induction body as [|x body IH]; intros done cap fuel Hbody Hfuel;
    (destruct fuel as [|fuel]; [cbn in Hfuel; lia|]);
    set (all := done ++ _);
    cbn [VBNet.capture_loop VBNet.iterTokens VBNet.iterNextTokens].
  - assert (Hlen : length all = length done + 2 + length rest)
      by (unfold all; repeat (rewrite ?length_app; cbn [length app]); lia).
    assert (Hcond : (length done <? length all)
                    && (length done <? length (drop 1 all ++ [""])) = true).
    { rewrite length_app, length_drop. cbn [length].
      apply andb_true_iff. split; apply Nat.ltb_lt; lia. }
    rewrite Hcond. unfold VBNet.capture_step.
    cbn [VBNet.iterTokens VBNet.iterNextTokens VBNet.scope_level VBNet.captured].
    rewrite nth_zip_next. unfold all. cbn [app]. rewrite nth_middle_app.
    replace (done ++ VBNet.CLOSE_SCOPE :: closer :: rest)
      with ((done ++ [VBNet.CLOSE_SCOPE]) ++ closer :: rest)
      by now rewrite <- app_assoc.
    replace (S (length done)) with (length (done ++ [VBNet.CLOSE_SCOPE]))
      by (rewrite length_app; cbn; lia).
    rewrite nth_middle_app.
    change (Py.any_in VBNet.scope_keywords VBNet.CLOSE_SCOPE) with false.
    cbn match. rewrite str_eqb_refl, closer_opens. cbn [andb].
    change ((1 - 1 =? 0)%Z) with true. cbn match.
    now rewrite !Nat.add_0_r, app_nil_r.
  - inversion Hbody as [|? ? Hx Hbody']; subst.
    assert (Hlen : length all = length done + S (length body) + 2 + length rest).
    { unfold all. repeat (rewrite ?length_app; cbn [length app]). lia. }
    assert (Hcond : (length done <? length all)
                    && (length done <? length (drop 1 all ++ [""])) = true).
    { rewrite length_app, length_drop. cbn [length].
      apply andb_true_iff. split; apply Nat.ltb_lt; lia. }
    rewrite Hcond. unfold VBNet.capture_step.
    cbn [VBNet.iterTokens VBNet.iterNextTokens VBNet.scope_level VBNet.captured].
    rewrite nth_zip_next.
    assert (Htoken : nth (length done) all "" = x).
    { unfold all. cbn [app]. apply nth_middle_app. }
    assert (Hnext : Py.any_in VBNet.scope_keywords (nth (S (length done)) all "") = false).
    { unfold all. cbn [app].
      replace (done ++ x :: body ++ VBNet.CLOSE_SCOPE :: closer :: rest)
        with ((done ++ [x]) ++ body ++ VBNet.CLOSE_SCOPE :: closer :: rest)
        by now rewrite <- app_assoc.
      replace (S (length done)) with (length (done ++ [x]))
        by (rewrite length_app; cbn; lia).
      destruct body as [|y body]; cbn [app]; rewrite nth_middle_app.
      - reflexivity.
      - now inversion Hbody'. }
    rewrite Htoken, Hx, Hnext, andb_false_r.
    specialize (IH (done ++ [x]) (cap ++ [x]) fuel Hbody').
    rewrite length_app in IH. cbn [length] in IH.
    replace (length done + 1) with (length done + 1) in IH by lia.
    unfold all. cbn [app].
    replace (done ++ x :: body ++ VBNet.CLOSE_SCOPE :: closer :: rest)
      with ((done ++ [x]) ++ body ++ VBNet.CLOSE_SCOPE :: closer :: rest)
      by now rewrite <- app_assoc.
    rewrite IH by (cbn in Hfuel; lia).
    do 2 f_equal; [cbn; lia | cbn; lia | now rewrite <- app_assoc].
Qed.

End FlatBody.

(** X9. For a scope whose body holds no token containing a scope keyword,
    the capture stops at the [End] that a scope keyword follows, at depth
    zero: the tokens captured are the keyword and the body, without the
    closing pair. *)
Theorem capture_of_a_flat_scope (obj : str) (body : list str) (closer : str)
    (rest : list str) :
  Py.any_in VBNet.scope_keywords obj = true ->
  obj <> VBNet.CLOSE_SCOPE ->
  Forall (fun token => Py.any_in VBNet.scope_keywords token = false) body ->
  Py.any_in VBNet.scope_keywords closer = true ->
  VBNet.capture_body VBNet.CLOSE_SCOPE obj
    (body ++ [VBNet.CLOSE_SCOPE; closer] ++ rest)
  = Some (VBNet.mkCapture (1 + length body) (1 + length body) 0 (obj :: body)).
Proof.
  intros Hobj Hne Hbody Hcloser. unfold VBNet.capture_body.
  set (all := [obj] ++ body ++ [VBNet.CLOSE_SCOPE; closer] ++ rest).
  assert (Hlen : length all = 1 + length body + 2 + length rest).
  { unfold all. repeat (rewrite ?length_app; cbn [length app]). lia. }
  rewrite Hlen. cbn [Nat.add]. cbn [VBNet.capture_loop VBNet.iterTokens VBNet.iterNextTokens].
  assert (Hcond : (0 <? length all) && (0 <? length (drop 1 all ++ [""])) = true).
  { rewrite length_app. cbn [length]. apply andb_true_iff.
    split; apply Nat.ltb_lt; lia. }
  rewrite Hcond. unfold VBNet.capture_step.
  cbn [VBNet.iterTokens VBNet.iterNextTokens VBNet.scope_level VBNet.captured].
  rewrite nth_zip_next.
  change (nth 0 all "") with obj. rewrite Hobj.
  apply str_eqb_neq in Hne. rewrite Hne. cbn [andb app Nat.add].
  change (0 + 1)%Z with 1%Z.
  pose proof (capture_loop_flat closer rest Hcloser body [obj] [obj]
                (length body + 2 + length rest) Hbody) as H.
  cbn [length app] in H. unfold all. cbn [app].
  rewrite H by lia. reflexivity.
Qed.

(** X9, at a class with one declaration, another class following it. *)
Lemma capture_of_a_flat_scope_witness :
  VBNet.capture_body VBNet.CLOSE_SCOPE "Class"
    (["Foo"; NL; "Dim"; "x"; NL] ++ [VBNet.CLOSE_SCOPE; "Class"] ++ [NL; "Class"; "Bar"])
  = Some (VBNet.mkCapture (1 + 5) (1 + 5) 0 ("Class" :: ["Foo"; NL; "Dim"; "x"; NL])).
Proof.
  apply (capture_of_a_flat_scope "Class" ["Foo"; NL; "Dim"; "x"; NL] "Class"
           [NL; "Class"; "Bar"]).
  - reflexivity.
  - discriminate.
  - repeat constructor.
  - reflexivity.
Defined.

(** ** The tokens captured are tokens of the input, in order *)

Section Captured.

Variables (close_scope_character : str) (all_tokens following_tokens : list str).

Lemma take_snoc_nth (i : nat) :
  i < length all_tokens ->
  take (S i) all_tokens = take i all_tokens ++ [nth i all_tokens ""].
Proof.
  intros Hi. destruct (lookup_lt_is_Some_2 all_tokens i Hi) as [x Hx].
  rewrite (take_S_r _ _ _ Hx). f_equal. f_equal.
  symmetry. now apply nth_lookup_Some with (d := ""%str) in Hx.
Qed.

Lemma capture_loop_sublist (fuel : nat) :
  forall c c' : VBNet.capture,
    sublist (VBNet.captured c) (take (VBNet.iterTokens c) all_tokens) ->
    VBNet.capture_loop fuel close_scope_character all_tokens following_tokens c
    = Some c' ->
    sublist (VBNet.captured c') all_tokens.
Proof.
  induction fuel as [|fuel IH]; intros c c' Hc; cbn [VBNet.capture_loop].
  - destruct (_ && _); [discriminate|]. intros [= <-].
    etransitivity; [exact Hc | apply sublist_take].
  - destruct ((VBNet.iterTokens c <? length all_tokens) && _) eqn:Hcond.
    2:{ intros [= <-]. etransitivity; [exact Hc | apply sublist_take]. }
    apply andb_true_iff in Hcond as [Hi%Nat.ltb_lt _].
    assert (Hsnoc : sublist (VBNet.captured c ++ [nth (VBNet.iterTokens c) all_tokens ""])
                      (take (S (VBNet.iterTokens c)) all_tokens)).
    { rewrite take_snoc_nth by assumption. now apply sublist_app. }
    unfold VBNet.capture_step.
    destruct (Py.str_eqb _ close_scope_character && _).
    + destruct (_ =? 0)%Z.
      * intros [= <-]. cbn [VBNet.captured].
        etransitivity; [exact Hc | apply sublist_take].
      * apply IH. cbn [VBNet.captured VBNet.iterTokens].
        etransitivity; [exact Hsnoc|].
        replace (VBNet.iterTokens c + 2 + 1) with (S (VBNet.iterTokens c) + 2) by lia.
        rewrite <- (take_take_drop all_tokens (S (VBNet.iterTokens c)) 2).
        apply sublist_inserts_r. reflexivity.
    + apply IH. cbn [VBNet.captured VBNet.iterTokens].
      now replace (VBNet.iterTokens c + 1) with (S (VBNet.iterTokens c)) by lia.
Qed.

End Captured.

(** X10. The capture ends, and the tokens captured are a subsequence of
    the entity keyword and the tokens read ahead. *)
Theorem captured_tokens_are_a_subsequence (close_scope_character obj : str)
    (following : list str) :
  exists c : VBNet.capture,
    VBNet.capture_body close_scope_character obj following = Some c
    /\ sublist (VBNet.captured c) (obj :: following)
    /\ length (VBNet.captured c) <= S (length following).
Proof.
  destruct (capture_body_ends close_scope_character obj following) as [c Hc].
  exists c. split; [exact Hc|].
  assert (Hsub : sublist (VBNet.captured c) (obj :: following)).
  { unfold VBNet.capture_body in Hc.
    eapply capture_loop_sublist; [|exact Hc]. cbn. apply sublist_nil_l. }
  split; [exact Hsub|]. apply sublist_length in Hsub. exact Hsub.
Qed.

(** ** When the entity scan raises *)

Lemma read_ahead_following (ts : list str) :
  length ts <> 1 ->
  Forall (fun triple => snd triple <> None) (ParsingMixin._gen_word_read_ahead ts).
Proof.
  intros Hlen. apply Forall_lookup. intros k [[i obj] following] Hk.
  assert (Hlt : k < length ts).
  { apply lookup_lt_Some in Hk. unfold ParsingMixin._gen_word_read_ahead in Hk.
    now rewrite gen_word_read_ahead_from_length in Hk. }
  destruct (lookup_lt_is_Some_2 ts k Hlt) as [t Ht].
  rewrite (read_ahead_lookup ts k t Ht) in Hk. injection Hk as <- <- <-.
  cbn [snd]. unfold following_at.
  destruct (k <? length ts - 1); [discriminate|].
  destruct (Nat.leb_spec 2 (length ts)); [discriminate | lia].
Qed.

Lemma scan_triple_no_exception (kws : list str) (expr : pp.element) (close : str)
    (st : VBNet.scan) (triple : nat * str * option (list str)) :
  snd triple <> None ->
  exists st' : VBNet.scan, VBNet.scan_triple kws expr close st triple = Some (st', None).
Proof.
  destruct triple as [[index obj] [following|]]; [intros _ | done].
  unfold VBNet.scan_triple. destruct (Py.mem obj kws && _); [|eauto].
  cbn [ParsingMixin.create_read_ahead_string].
  destruct (pp.parseString expr _); [|eauto].
  destruct (capture_body_ends close obj (default [] (Some following))) as [c ->].
  eauto.
Qed.

Lemma scan_entities_no_exception (kws : list str) (expr : pp.element) (close : str)
    (triples : list (nat * str * option (list str))) :
  Forall (fun triple => snd triple <> None) triples ->
  forall st : VBNet.scan,
  exists st' : VBNet.scan,
    VBNet.scan_entities kws expr close triples st = Some (st', None).
Proof.
  induction 1 as [|triple rest Htriple _ IH]; intros st; cbn [VBNet.scan_entities].
  - eauto.
  - destruct (scan_triple_no_exception kws expr close st triple Htriple) as [st1 ->].
    apply IH.
Qed.

(** X11. The entity scan raises in one case only. Over a token list of any
    length but one it ends without an exception. Over a single token it
    raises the [TypeError] of the read-ahead string when the token is an
    entity keyword and the token before it was not the closing keyword,
    the state left as it was; otherwise it ends normally. *)
Theorem entity_scan_raises_on_a_lone_keyword (entity_keywords : list str)
    (entity_expression : pp.element) (close_scope_character : str) (st : VBNet.scan) :
  (forall tokens : list str,
      length tokens <> 1 ->
      exists st' : VBNet.scan,
        VBNet.scan_entities entity_keywords entity_expression close_scope_character
          (ParsingMixin._gen_word_read_ahead tokens) st
        = Some (st', None))
  /\ (forall token : str,
        Py.mem token entity_keywords = true ->
        VBNet.previous_obj st <> close_scope_character ->
        VBNet.scan_entities entity_keywords entity_expression close_scope_character
          (ParsingMixin._gen_word_read_ahead [token]) st
        = Some (st, Some Py.TypeError))
  /\ (forall token : str,
        Py.mem token entity_keywords = false
        \/ VBNet.previous_obj st = close_scope_character ->
        VBNet.scan_entities entity_keywords entity_expression close_scope_character
          (ParsingMixin._gen_word_read_ahead [token]) st
        = Some (VBNet.mkScan token (VBNet.found_entities st) (VBNet.scan_statistics st),
                None)).
Proof.
  split; [|split].
  - intros tokens Hlen. apply scan_entities_no_exception.
    now apply read_ahead_following.
  - intros token Hmem Hprev. cbn. rewrite Hmem.
    apply str_eqb_neq in Hprev. now rewrite Hprev.
  - intros token Hcase. cbn.
    destruct Hcase as [->|Hprev]; [reflexivity|].
    apply str_eqb_eq in Hprev. rewrite Hprev. now rewrite andb_false_r.
Qed.

(** ** The entities of one file *)

(** what [create_entity_results] builds: one entity per entry, in order,
    each with two new list objects *)
Lemma create_entity_results_spec (result : FileResult.t) (found : list (str * list str)) :
  forall h : Heap.t,
    let created := fst (VBNet.create_entity_results result found h) in
    let h' := snd (VBNet.create_entity_results result found h) in
    map EntityResult.entity_name created = map fst found
    /\ map EntityResult.scanned_tokens created = map snd found
    /\ Heap.next h' = Heap.next h + 2 * length found
    /\ (forall a : loc, a < Heap.next h -> Heap.read h' a = Heap.read h a)
    /\ Forall (fun e =>
                 EntityResult.parent_file_result e = result
                 /\ EntityResult.unique_name e = EntityResult.entity_name e
                 /\ EntityResult.absolute_name e
                    = FileResult.absolute_name result ++ "/" ++ EntityResult.entity_name e
                 /\ Heap.next h <= EntityResult.scanned_import_dependencies e
                 /\ EntityResult.scanned_inheritance_dependencies e
                    = S (EntityResult.scanned_import_dependencies e)
                 /\ Heap.read h' (EntityResult.scanned_import_dependencies e) = []
                 /\ Heap.read h' (EntityResult.scanned_inheritance_dependencies e) = [])
         created
    /\ NoDup (map EntityResult.scanned_import_dependencies created)
    /\ Forall (fun e => EntityResult.scanned_import_dependencies e + 1 < Heap.next h')
         created.
Proof.
  induction found as [|[name tokens] found IH]; intros h.
  - cbn. repeat split; try constructor; lia.
  - cbn [VBNet.create_entity_results].
    destruct (Heap.alloc h []) as [imports h1] eqn:H1.
    destruct (Heap.alloc h1 []) as [inheritance h2] eqn:H2.
    specialize (IH h2).
    destruct (VBNet.create_entity_results result found h2) as [created h'] eqn:Hc.
    cbn [fst snd] in IH |- *.
    destruct IH as (Hnames & Htokens & Hnext & Hold & Hall & Hsorted & Hbelow).
    assert (Hi : imports = Heap.next h) by (unfold Heap.alloc in H1; congruence).
    assert (Hn1 : Heap.next h1 = S (Heap.next h))
      by (unfold Heap.alloc in H1; injection H1 as _ <-; reflexivity).
    assert (Hj : inheritance = S (Heap.next h))
      by (unfold Heap.alloc in H2; injection H2 as <- _; exact Hn1).
    assert (Hn2 : Heap.next h2 = S (S (Heap.next h)))
      by (unfold Heap.alloc in H2; injection H2 as _ <-; cbn; now rewrite Hn1).
    assert (Hr1 : Heap.read h2 imports = []).
    { replace h2 with (snd (Heap.alloc h1 [])) by now rewrite H2.
      rewrite heap_read_alloc_old by lia.
      replace h1 with (snd (Heap.alloc h [])) by now rewrite H1.
      subst imports. apply (heap_read_alloc_new h []). }
    assert (Hr2 : Heap.read h2 inheritance = []).
    { replace h2 with (snd (Heap.alloc h1 [])) by now rewrite H2.
      replace inheritance with (fst (Heap.alloc h1 [])) by now rewrite H2.
      apply heap_read_alloc_new. }
    split; [cbn [map fst]; now f_equal|].
    split; [cbn [map snd]; now f_equal|].
    split; [cbn [length]; lia|].
    split.
    { intros a Ha. rewrite Hold by lia.
      replace h2 with (snd (Heap.alloc h1 [])) by now rewrite H2.
      rewrite heap_read_alloc_old by lia.
      replace h1 with (snd (Heap.alloc h [])) by now rewrite H1.
      apply heap_read_alloc_old. lia. }
    split.
    { constructor.
      - cbn. repeat split; try lia; rewrite Hold by lia; assumption.
      - eapply Forall_impl; [exact Hall|]. cbn beta.
        intros e (? & ? & ? & ? & ? & ? & ?). repeat split; auto; lia. }
    split.
    { cbn [map]. constructor; [|exact Hsorted].
      intros Hin. apply list_elem_of_fmap in Hin as (e & He & Hin). cbn in He.
      rewrite Forall_forall in Hall. destruct (Hall e Hin) as (_ & _ & _ & Hge & _).
      lia. }
    constructor; [cbn; lia | exact Hbelow].
Qed.

Lemma scan_triple_found (kws : list str) (expr : pp.element) (close : str)
    (st st' : VBNet.scan) (triple : nat * str * option (list str)) (e : option Py.exn) :
  VBNet.scan_triple kws expr close st triple = Some (st', e) ->
  (NoDup (Dict.keys (VBNet.found_entities st)) ->
   NoDup (Dict.keys (VBNet.found_entities st')))
  /\ Statistics.parsing_hits (VBNet.scan_statistics st)
     <= Statistics.parsing_hits (VBNet.scan_statistics st')
  /\ Statistics.parsing_misses (VBNet.scan_statistics st)
     <= Statistics.parsing_misses (VBNet.scan_statistics st')
  /\ length (VBNet.found_entities st') + Statistics.parsing_hits (VBNet.scan_statistics st)
     <= length (VBNet.found_entities st)
        + Statistics.parsing_hits (VBNet.scan_statistics st').
Proof.
  destruct triple as [[index obj] following]. unfold VBNet.scan_triple.
  destruct (Py.mem obj kws && _).
  2:{ intros [= <- <-]. cbn. repeat split; auto; lia. }
  destruct (ParsingMixin.create_read_ahead_string obj following) as [s|x].
  2:{ intros [= <- <-]. repeat split; auto; lia. }
  destruct (pp.parseString expr s) as [parsing_result|].
  2:{ intros [= <- <-]. cbn. repeat split; auto; lia. }
  destruct (VBNet.capture_body close obj _) as [c|]; [|discriminate].
  intros [= <- <-]. cbn [VBNet.found_entities VBNet.scan_statistics].
  split; [apply dict_keys_set_NoDup|].
  cbn. repeat split; try lia.
  assert (Hlen : forall (d : Dict.t (list str)) k v,
             length (Dict.set d k v) <= S (length d)).
  { induction d as [|[k' v'] d IHd]; intros k v; cbn [Dict.set length]; [lia|].
    destruct (Py.str_eqb k' k); cbn [length]; [lia|]. specialize (IHd k v). lia. }
  specialize (Hlen (VBNet.found_entities st)
                (VBNet.parsed_entity_name parsing_result) (VBNet.captured c)).
  lia.
Qed.

Lemma scan_entities_found (kws : list str) (expr : pp.element) (close : str)
    (triples : list (nat * str * option (list str))) :
  forall (st st' : VBNet.scan) (e : option Py.exn),
    VBNet.scan_entities kws expr close triples st = Some (st', e) ->
    (NoDup (Dict.keys (VBNet.found_entities st)) ->
     NoDup (Dict.keys (VBNet.found_entities st')))
    /\ Statistics.parsing_hits (VBNet.scan_statistics st)
       <= Statistics.parsing_hits (VBNet.scan_statistics st')
    /\ Statistics.parsing_misses (VBNet.scan_statistics st)
       <= Statistics.parsing_misses (VBNet.scan_statistics st')
    /\ length (VBNet.found_entities st') + Statistics.parsing_hits (VBNet.scan_statistics st)
       <= length (VBNet.found_entities st)
          + Statistics.parsing_hits (VBNet.scan_statistics st').
Proof.
  induction triples as [|triple rest IH]; intros st st' e; cbn [VBNet.scan_entities].
  - intros [= <- <-]. repeat split; auto; lia.
  - destruct (VBNet.scan_triple kws expr close st triple) as [[st1 [x|]]|] eqn:Hstep;
      [| |discriminate].
    + intros [= <- <-]. now apply scan_triple_found in Hstep.
    + intros Hrest. apply scan_triple_found in Hstep. apply IH in Hrest.
      destruct Hstep as (H1 & H2 & H3 & H4), Hrest as (H1' & H2' & H3' & H4').
      repeat split; auto; lia.
Qed.

(** X12. The entities returned for a file result have pairwise distinct
    names and pairwise distinct import lists, all of them new and empty;
    each has the file result as its parent, its entity name as unique
    name, and the absolute name of the file, a slash and the entity name
    as absolute name. The lists that existed before and the registry are
    as they were; the hit counter grows by at least the number of entities
    and the miss counter does not decrease. *)
Theorem vb_scope_entities (p : Parser) (result : FileResult.t)
    (entity_keywords : list str) (entity_expression : pp.element)
    (comment_keywords : VBNet.markers) (created : list EntityResult.t) (p' : Parser) :
  VBNet.generate_entity_results_from_scopes p result entity_keywords
    entity_expression comment_keywords = Some (Py.Ok created, p') ->
  NoDup (map EntityResult.entity_name created)
  /\ NoDup (map EntityResult.scanned_import_dependencies created)
  /\ Forall (fun e =>
               EntityResult.parent_file_result e = result
               /\ EntityResult.unique_name e = EntityResult.entity_name e
               /\ EntityResult.absolute_name e
                  = FileResult.absolute_name result ++ "/" ++ EntityResult.entity_name e
               /\ Heap.next (heap p) <= EntityResult.scanned_import_dependencies e
               /\ Heap.read (heap p') (EntityResult.scanned_import_dependencies e) = [])
       created
  /\ (forall a : loc, a < Heap.next (heap p) ->
        Heap.read (heap p') a = Heap.read (heap p) a)
  /\ _results p' = _results p
  /\ Statistics.parsing_hits (statistics p) + length created
     <= Statistics.parsing_hits (statistics p')
  /\ Statistics.parsing_misses (statistics p)
     <= Statistics.parsing_misses (statistics p').
Proof.
  unfold VBNet.generate_entity_results_from_scopes.
  destruct (VBNet.scan_entities _ _ _ _ _) as [[st [e|]]|] eqn:Hscan;
    [discriminate| |discriminate].
  apply scan_entities_found in Hscan.
  cbn [VBNet.found_entities VBNet.scan_statistics] in Hscan.
  destruct Hscan as (Hnodup & Hhits & Hmisses & Hcount).
  pose proof (create_entity_results_spec result (VBNet.found_entities st) (heap p))
    as Hspec.
  destruct (VBNet.create_entity_results result (VBNet.found_entities st) (heap p))
    as [created' h'] eqn:Hc.
  cbn [fst snd] in Hspec.
  destruct Hspec as (Hnames & _ & _ & Hold & Hall & Hsorted & _).
  intros [= <- <-]. cbn [heap _results statistics].
  split; [rewrite Hnames; apply Hnodup; constructor|].
  split; [exact Hsorted|].
  split.
  { eapply Forall_impl; [exact Hall|]. cbn beta. tauto. }
  split; [exact Hold|]. split; [reflexivity|].
  assert (Hlen : length created' = length (VBNet.found_entities st)).
  { rewrite <- (length_map EntityResult.entity_name), Hnames. apply length_map. }
  cbn in Hcount. split; lia.
Qed.

(** X12, at the file with two classes. *)
Lemma vb_scope_entities_witness :
  map EntityResult.entity_name (created_of two_classes_scopes) = ["Public"; "Foo"]
  /\ NoDup (map EntityResult.entity_name (created_of two_classes_scopes))
  /\ NoDup (map EntityResult.scanned_import_dependencies (created_of two_classes_scopes)).
Proof.
  split; [vm_compute; reflexivity|].
  pose proof (vb_scope_entities two_classes_parser
                (file_result_at two_classes_parser "proj/Foo.vb")
                VBNet.entity_keywords VBNet.match_expression VBNet.comment_keywords
                (created_of two_classes_scopes) (parser_of two_classes_scopes)) as H.
  assert (Hrun : VBNet.generate_entity_results_from_scopes two_classes_parser
                   (file_result_at two_classes_parser "proj/Foo.vb")
                   VBNet.entity_keywords VBNet.match_expression VBNet.comment_keywords
                 = Some (Py.Ok (created_of two_classes_scopes),
                         parser_of two_classes_scopes))
    by (vm_compute; reflexivity).
  destruct (H Hrun) as (H1 & H2 & _). now split.
Defined.

(** ** Names on the ignore list *)


Lemma entity_results_set (d : Dict.t AbstractResult) (k : str) (e : EntityResult.t)
    (Q : EntityResult.t -> Prop) :
  Q e -> Forall Q (VBNet.entity_results d) ->
  Forall Q (VBNet.entity_results (Dict.set d k (IsEntity e))).
Proof.
  intros He. unfold VBNet.entity_results.
  induction d as [|[k' v] d IH]; intros Hd; cbn [Dict.set flat_map snd].
  - now repeat constructor.
  - cbn [flat_map snd] in Hd. apply Forall_app in Hd as [Hv Hd].
    destruct (Py.str_eqb k' k); cbn [flat_map snd].
    + now constructor.
    + apply Forall_app. split; [assumption | now apply IH].
Qed.

Lemma vb_keep_entities_not_ignored (tokens : list str) (unfiltered : list EntityResult.t) :
  forall h : Heap.t,
    Forall not_ignored (fst (VBNet.keep_entities tokens unfiltered h))
    /\ fst (VBNet.keep_entities tokens unfiltered h)
       = List.filter
           (fun e => negb (Py.mem (EntityResult.entity_name e)
                             VBNet._ignore_entity_keywords))
           unfiltered.
Proof.
  induction unfiltered as [|e rest IH]; intros h; cbn [VBNet.keep_entities List.filter].
  - split; [constructor | reflexivity].
  - destruct (Py.mem (EntityResult.entity_name e) VBNet._ignore_entity_keywords) eqn:E;
      cbn [negb].
    + apply IH.
    + destruct (VBNet.keep_entities tokens rest _) as [kept h'] eqn:Hk.
      specialize (IH (VBNet._add_imports_to_single_entity_result e tokens h)).
      rewrite Hk in IH. cbn [fst] in IH |- *. destruct IH as [IH1 IH2].
      split; [now constructor | now f_equal].
Qed.

Lemma vb_store_entities_not_ignored (entity_results : list EntityResult.t) :
  forall p : Parser,
    Forall not_ignored entity_results ->
    Forall not_ignored (VBNet.entity_results (_results p)) ->
    Forall not_ignored
      (VBNet.entity_results (_results (VBNet.store_entities entity_results p))).
Proof.
  induction entity_results as [|e rest IH]; intros p Hes Hp; [exact Hp|].
  inversion Hes as [|? ? He Hrest]; subst.
  cbn [VBNet.store_entities]. apply IH; [assumption|]. cbn [_results].
  now apply entity_results_set.
Qed.

Lemma vb_scopes_results (p : Parser) (result : FileResult.t) (kws : list str)
    (expr : pp.element) (cm : VBNet.markers) (r : Py.result (list EntityResult.t))
    (p' : Parser) :
  VBNet.generate_entity_results_from_scopes p result kws expr cm = Some (r, p') ->
  _results p' = _results p.
Proof.
  unfold VBNet.generate_entity_results_from_scopes.
  destruct (VBNet.scan_entities _ _ _ _ _) as [[st [e|]]|]; [| |discriminate].
  - now intros [= <- <-].
  - destruct (VBNet.create_entity_results _ _ _). now intros [= <- <-].
Qed.

Lemma vb_entity_results_of_files_not_ignored (files : list FileResult.t) :
  forall (p : Parser) (r : Py.result unit) (p' : Parser),
    Forall not_ignored (VBNet.entity_results (_results p)) ->
    VBNet.entity_results_of_files files p = Some (r, p') ->
    Forall not_ignored (VBNet.entity_results (_results p')).
Proof.
  induction files as [|result rest IH]; intros p r p' Hp; cbn [VBNet.entity_results_of_files].
  - now intros [= <- <-].
  - destruct (VBNet.generate_entity_results_from_scopes _ _ _ _ _)
      as [[[unfiltered|e] p1]|] eqn:Hscopes; [| |discriminate].
    + apply vb_scopes_results in Hscopes.
      destruct (VBNet.keep_entities _ unfiltered (heap p1)) as [kept h] eqn:Hkeep.
      intros Hrun. apply IH in Hrun; [exact Hrun|].
      apply vb_store_entities_not_ignored.
      * pose proof (vb_keep_entities_not_ignored
                      (FileResult.scanned_tokens result) unfiltered (heap p1)) as [H _].
        now rewrite Hkeep in H.
      * cbn [set_heap _results]. now rewrite Hscopes.
    + apply vb_scopes_results in Hscopes. intros [= <- <-]. now rewrite Hscopes.
Qed.

(** X13. No run of [generate_entity_results_from_analysis] registers an
    entity named by a keyword of the ignore list: if the registry holds
    none before the run it holds none after it, whether the run ends
    normally or by an exception. *)
Theorem vb_ignored_names_are_never_registered (p : Parser) (r : Py.result unit)
    (p' : Parser) :
  Forall not_ignored (VBNet.entity_results (_results p)) ->
  VBNet.generate_entity_results_from_analysis p = Some (r, p') ->
  Forall not_ignored (VBNet.entity_results (_results p')).
Proof.
  intros Hp Hrun. unfold VBNet.generate_entity_results_from_analysis in Hrun.
  now apply (vb_entity_results_of_files_not_ignored _ _ _ _ Hp Hrun).
Qed.

(** X13, at the file with two classes, one of them named [Public]. *)
Lemma vb_ignored_names_are_never_registered_witness :
  map EntityResult.entity_name
    (VBNet.entity_results (_results (parser_of two_classes_run))) = ["Foo"]
  /\ Forall not_ignored (VBNet.entity_results (_results (parser_of two_classes_run))).
Proof.
  split; [vm_compute; reflexivity|].
  apply (vb_ignored_names_are_never_registered two_classes_parser (Py.Ok tt)
           (parser_of two_classes_run)).
  - vm_compute. constructor.
  - vm_compute. reflexivity.
Defined.

(** ** Registering a list of entities *)

Lemma last_filter_cons {A} (f : A -> bool) (x : A) (l : list A) :
  last (List.filter f (x :: l))
  = match last (List.filter f l) with
    | Some y => Some y
    | None => if f x then Some x else None
    end.
Proof.
  cbn [List.filter]. destruct (f x); [|now destruct (last _)].
  destruct (List.filter f l) as [|y l'] eqn:E; [reflexivity|].
  rewrite last_cons. now destruct (last (y :: l')).
Qed.

Lemma vb_store_entities_get (entity_results : list EntityResult.t) :
  forall (p : Parser) (k : str),
    Dict.get (_results (VBNet.store_entities entity_results p)) k
    = match last (List.filter
                    (fun e => Py.str_eqb (EntityResult.entity_name e) k)
                    entity_results) with
      | Some e => Some (IsEntity e)
      | None => Dict.get (_results p) k
      end.
Proof.
  induction entity_results as [|e rest IH]; intros p k; [reflexivity|].
  cbn [VBNet.store_entities]. rewrite IH, last_filter_cons. cbn [_results].
  destruct (last _); [reflexivity|].
  destruct (Py.str_eqb (EntityResult.entity_name e) k) eqn:E.
  - apply str_eqb_eq in E. subst. apply dict_get_set_eq.
  - apply str_eqb_neq in E. now apply dict_get_set_ne.
Qed.

Lemma vb_store_entities_keys (entity_results : list EntityResult.t) :
  forall p : Parser,
    NoDup (Dict.keys (_results p)) ->
    NoDup (Dict.keys (_results (VBNet.store_entities entity_results p))).
Proof.
  induction entity_results as [|e rest IH]; intros p Hp; [exact Hp|].
  cbn [VBNet.store_entities]. apply IH. cbn [_results].
  now apply dict_keys_set_NoDup.
Qed.

Lemma cs_register_entity_results_get (entity_results : list EntityResult.t) :
  forall (p : Parser) (k : str),
    Dict.get (_results (CSharp.register_entity_results entity_results p)) k
    = match last (List.filter
                    (fun e => Py.str_eqb (EntityResult.entity_name e) k)
                    entity_results) with
      | Some e => Some (IsEntity e)
      | None => Dict.get (_results p) k
      end.
Proof.
  induction entity_results as [|e rest IH]; intros p k; [reflexivity|].
  cbn [CSharp.register_entity_results]. rewrite IH, last_filter_cons. cbn [_results].
  destruct (last _); [reflexivity|].
  destruct (Py.str_eqb (EntityResult.entity_name e) k) eqn:E.
  - apply str_eqb_eq in E. subst. apply dict_get_set_eq.
  - apply str_eqb_neq in E. now apply dict_get_set_ne.
Qed.

Lemma cs_register_entity_results_keys (entity_results : list EntityResult.t) :
  forall p : Parser,
    NoDup (Dict.keys (_results p)) ->
    NoDup (Dict.keys (_results (CSharp.register_entity_results entity_results p))).
Proof.
  induction entity_results as [|e rest IH]; intros p Hp; [exact Hp|].
  cbn [CSharp.register_entity_results]. apply IH. cbn [_results].
  now apply dict_keys_set_NoDup.
Qed.

(** X14. After a list of entities is registered, a name is bound to the
    last entity of the list that has it, every other key keeps its record,
    and the keys stay unique, in the VB.NET as in the C# parser. *)
Theorem registration_keeps_the_last (entity_results : list EntityResult.t)
    (p : Parser) (k : str) :
  let latest :=
    last (List.filter (fun e => Py.str_eqb (EntityResult.entity_name e) k)
            entity_results) in
  Dict.get (_results (VBNet.store_entities entity_results p)) k
  = match latest with
    | Some e => Some (IsEntity e)
    | None => Dict.get (_results p) k
    end
  /\ Dict.get (_results (CSharp.register_entity_results entity_results p)) k
     = match latest with
       | Some e => Some (IsEntity e)
       | None => Dict.get (_results p) k
       end
  /\ (NoDup (Dict.keys (_results p)) ->
      NoDup (Dict.keys (_results (VBNet.store_entities entity_results p)))
      /\ NoDup (Dict.keys (_results (CSharp.register_entity_results entity_results p)))).
Proof.
  intros latest. split; [apply vb_store_entities_get|].
  split; [apply cs_register_entity_results_get|].
  intros Hp. split; [now apply vb_store_entities_keys|].
  now apply cs_register_entity_results_keys.
Qed.

(** ** Keyword and word *)

Lemma span_chars (chars : ascii -> bool) (s : str) :
  forallb chars (fst (pp.span chars s)) = true.
Proof.
  induction s as [|c s IH]; [reflexivity|]. cbn [pp.span].
  destruct (chars c) eqn:Hc; [|reflexivity].
  destruct (pp.span chars s) as [w r]. cbn [fst forallb] in *. now rewrite Hc.
Qed.

Lemma keyword_tokens (k s : str) (tokens : list str) (rest : str) :
  pp.Keyword k s = Some (tokens, rest) -> tokens = [k].
Proof.
  unfold pp.Keyword. destruct (Py.startswith _ k); [|discriminate].
  destruct (drop _ _) as [|c r]; [now intros [= <- _]|].
  destruct (pp.ident_char c); [discriminate | now intros [= <- _]].
Qed.

Lemma word_tokens (chars : ascii -> bool) (s : str) (tokens : list str) (rest : str) :
  pp.Word chars s = Some (tokens, rest) ->
  exists w : str, tokens = [w] /\ w <> [] /\ forallb chars w = true.
Proof.
  unfold pp.Word. pose proof (span_chars chars (pp.skip_white s)) as Hspan.
  destruct (pp.span chars (pp.skip_white s)) as [[|c w] r]; [discriminate|].
  intros [= <- _]. exists (c :: w). now repeat split.
Qed.

(** what a header of a keyword and a word matches, whatever follows
    them in the grammar *)
Lemma keyword_word_name (k : str) (chars : ascii -> bool) (tail : pp.element)
    (s : str) (parsing_result : list str) :
  pp.parseString (pp.And (pp.And (pp.Keyword k) (pp.Word chars)) tail) s
  = Some parsing_result ->
  nth 1 parsing_result "" <> "" /\ forallb chars (nth 1 parsing_result "") = true.
Proof.
  unfold pp.parseString, pp.And.
  destruct (pp.Keyword k s) as [[t1 r1]|] eqn:Hk; [|discriminate].
  destruct (pp.Word chars r1) as [[t2 r2]|] eqn:Hw; [|discriminate].
  destruct (tail r2) as [[t3 r3]|]; [|discriminate].
  apply keyword_tokens in Hk. apply word_tokens in Hw as (w & -> & Hne & Hw).
  subst t1. cbn. intros [= <-]. cbn. now split.
Qed.

Lemma keyword_word_name2 (k : str) (chars : ascii -> bool)
    (s : str) (parsing_result : list str) :
  pp.parseString (pp.And (pp.Keyword k) (pp.Word chars)) s = Some parsing_result ->
  nth 1 parsing_result "" <> "" /\ forallb chars (nth 1 parsing_result "") = true.
Proof.
  unfold pp.parseString, pp.And.
  destruct (pp.Keyword k s) as [[t1 r1]|] eqn:Hk; [|discriminate].
  destruct (pp.Word chars r1) as [[t2 r2]|] eqn:Hw; [|discriminate].
  apply keyword_tokens in Hk. apply word_tokens in Hw as (w & -> & Hne & Hw).
  subst t1. cbn. intros [= <-]. cbn. now split.
Qed.

(** ** Entity names are words *)

Lemma vb_header_keyword (s : str) (tokens : list str) (rest : str) :
  pp.MatchFirst (pp.Keyword VBNet.CLASS)
    (pp.MatchFirst (pp.Keyword VBNet.STRUCT)
       (pp.MatchFirst (pp.Keyword VBNet.INTERFACE) (pp.Keyword VBNet.ENUM))) s
  = Some (tokens, rest) ->
  exists k : str, tokens = [k].
Proof.
  unfold pp.MatchFirst.
  destruct (pp.Keyword VBNet.CLASS s) as [[t r]|] eqn:H1.
  { intros [= <- <-]. apply keyword_tokens in H1. eauto. }
  destruct (pp.Keyword VBNet.STRUCT s) as [[t r]|] eqn:H2.
  { intros [= <- <-]. apply keyword_tokens in H2. eauto. }
  destruct (pp.Keyword VBNet.INTERFACE s) as [[t r]|] eqn:H3.
  { intros [= <- <-]. apply keyword_tokens in H3. eauto. }
  intros H4. apply keyword_tokens in H4. eauto.
Qed.

Lemma vb_match_expression_name (s : str) (parsing_result : list str) :
  pp.parseString VBNet.match_expression s = Some parsing_result ->
  vb_word (VBNet.parsed_entity_name parsing_result).
Proof.
  unfold pp.parseString, VBNet.match_expression, pp.And.
  destruct (pp.MatchFirst _ _ s) as [[t1 r1]|] eqn:Hk; [|discriminate].
  destruct (pp.Word VBNet.entity_name_chars r1) as [[t2 r2]|] eqn:Hw; [|discriminate].
  apply vb_header_keyword in Hk as [k ->].
  apply word_tokens in Hw as (w & -> & Hne & Hw).
  cbn. intros [= <-]. now split.
Qed.

Lemma dict_set_keys_Forall {V} (P : str -> Prop) (d : Dict.t V) (k : str) (v : V) :
  Forall P (Dict.keys d) -> P k -> Forall P (Dict.keys (Dict.set d k v)).
Proof.
  intros Hd Hk. induction d as [|[k' v'] d IH]; cbn [Dict.set].
  - now repeat constructor.
  - cbn [Dict.keys map fst] in Hd. inversion Hd as [|? ? Hk' Hd']; subst.
    destruct (Py.str_eqb k' k); cbn [Dict.keys map fst].
    + now constructor.
    + constructor; [assumption | now apply IH].
Qed.

Lemma vb_scan_triple_words (kws : list str) (close : str) (st st' : VBNet.scan)
    (triple : nat * str * option (list str)) (e : option Py.exn) :
  Forall vb_word (Dict.keys (VBNet.found_entities st)) ->
  VBNet.scan_triple kws VBNet.match_expression close st triple = Some (st', e) ->
  Forall vb_word (Dict.keys (VBNet.found_entities st')).
Proof.
  intros Hst. destruct triple as [[index obj] following]. unfold VBNet.scan_triple.
  destruct (Py.mem obj kws && _); [|now intros [= <- <-]].
  destruct (ParsingMixin.create_read_ahead_string obj following) as [s|x];
    [|now intros [= <- <-]].
  destruct (pp.parseString VBNet.match_expression s) as [parsing_result|] eqn:Hparse;
    [|now intros [= <- <-]].
  destruct (VBNet.capture_body close obj _) as [c|]; [|discriminate].
  intros [= <- <-]. cbn [VBNet.found_entities].
  apply dict_set_keys_Forall; [assumption|].
  now apply vb_match_expression_name in Hparse.
Qed.

Lemma vb_scan_entities_words (kws : list str) (close : str)
    (triples : list (nat * str * option (list str))) :
  forall (st st' : VBNet.scan) (e : option Py.exn),
    Forall vb_word (Dict.keys (VBNet.found_entities st)) ->
    VBNet.scan_entities kws VBNet.match_expression close triples st = Some (st', e) ->
    Forall vb_word (Dict.keys (VBNet.found_entities st')).
Proof.
  induction triples as [|triple rest IH]; intros st st' e Hst;
    cbn [VBNet.scan_entities].
  - now intros [= <- <-].
  - destruct (VBNet.scan_triple kws VBNet.match_expression close st triple)
      as [[st1 [x|]]|] eqn:Hstep; [| |discriminate].
    + intros [= <- <-]. eapply vb_scan_triple_words; eassumption.
    + apply IH. eapply vb_scan_triple_words; eassumption.
Qed.

Lemma vb_scopes_words (p : Parser) (result : FileResult.t) (kws : list str)
    (cm : VBNet.markers) (created : list EntityResult.t) (p' : Parser) :
  VBNet.generate_entity_results_from_scopes p result kws VBNet.match_expression cm
  = Some (Py.Ok created, p') ->
  Forall (fun e => vb_word (EntityResult.entity_name e)) created.
Proof.
  unfold VBNet.generate_entity_results_from_scopes.
  destruct (VBNet.scan_entities _ _ _ _ _) as [[st [e|]]|] eqn:Hscan;
    [discriminate| |discriminate].
  apply vb_scan_entities_words in Hscan; [|constructor].
  pose proof (create_entity_results_spec result (VBNet.found_entities st) (heap p))
    as Hspec.
  destruct (VBNet.create_entity_results result (VBNet.found_entities st) (heap p))
    as [created' h'].
  cbn [fst snd] in Hspec. destruct Hspec as (Hnames & _).
  intros [= <- <-]. apply Forall_forall. intros e He.
  rewrite Forall_forall in Hscan. apply Hscan. unfold Dict.keys.
  rewrite <- Hnames. apply list_elem_of_fmap. now exists e.
Qed.

Lemma vb_store_entities_other_keys (entity_results : list EntityResult.t)
    (p : Parser) (k : str) :
  Forall (fun e => vb_word (EntityResult.entity_name e)) entity_results ->
  ~ vb_word k ->
  Dict.get (_results (VBNet.store_entities entity_results p)) k = Dict.get (_results p) k.
Proof.
  intros Hwords Hk. rewrite vb_store_entities_get.
  replace (List.filter (fun e => Py.str_eqb (EntityResult.entity_name e) k)
             entity_results) with (@nil EntityResult.t); [reflexivity|].
  symmetry. induction Hwords as [|e rest He _ IH]; [reflexivity|].
  cbn [List.filter].
  destruct (Py.str_eqb (EntityResult.entity_name e) k) eqn:E; [|exact IH].
  apply str_eqb_eq in E. subst k. contradiction.
Qed.

Lemma vb_store_entities_words (entity_results : list EntityResult.t) :
  forall p : Parser,
    Forall (fun e => vb_word (EntityResult.entity_name e)) entity_results ->
    Forall (fun e => vb_word (EntityResult.entity_name e))
      (VBNet.entity_results (_results p)) ->
    Forall (fun e => vb_word (EntityResult.entity_name e))
      (VBNet.entity_results (_results (VBNet.store_entities entity_results p))).
Proof.
  induction entity_results as [|e rest IH]; intros p Hes Hp; [exact Hp|].
  inversion Hes as [|? ? He Hrest]; subst.
  cbn [VBNet.store_entities]. apply IH; [assumption|]. cbn [_results].
  now apply entity_results_set.
Qed.

Lemma vb_entity_results_of_files_words (files : list FileResult.t) :
  forall (p : Parser) (r : Py.result unit) (p' : Parser),
    VBNet.entity_results_of_files files p = Some (r, p') ->
    (forall k : str,
        ~ vb_word k -> Dict.get (_results p') k = Dict.get (_results p) k)
    /\ (Forall (fun e => vb_word (EntityResult.entity_name e))
          (VBNet.entity_results (_results p)) ->
        Forall (fun e => vb_word (EntityResult.entity_name e))
          (VBNet.entity_results (_results p'))).
Proof.
  induction files as [|result rest IH]; intros p r p'; cbn [VBNet.entity_results_of_files].
  - intros [= <- <-]. now split.
  - destruct (VBNet.generate_entity_results_from_scopes _ _ _ _ _)
      as [[[unfiltered|e] p1]|] eqn:Hscopes; [| |discriminate].
    + pose proof (vb_scopes_results _ _ _ _ _ _ _ Hscopes) as Hresults.
      apply vb_scopes_words in Hscopes.
      pose proof (vb_keep_entities_not_ignored
                    (FileResult.scanned_tokens result) unfiltered (heap p1)) as [_ Hkeep].
      destruct (VBNet.keep_entities _ unfiltered (heap p1)) as [kept h] eqn:Hk.
      cbn [fst] in Hkeep.
      assert (Hkept : Forall (fun e => vb_word (EntityResult.entity_name e)) kept).
      { rewrite Hkeep. rewrite Forall_forall in Hscopes |- *.
        intros e He. apply Hscopes. apply list_elem_of_In in He.
        apply List.filter_In in He as [He _]. now apply list_elem_of_In. }
      intros Hrun. apply IH in Hrun as [Hget Hwords]. split.
      * intros k Hk'. rewrite (Hget k Hk').
        rewrite vb_store_entities_other_keys by assumption.
        cbn [set_heap _results]. now rewrite Hresults.
      * intros Hp. apply Hwords. apply vb_store_entities_words; [assumption|].
        cbn [set_heap _results]. now rewrite Hresults.
    + pose proof (vb_scopes_results _ _ _ _ _ _ _ Hscopes) as Hresults.
      intros [= <- <-]. rewrite Hresults. now split.
Qed.

(** X15. The names of the entities the VB.NET parser registers are
    non-empty words of letters, digits and underscores. So a run of
    [generate_entity_results_from_analysis] leaves every key of the
    registry that is no such word, a file path with its dot or slash among
    them, bound as it was. *)
Theorem vb_entities_leave_file_results (p : Parser) (r : Py.result unit) (p' : Parser) :
  VBNet.generate_entity_results_from_analysis p = Some (r, p') ->
  (forall k : str,
      k = "" \/ forallb VBNet.entity_name_chars k = false ->
      Dict.get (_results p') k = Dict.get (_results p) k)
  /\ (Forall (fun e => vb_word (EntityResult.entity_name e))
        (VBNet.entity_results (_results p)) ->
      Forall (fun e => vb_word (EntityResult.entity_name e))
        (VBNet.entity_results (_results p'))).
Proof.
  intros Hrun. unfold VBNet.generate_entity_results_from_analysis in Hrun.
  apply vb_entity_results_of_files_words in Hrun as [Hget Hwords].
  split; [|exact Hwords].
  intros k Hk. apply Hget. intros [Hne Hchars].
  destruct Hk as [->|Hk]; [done | congruence].
Qed.

(** X15, at the file with two classes. *)
Lemma vb_entities_leave_file_results_witness :
  Dict.get (_results (parser_of two_classes_run)) "proj/Foo.vb"
  = Dict.get (_results two_classes_parser) "proj/Foo.vb"
  /\ Forall (fun e => vb_word (EntityResult.entity_name e))
       (VBNet.entity_results (_results (parser_of two_classes_run))).
Proof.
  destruct (vb_entities_leave_file_results two_classes_parser (Py.Ok tt)
              (parser_of two_classes_run)) as [Hget Hwords].
  - vm_compute. reflexivity.
  - split.
    + apply Hget. right. reflexivity.
    + apply Hwords. vm_compute. constructor.
Defined.

(** ** A loop over objects that hold lists of their own *)

Section OverCells.

Context {A : Type}.
Variables (cell : A -> loc) (step : Heap.t -> A -> Heap.t) (added : A -> list str).

Hypothesis step_read : forall (x : A) (h : Heap.t),
  Heap.read (step h x) (cell x) = Heap.read h (cell x) ++ added x.

Hypothesis step_frame : forall (x : A) (h : Heap.t) (a : loc),
  a <> cell x -> Heap.read (step h x) a = Heap.read h a.

Lemma over_cells_frame (l : list A) :
  forall (h : Heap.t) (a : loc),
    a ∉ map cell l -> Heap.read (fold_left step l h) a = Heap.read h a.
Proof.
  induction l as [|x l IH]; intros h a Ha; [reflexivity|].
  cbn [map] in Ha. apply not_elem_of_cons in Ha as [Hx Ha].
  cbn [fold_left]. rewrite IH by assumption. now apply step_frame.
Qed.

Lemma over_cells_read (l : list A) :
  forall h : Heap.t,
    NoDup (map cell l) ->
    Forall (fun x => Heap.read (fold_left step l h) (cell x)
                     = Heap.read h (cell x) ++ added x) l.
Proof.
  induction l as [|x l IH]; intros h Hnodup; [constructor|].
  cbn [map] in Hnodup. apply NoDup_cons in Hnodup as [Hx Hnodup].
  cbn [fold_left]. constructor.
  - rewrite over_cells_frame by assumption. apply step_read.
  - specialize (IH (step h x) Hnodup).
    rewrite Forall_forall in IH |- *. intros y Hy. rewrite (IH y Hy).
    f_equal. apply step_frame. intros Heq. apply Hx. rewrite <- Heq.
    apply list_elem_of_fmap. now exists y.
Qed.

End OverCells.

(** ** The entities of a file, registered *)

Lemma NoDup_map_filter {A B} (f : A -> B) (P : A -> bool) (l : list A) :
  NoDup (map f l) -> NoDup (map f (List.filter P l)).
Proof.
  induction l as [|x l IH]; intros H; [constructor|].
  cbn [map] in H. apply NoDup_cons in H as [Hx H]. cbn [List.filter].
  destruct (P x); [|now apply IH].
  cbn [map]. constructor; [|now apply IH].
  intros Hin. apply Hx. apply list_elem_of_fmap in Hin as (y & -> & Hy).
  apply list_elem_of_fmap. exists y. split; [reflexivity|].
  apply list_elem_of_In. apply list_elem_of_In in Hy.
  now apply List.filter_In in Hy as [Hy _].
Qed.

Lemma last_with_name (entity_results : list EntityResult.t) (e : EntityResult.t) :
  NoDup (map EntityResult.entity_name entity_results) ->
  e ∈ entity_results ->
  last (List.filter
          (fun e' => Py.str_eqb (EntityResult.entity_name e')
                       (EntityResult.entity_name e))
          entity_results)
  = Some e.
Proof.
  induction entity_results as [|x l IH]; intros Hnodup Hin;
    [now apply elem_of_nil in Hin|].
  cbn [map] in Hnodup. apply NoDup_cons in Hnodup as [Hx Hnodup].
  rewrite last_filter_cons.
  apply elem_of_cons in Hin as [->|Hin].
  - rewrite str_eqb_refl.
    replace (List.filter _ l) with (@nil EntityResult.t); [reflexivity|].
    symmetry. clear IH Hnodup. induction l as [|y l IHl]; [reflexivity|].
    cbn [map] in Hx. apply not_elem_of_cons in Hx as [Hy Hx].
    cbn [List.filter].
    destruct (Py.str_eqb (EntityResult.entity_name y) (EntityResult.entity_name x))
      eqn:E; [|now apply IHl].
    apply str_eqb_eq in E. congruence.
  - now rewrite IH.
Qed.

Lemma create_entity_results_cells (result : FileResult.t) (found : list (str * list str)) :
  forall h : Heap.t,
    Forall (fun e => exists i : nat,
                EntityResult.scanned_import_dependencies e = Heap.next h + 2 * i)
      (fst (VBNet.create_entity_results result found h)).
Proof.
  induction found as [|[name tokens] found IH]; intros h; [constructor|].
  cbn [VBNet.create_entity_results].
  destruct (Heap.alloc h []) as [imports h1] eqn:H1.
  destruct (Heap.alloc h1 []) as [inheritance h2] eqn:H2.
  specialize (IH h2).
  destruct (VBNet.create_entity_results result found h2) as [created h'].
  cbn [fst] in IH |- *.
  assert (Hi : imports = Heap.next h) by (unfold Heap.alloc in H1; congruence).
  assert (Hn2 : Heap.next h2 = Heap.next h + 2).
  { unfold Heap.alloc in H1, H2. injection H1 as _ <-. injection H2 as _ <-.
    cbn. lia. }
  constructor.
  - exists 0. cbn. lia.
  - eapply Forall_impl; [exact IH|]. cbn beta. intros e [i Hi'].
    exists (S i). lia.
Qed.

Lemma vb_keep_entities_fold (tokens : list str) (unfiltered : list EntityResult.t) :
  forall h : Heap.t,
    VBNet.keep_entities tokens unfiltered h
    = (vb_kept unfiltered,
       fold_left (fun h e => VBNet._add_imports_to_single_entity_result e tokens h)
         (vb_kept unfiltered) h).
Proof.
  unfold vb_kept.
  induction unfiltered as [|e rest IH]; intros h;
    cbn [VBNet.keep_entities List.filter]; [reflexivity|].
  destruct (Py.mem (EntityResult.entity_name e) VBNet._ignore_entity_keywords);
    cbn [negb]; [apply IH|].
  now rewrite IH.
Qed.

Lemma vb_store_entities_heap (entity_results : list EntityResult.t) :
  forall p : Parser,
    heap (VBNet.store_entities entity_results p)
    = fold_left (fun h e => VBNet._add_inheritance_to_entity_result e h)
        entity_results (heap p).
Proof.
  induction entity_results as [|e rest IH]; intros p; [reflexivity|].
  cbn [VBNet.store_entities fold_left]. now rewrite IH.
Qed.

Lemma vb_add_inheritance_read (e : EntityResult.t) (h : Heap.t) :
  Heap.read (VBNet._add_inheritance_to_entity_result e h)
    (EntityResult.scanned_inheritance_dependencies e)
  = Heap.read h (EntityResult.scanned_inheritance_dependencies e) ++ vb_parents e.
Proof.
  unfold VBNet._add_inheritance_to_entity_result, vb_parents. cbn zeta.
  destruct (VBNet.find_parent_name _ _).
  - now rewrite app_nil_r.
  - apply heap_read_append_eq.
Qed.

Lemma vb_add_inheritance_frame (e : EntityResult.t) (h : Heap.t) (a : loc) :
  a <> EntityResult.scanned_inheritance_dependencies e ->
  Heap.read (VBNet._add_inheritance_to_entity_result e h) a = Heap.read h a.
Proof.
  intros Ha. unfold VBNet._add_inheritance_to_entity_result. cbn zeta.
  destruct (VBNet.find_parent_name _ _); [reflexivity|].
  apply heap_read_append_ne. congruence.
Qed.

(** X16. For a registry with one file result,
    [generate_entity_results_from_analysis] ends normally whenever the
    scope extraction does, and every entity kept (its name not on the
    ignore list) is then registered under its name, holds as imports the
    names the import scan reads off the tokens of the file, and holds as
    inheritance dependencies the parent found among its own tokens, if
    there is one. *)
Theorem vb_entities_of_a_file (p : Parser) (result : FileResult.t)
    (unfiltered : list EntityResult.t) (p1 : Parser) :
  file_results (_results p) = [result] ->
  VBNet.generate_entity_results_from_scopes p result VBNet.entity_keywords
    VBNet.match_expression VBNet.comment_keywords
  = Some (Py.Ok unfiltered, p1) ->
  exists p' : Parser,
    VBNet.generate_entity_results_from_analysis p = Some (Py.Ok tt, p')
    /\ Forall (fun e =>
                 Dict.get (_results p') (EntityResult.entity_name e) = Some (IsEntity e)
                 /\ VBNet.import_dependencies p' e
                    = VBNet.entity_imports
                        (ParsingMixin._gen_word_read_ahead
                           (FileResult.scanned_tokens result))
                 /\ VBNet.inheritance_dependencies p' e = vb_parents e)
         (vb_kept unfiltered).
Proof.
  intros Hfiles Hscopes.
  unfold VBNet.generate_entity_results_from_analysis. rewrite Hfiles.
  cbn [VBNet.entity_results_of_files]. rewrite Hscopes.
  rewrite vb_keep_entities_fold.
  set (tokens := FileResult.scanned_tokens result).
  set (kept := vb_kept unfiltered).
  set (h2 := fold_left _ kept (heap p1)).
  eexists. split; [reflexivity|].
  (* what the scopes give *)
  assert (Hfacts :
    NoDup (map EntityResult.entity_name unfiltered)
    /\ NoDup (map EntityResult.scanned_import_dependencies unfiltered)
    /\ Forall (fun e =>
                 (exists i : nat,
                    EntityResult.scanned_import_dependencies e
                    = Heap.next (heap p) + 2 * i)
                 /\ EntityResult.scanned_inheritance_dependencies e
                    = S (EntityResult.scanned_import_dependencies e)
                 /\ Heap.read (heap p1) (EntityResult.scanned_import_dependencies e) = []
                 /\ Heap.read (heap p1)
                      (EntityResult.scanned_inheritance_dependencies e) = [])
         unfiltered).
  { clear -Hscopes. unfold VBNet.generate_entity_results_from_scopes in Hscopes.
    destruct (VBNet.scan_entities _ _ _ _ _) as [[st [e|]]|] eqn:Hscan;
      [discriminate| |discriminate].
    apply scan_entities_found in Hscan as (Hnodup & _).
    pose proof (create_entity_results_spec result (VBNet.found_entities st) (heap p))
      as Hspec.
    pose proof (create_entity_results_cells result (VBNet.found_entities st) (heap p))
      as Hcells.
    destruct (VBNet.create_entity_results result (VBNet.found_entities st) (heap p))
      as [created h'].
    cbn [fst snd] in Hspec, Hcells.
    destruct Hspec as (Hnames & _ & _ & _ & Hall & Himports & _).
    injection Hscopes as <- <-. cbn [heap].
    split; [rewrite Hnames; apply Hnodup; constructor|].
    split; [exact Himports|].
    rewrite Forall_forall in Hall, Hcells |- *. intros e He.
    destruct (Hall e He) as (_ & _ & _ & _ & Hinh & Hr1 & Hr2).
    split; [exact (Hcells e He)|]. now repeat split. }
  destruct Hfacts as (Hnames & Himports & Hall).
  assert (Hsub : forall e, e ∈ kept -> e ∈ unfiltered).
  { intros e He. apply list_elem_of_In. apply list_elem_of_In in He.
    unfold kept, vb_kept in He. now apply List.filter_In in He as [He _]. }
  assert (Hkept_names : NoDup (map EntityResult.entity_name kept))
    by now apply NoDup_map_filter.
  assert (Hkept_imports : NoDup (map EntityResult.scanned_import_dependencies kept))
    by now apply NoDup_map_filter.
  assert (Hkept_inh : NoDup (map EntityResult.scanned_inheritance_dependencies kept)).
  { clear -Hkept_imports Hall Hsub. induction kept as [|x l IH]; [constructor|].
    cbn [map] in *. apply NoDup_cons in Hkept_imports as [Hx Hl].
    constructor; [|apply IH; [intros; apply Hsub; now right | assumption]].
    intros Hin. apply Hx. apply list_elem_of_fmap in Hin as (y & Hy & Hyl).
    apply list_elem_of_fmap. exists y. split; [|assumption].
    rewrite Forall_forall in Hall.
    destruct (Hall x) as (_ & Hxi & _); [apply Hsub; left|].
    destruct (Hall y) as (_ & Hyi & _); [apply Hsub; now right|].
    lia. }
  rewrite Forall_forall in Hall.
  assert (Hcross : forall e e', e ∈ kept -> e' ∈ kept ->
            EntityResult.scanned_import_dependencies e
            <> EntityResult.scanned_inheritance_dependencies e').
  { intros e e' He He'.
    destruct (Hall e (Hsub e He)) as ([i Hi] & _).
    destruct (Hall e' (Hsub e' He')) as ([j Hj] & Hinh & _). lia. }
  pose proof (over_cells_read EntityResult.scanned_import_dependencies
                (fun h e => VBNet._add_imports_to_single_entity_result e tokens h)
                (fun _ => VBNet.entity_imports (ParsingMixin._gen_word_read_ahead tokens))
                (fun e h => vb_add_imports_loop_read _ _ h)
                (fun e h a Ha => vb_add_imports_loop_frame _ _ a (not_eq_sym Ha) h)
                kept (heap p1) Hkept_imports) as Hread2.
  fold h2 in Hread2.
  pose proof (over_cells_read EntityResult.scanned_inheritance_dependencies
                (fun h e => VBNet._add_inheritance_to_entity_result e h)
                vb_parents vb_add_inheritance_read vb_add_inheritance_frame
                kept h2 Hkept_inh) as Hread3.
  rewrite Forall_forall in Hread2, Hread3 |- *. intros e He.
  destruct (Hall e (Hsub e He)) as (_ & Hinh & Hr1 & Hr2).
  split; [|split].
  - rewrite vb_store_entities_get. now rewrite last_with_name.
  - unfold VBNet.import_dependencies. rewrite vb_store_entities_heap.
    cbn [set_heap heap].
    rewrite (over_cells_frame EntityResult.scanned_inheritance_dependencies
               (fun h e => VBNet._add_inheritance_to_entity_result e h)
               vb_add_inheritance_frame).
    + rewrite (Hread2 e He), Hr1. reflexivity.
    + intros Hin. apply list_elem_of_fmap in Hin as (e' & Heq & He').
      now apply (Hcross e e' He He').
  - unfold VBNet.inheritance_dependencies. rewrite vb_store_entities_heap.
    cbn [set_heap heap]. rewrite (Hread3 e He).
    unfold h2.
    rewrite (over_cells_frame EntityResult.scanned_import_dependencies
               (fun h e => VBNet._add_imports_to_single_entity_result e tokens h)
               (fun e h a Ha => vb_add_imports_loop_frame _ _ a (not_eq_sym Ha) h)).
    + now rewrite Hr2.
    + intros Hin. apply list_elem_of_fmap in Hin as (e' & Heq & He').
      apply (Hcross e' e He' He). congruence.
Qed.

(** X16, at the file with two classes. *)
Lemma vb_entities_of_a_file_witness :
  exists p' : Parser,
    VBNet.generate_entity_results_from_analysis two_classes_parser = Some (Py.Ok tt, p')
    /\ Forall (fun e =>
                 Dict.get (_results p') (EntityResult.entity_name e) = Some (IsEntity e)
                 /\ VBNet.import_dependencies p' e
                    = VBNet.entity_imports
                        (ParsingMixin._gen_word_read_ahead
                           (FileResult.scanned_tokens
                              (file_result_at two_classes_parser "proj/Foo.vb")))
                 /\ VBNet.inheritance_dependencies p' e = vb_parents e)
         (vb_kept (created_of two_classes_scopes)).
Proof.
  apply (vb_entities_of_a_file two_classes_parser
           (file_result_at two_classes_parser "proj/Foo.vb")
           (created_of two_classes_scopes) (parser_of two_classes_scopes));
    vm_compute; reflexivity.
Defined.

(** ** Inheritance in the C# parser *)

Lemma cs_find_parent_none (pairs : list (str * str)) :
  Forall (fun pair => fst pair <> CSharp.COLON) pairs ->
  CSharp.find_parent_name pairs = "".
Proof.
  induction 1 as [|[current next] pairs Hcur _ IH]; [reflexivity|].
  cbn [fst] in Hcur. cbn [CSharp.find_parent_name].
  apply str_eqb_neq in Hcur. now rewrite Hcur.
Qed.

Lemma cs_find_parent_first (before : list str) (rest : list str) :
  CSharp.COLON ∉ before ->
  CSharp.find_parent_name
    (combine (before ++ CSharp.COLON :: rest)
       (drop 1 (before ++ CSharp.COLON :: rest) ++ [""]))
  = nth 0 rest "".
Proof.
  induction before as [|x before IH]; intros Hnot; cbn [app]; rewrite zip_next_cons;
    cbn [CSharp.find_parent_name].
  - now rewrite str_eqb_refl.
  - apply not_elem_of_cons in Hnot as [Hx Hnot].
    assert (Hx' : Py.str_eqb x CSharp.COLON = false)
      by (apply str_eqb_neq; congruence).
    rewrite Hx'. now apply IH.
Qed.

(** X17. The C# parser records as parent the token after the first colon
    of the entity's tokens; with no colon, or with the first colon as the
    last token, nothing is recorded. *)
Theorem csharp_inheritance_first_colon (result : EntityResult.t) (h : Heap.t) :
  let tokens := EntityResult.scanned_tokens result in
  let parents := EntityResult.scanned_inheritance_dependencies result in
  (CSharp.COLON ∉ tokens ->
   CSharp._add_inheritance_to_entity_result result h = h)
  /\ (forall (before : list str) (parent : str) (rest : list str),
        tokens = before ++ [CSharp.COLON; parent] ++ rest ->
        CSharp.COLON ∉ before ->
        parent <> "" ->
        CSharp._add_inheritance_to_entity_result result h
        = Heap.append h parents parent)
  /\ (forall before : list str,
        tokens = before ++ [CSharp.COLON] ->
        CSharp.COLON ∉ before ->
        CSharp._add_inheritance_to_entity_result result h = h).
Proof.
  intros tokens parents. unfold CSharp._add_inheritance_to_entity_result.
  fold tokens parents. split; [|split].
  - intros Hnot. rewrite cs_find_parent_none; [reflexivity|].
    apply Forall_forall. intros [a b] Hin. cbn [fst]. intros ->.
    apply Hnot. rewrite <- (zip_next_fst tokens).
    apply list_elem_of_fmap. now exists (CSharp.COLON, b).
  - intros before parent rest -> Hnot Hparent. cbn [app].
    rewrite cs_find_parent_first by assumption. cbn [nth].
    destruct parent; [done | reflexivity].
  - intros before -> Hnot. now rewrite cs_find_parent_first.
Qed.

(** ** Whole statements as entries *)

Lemma marked_read_ahead (keyword : str) (tokens : list str) :
  marked keyword (ParsingMixin._gen_word_read_ahead tokens) = occurrences keyword tokens.
Proof.
  unfold marked, occurrences.
  rewrite <- (read_ahead_objs tokens) at 2.
  induction (ParsingMixin._gen_word_read_ahead tokens) as [|[[i obj] following] l IH];
    cbn [List.filter map fst snd]; [reflexivity|].
  destruct (Py.str_eqb obj keyword); cbn [length]; now rewrite IH.
Qed.

(** the triples of a list of one token *)
Lemma read_ahead_single (t : str) :
  ParsingMixin._gen_word_read_ahead [t] = [(0, t, None)].
Proof. reflexivity. Qed.

Lemma length_one {A : Type} (l : list A) : length l = 1 -> exists x : A, l = [x].
Proof. destruct l as [|x [|y l]]; try discriminate. intros _. now exists x. Qed.

Lemma csharp_entity_results_hold_statements
    (triples : list (nat * str * option (list str))) :
  Forall (fun entry => Py.startswith entry CSharp.USING = true)
    (CSharp.entity_result_usings triples)
  /\ (Forall (fun triple => snd triple <> None) triples ->
      length (CSharp.entity_result_usings triples) = marked CSharp.USING triples).
Proof.
  split.
  - induction triples as [|[[i obj] following] triples IH];
      cbn [CSharp.entity_result_usings]; [constructor|].
    destruct (Py.str_eqb obj CSharp.USING) eqn:Hobj; [|exact IH].
    apply str_eqb_eq in Hobj. subst obj.
    destruct following as [following|]; cbn [ParsingMixin.create_read_ahead_string];
      [|exact IH].
    constructor; [|exact IH].
    unfold CSharp.import_name_of.
    destruct (join_space_cons CSharp.USING following) as (x & Hjoin & _).
    cbn [app]. rewrite Hjoin.
    rewrite split_first_app by (unfold CSharp.USING; repeat constructor; discriminate).
    rewrite strip_word_app by (discriminate || reflexivity).
    apply startswith_app.
  - unfold marked.
    induction 1 as [|[[i obj] following] triples Hsome _ IH];
      cbn [CSharp.entity_result_usings List.filter fst snd]; [reflexivity|].
    destruct (Py.str_eqb obj CSharp.USING); [|exact IH].
    destruct following as [following|]; [|now cbn in Hsome].
    cbn [ParsingMixin.create_read_ahead_string length]. now rewrite IH.
Qed.

(** X18. The inner loop of [_add_usings_to_entity_results] appends to the
    entity's list one entry for every [using] token of the entity's
    tokens, and every entry starts with [using]: the statement is
    recorded whole, not the name it imports. The one exception is a list
    that consists of the token [using] alone: the read-ahead string
    raises, the exception is caught, and nothing is appended. *)
Theorem csharp_entity_results_keep_statements
    (entity_result : EntityResult.t) (h : Heap.t) :
  let tokens := EntityResult.scanned_tokens entity_result in
  let imports := EntityResult.scanned_import_dependencies entity_result in
  let entries :=
    CSharp.entity_result_usings (ParsingMixin._gen_word_read_ahead tokens) in
  Heap.read (CSharp.add_usings_to_entity_result entity_result h) imports
  = Heap.read h imports ++ entries
  /\ Forall (fun entry => Py.startswith entry CSharp.USING = true) entries
  /\ (tokens = [CSharp.USING] -> entries = [])
  /\ (tokens <> [CSharp.USING] -> length entries = occurrences CSharp.USING tokens).
Proof.
  intros tokens imports entries.
  destruct (csharp_entity_results_hold_statements
              (ParsingMixin._gen_word_read_ahead tokens)) as [Hstart Hlen].
  split; [apply heap_read_appends|]. split; [exact Hstart|]. split.
  - intros Htokens. unfold entries. now rewrite Htokens.
  - intros Htokens. rewrite <- marked_read_ahead.
    destruct (Nat.eq_dec (length tokens) 1) as [Hone|Hmore].
    + apply length_one in Hone as [t Ht]. unfold entries. rewrite Ht in *.
      rewrite read_ahead_single. unfold marked.
      cbn [CSharp.entity_result_usings List.filter fst snd].
      destruct (Py.str_eqb t CSharp.USING) eqn:E; [|reflexivity].
      apply str_eqb_eq in E. now subst t.
    + apply Hlen. now apply read_ahead_following.
Qed.

(** ** Usings of a file: what the pattern lets through *)


Lemma lstrip_blank_prefix (s : str) : exists P : str, blank P /\ s = P ++ Py.lstrip s.
Proof.
  induction s as [|c s (P & HP & IH)]; [exists []; split; [constructor | reflexivity]|].
  cbn [Py.lstrip]. destruct (Py.isspace c) eqn:Hc.
  - exists (c :: P). split; [now constructor|]. cbn [app]. now f_equal.
  - exists []. split; [constructor | reflexivity].
Qed.

Lemma lstrip_blank_app (P s : str) : blank P -> Py.lstrip (P ++ s) = Py.lstrip s.
Proof.
  induction 1 as [|c P Hc _ IH]; [reflexivity|]. cbn [app Py.lstrip]. now rewrite Hc.
Qed.

Lemma lstrip_blank (P : str) : blank P -> Py.lstrip P = [].
Proof.
  intros HP. rewrite <- (app_nil_r P). now rewrite lstrip_blank_app.
Qed.

Lemma strip_blank (P : str) : blank P -> Py.strip P = [].
Proof. intros HP. unfold Py.strip. now rewrite (lstrip_blank P HP). Qed.

Lemma lstrip_length (s : str) : length (Py.lstrip s) <= length s.
Proof.
  destruct (lstrip_blank_prefix s) as (P & _ & H).
  apply (f_equal (@length _)) in H. rewrite length_app in H. lia.
Qed.

Lemma lstrip_head (s : str) (c : ascii) (r : str) :
  Py.lstrip s = c :: r -> Py.isspace c = false.
Proof.
  induction s as [|x s IH]; [discriminate|]. cbn [Py.lstrip].
  destruct (Py.isspace x) eqn:Hx; [exact IH | now intros [= <- _]].
Qed.

Lemma lstrip_idem (s : str) : Py.lstrip (Py.lstrip s) = Py.lstrip s.
Proof.
  destruct (Py.lstrip s) as [|c r] eqn:H; [reflexivity|].
  apply lstrip_head in H. now apply lstrip_nonspace.
Qed.

(** a trimmed string neither starts nor ends with whitespace *)
Lemma strip_trimmed (x : str) :
  Py.lstrip (Py.strip x) = Py.strip x
  /\ Py.lstrip (rev (Py.strip x)) = rev (Py.strip x).
Proof.
  unfold Py.strip. set (y := Py.lstrip x). set (z := Py.lstrip (rev y)).
  split; [|rewrite rev_involutive; apply lstrip_idem].
  destruct (lstrip_blank_prefix (rev y)) as (P & HP & Hrev). fold z in Hrev.
  destruct z as [|d z'] eqn:Hz; [reflexivity|].
  assert (Hy : y = rev (d :: z') ++ rev P).
  { rewrite <- rev_app_distr, <- Hrev. now rewrite rev_involutive. }
  destruct (rev (d :: z')) as [|e r] eqn:He.
  { apply (f_equal (@length _)) in He. rewrite length_rev in He. discriminate. }
  cbn [app] in Hy. unfold y in Hy. apply lstrip_head in Hy.
  now apply lstrip_nonspace.
Qed.

Lemma span_app (chars : ascii -> bool) (s : str) :
  s = fst (pp.span chars s) ++ snd (pp.span chars s).
Proof.
  induction s as [|c s IH]; [reflexivity|]. cbn [pp.span].
  destruct (chars c); [|reflexivity].
  destruct (pp.span chars s) as [w r]. cbn [fst snd app] in *. now f_equal.
Qed.

Lemma namespace_char_not_space (c : ascii) :
  CSharp.namespace_char c = true -> Py.isspace c = false.
Proof. now destruct c as [[] [] [] [] [] [] [] []]. Qed.

Lemma namespace_word_ws_free (w : str) :
  forallb CSharp.namespace_char w = true -> ws_free w = true.
Proof.
  induction w as [|c w IH]; [reflexivity|]. cbn [forallb].
  intros [Hc Hw]%andb_true_iff. rewrite ws_free_cons, (namespace_char_not_space c Hc).
  now apply IH.
Qed.

(** a separator ahead of a word that holds none lies in what comes
    before the word *)
Lemma sep_before_word (sep : ascii) (w : str) (W : str) :
  forall a b : str,
    Forall (fun c => c <> sep) w ->
    a ++ sep :: b = W ++ w ->
    exists W2 : str, W = a ++ sep :: W2 /\ b = W2 ++ w.
Proof.
  induction W as [|c W IH]; intros a b Hw H; cbn [app] in H.
  - exfalso. rewrite Forall_forall in Hw. apply (Hw sep); [|reflexivity].
    rewrite <- H. apply elem_of_app. right. left.
  - destruct a as [|c' a]; cbn [app] in H.
    + injection H as <- ->. now exists W.
    + injection H as <- H. destruct (IH a b Hw H) as (W2 & -> & ->). now exists W2.
Qed.

Lemma blank_app_inv (a b : str) : blank (a ++ b) -> blank a /\ blank b.
Proof. apply Forall_app. Qed.

Lemma strip_blank_word (P w : str) :
  blank P -> ws_free w = true -> Py.strip (P ++ w) = w.
Proof.
  intros HP Hw. unfold Py.strip. rewrite lstrip_blank_app by assumption.
  rewrite (lstrip_ws_free w Hw).
  rewrite lstrip_ws_free by now rewrite ws_free_rev. apply rev_involutive.
Qed.

(** the shape the pattern asks for, of a string that is trimmed *)
Lemma namespace_pattern_shape (import_name : str) :
  Py.lstrip import_name = import_name ->
  Py.lstrip (rev import_name) = rev import_name ->
  CSharp.matches_namespace_pattern import_name = true ->
  exists W w : str,
    import_name = "using" ++ W ++ w /\ blank W
    /\ w <> [] /\ forallb CSharp.namespace_char w = true.
Proof.
  intros Hl Hr. unfold CSharp.matches_namespace_pattern. rewrite Hl.
  destruct (Py.startswith import_name "using") eqn:Hstart; [|discriminate].
  apply startswith_inv in Hstart. cbn [length] in Hstart.
  destruct (drop 5 import_name) as [|c r] eqn:Hdrop; [discriminate|].
  destruct (Py.isspace c) eqn:Hc; [|discriminate].
  destruct (lstrip_blank_prefix (c :: r)) as (W & HW & Hcr).
  assert (Hstep : Py.lstrip (c :: r) = Py.lstrip r)
    by (cbn [Py.lstrip]; now rewrite Hc).
  rewrite Hstep in Hcr.
  pose proof (span_app CSharp.namespace_char (Py.lstrip r)) as Hspan.
  pose proof (span_chars CSharp.namespace_char (Py.lstrip r)) as Hw.
  destruct (pp.span CSharp.namespace_char (Py.lstrip r)) as [w rest] eqn:Hsp.
  cbn [fst snd] in Hspan, Hw.
  destruct w as [|x w]; [discriminate|]. intros Hrest.
  assert (Hname : import_name = "using" ++ W ++ (x :: w) ++ rest).
  { rewrite Hstart. f_equal. rewrite Hcr. f_equal. exact Hspan. }
  exists W, (x :: w). split; [|now repeat split].
  apply orb_true_iff in Hrest as [Hrest|Hrest]; apply str_eqb_eq in Hrest; subst rest.
  - now rewrite app_nil_r in Hname.
  - exfalso.
    assert (Hname' : import_name = ("using" ++ W ++ x :: w) ++ NL)
      by (rewrite Hname; now rewrite <- !app_assoc).
    rewrite Hname', rev_app_distr in Hr.
    set (Y := rev ("using" ++ W ++ x :: w)) in Hr.
    change (rev NL ++ Y) with (Py.LF :: Y) in Hr.
    cbn [Py.lstrip] in Hr. change (Py.isspace Py.LF) with true in Hr.
    cbv iota in Hr. apply (f_equal (@length _)) in Hr.
    pose proof (lstrip_length Y). cbn [length] in Hr. lia.
Qed.

Lemma second_word_of_using (W w : str) (name : str) :
  blank W -> ws_free w = true ->
  CSharp.second_word ("using" ++ W ++ w) = Py.Ok name ->
  name = [] \/ name = w.
Proof.
  intros HW Hw. unfold CSharp.second_word, Py.split.
  rewrite split_go_without by (repeat constructor; discriminate). cbn [app].
  assert (Hw' : Forall (fun c => c <> " "%char) w) by now apply ws_free_without.
  destruct (split_first " " (W ++ w)) as (a & Ha & _ & [Hx|[b Hx]]).
  - rewrite Hx, <- (app_nil_r a), split_go_without by assumption. discriminate.
  - rewrite Hx. rewrite split_go_without by assumption.
    cbn [Py.split_go]. rewrite Ascii.eqb_refl. unfold Py.index. cbn [nth_error].
    destruct (sep_before_word " " w W a b Hw' (eq_sym Hx)) as (W2 & HW2 & ->).
    assert (HW2' : blank W2).
    { rewrite HW2 in HW. apply blank_app_inv in HW as [_ HW].
      now inversion HW. }
    destruct (split_first " " (W2 ++ w)) as (b0 & Hb0 & Hn & [Hy|[b1 Hy]]).
    + unfold Py.split in Hn.
      destruct (Py.split_go " " [] (W2 ++ w)) as [|first rest] eqn:Hsplit;
        [discriminate|].
      cbn [nth] in Hn. subst first. intros [= <-]. right.
      rewrite <- Hy. now apply strip_blank_word.
    + unfold Py.split in Hn.
      destruct (Py.split_go " " [] (W2 ++ w)) as [|first rest] eqn:Hsplit;
        [discriminate|].
      cbn [nth] in Hn. subst first. intros [= <-]. left.
      destruct (sep_before_word " " w W2 b0 b1 Hw' (eq_sym Hy)) as (W3 & HW3 & _).
      apply strip_blank. rewrite HW3 in HW2'. now apply blank_app_inv in HW2' as [? _].
Qed.

Lemma import_name_trimmed (read_ahead_string : str) :
  Py.lstrip (CSharp.import_name_of read_ahead_string)
  = CSharp.import_name_of read_ahead_string
  /\ Py.lstrip (rev (CSharp.import_name_of read_ahead_string))
     = rev (CSharp.import_name_of read_ahead_string).
Proof. apply strip_trimmed. Qed.

Lemma csharp_file_usings_are_names (triples : list (nat * str * option (list str))) :
  Forall (fun name => forallb CSharp.namespace_char name = true)
    (CSharp.file_usings triples).
Proof.
  induction triples as [|[[i obj] following] triples IH]; cbn [CSharp.file_usings];
    [constructor|].
  destruct (Py.str_eqb obj CSharp.USING); [|exact IH].
  destruct (ParsingMixin.create_read_ahead_string obj following)
    as [read_ahead_string|]; [|exact IH].
  cbn zeta.
  destruct (CSharp.matches_namespace_pattern _) eqn:Hmatch; [|exact IH].
  destruct (CSharp.second_word _) as [name|e] eqn:Hword; [|exact IH].
  constructor; [|exact IH].
  destruct (import_name_trimmed read_ahead_string) as [Hl Hr].
  destruct (namespace_pattern_shape _ Hl Hr Hmatch) as (W & w & Hshape & HW & _ & Hw).
  rewrite Hshape in Hword.
  apply second_word_of_using in Hword as [->| ->];
    [reflexivity | assumption | assumption | now apply namespace_word_ws_free].
Qed.

Lemma span_all (chars : ascii -> bool) (w : str) :
  forallb chars w = true -> pp.span chars w = (w, []).
Proof.
  induction w as [|c w IH]; [reflexivity|]. cbn [forallb pp.span].
  intros [Hc Hw]%andb_true_iff. now rewrite Hc, IH.
Qed.

Lemma file_using_recorded (i : nat) (name : str) (tail : list str)
    (triples : list (nat * str * option (list str))) :
  name <> [] -> forallb CSharp.namespace_char name = true ->
  CSharp.file_usings ((i, CSharp.USING, Some (name :: ";" :: tail)) :: triples)
  = name :: CSharp.file_usings triples.
Proof.
  intros Hne Hname. pose proof (namespace_word_ws_free name Hname) as Hfree.
  assert (Hsemi : Forall (fun c => c <> ";"%char) name).
  { clear -Hname. induction name as [|c name IH]; [constructor|].
    cbn [forallb] in Hname. apply andb_true_iff in Hname as [Hc Hname].
    constructor; [|now apply IH]. intros ->. discriminate. }
  assert (Himport : CSharp.import_name_of
                      (Py.join " " ([CSharp.USING] ++ name :: ";" :: tail))
                    = "using " ++ name).
  { unfold CSharp.import_name_of.
    destruct (join_space_cons ";" tail) as (x & Hjoin & _).
    cbn [app]. rewrite !join_cons_cons, Hjoin.
    replace (CSharp.USING ++ " " ++ name ++ " " ++ ";" ++ x)
      with (("using " ++ name ++ " ") ++ ";"%char :: x)
      by (unfold CSharp.USING; now rewrite <- !app_assoc).
    rewrite split_at_sep.
    2:{ apply Forall_app. split; [repeat constructor; discriminate|].
        apply Forall_app. split; [assumption | repeat constructor; discriminate]. }
    cbn [nth].
    change ("using " ++ name ++ " ") with ("using" ++ " " ++ name ++ " ").
    rewrite strip_word_app by (discriminate || reflexivity).
    rewrite (rstrip_after_word " " name " " Hne Hfree).
    change (rev (Py.lstrip (rev " "))) with (@nil ascii).
    now rewrite app_nil_r. }
  cbn [CSharp.file_usings ParsingMixin.create_read_ahead_string].
  rewrite str_eqb_refl. cbn zeta. rewrite Himport.
  assert (Hmatch : CSharp.matches_namespace_pattern ("using " ++ name) = true).
  { unfold CSharp.matches_namespace_pattern. cbn [app Py.lstrip].
    change (Py.isspace "u") with false. cbv iota.
    cbn [Py.startswith Ascii.eqb Bool.eqb andb drop].
    change (Py.isspace " ") with true. cbv iota.
    rewrite (lstrip_ws_free name Hfree), (span_all _ name Hname).
    destruct name; [done | reflexivity]. }
  rewrite Hmatch.
  assert (Hword : CSharp.second_word ("using " ++ name) = Py.Ok name).
  { unfold CSharp.second_word.
    change ("using " ++ name) with ("using" ++ " "%char :: name).
    rewrite split_at_sep by (repeat constructor; discriminate).
    rewrite split_without by now apply ws_free_without.
    unfold Py.index. cbn [nth_error]. now rewrite strip_ws_free. }
  now rewrite Hword.
Qed.

(** X19. Every using the file-level scan records consists of letters,
    digits, underscores and dots only (it may be empty); a [using] token
    followed by a name of that kind and a semicolon records the name. *)
Theorem csharp_file_usings_are_clean
    (triples : list (nat * str * option (list str))) :
  Forall (fun name => forallb CSharp.namespace_char name = true)
    (CSharp.file_usings triples)
  /\ (forall (i : nat) (name : str) (tail : list str),
        name <> [] -> forallb CSharp.namespace_char name = true ->
        CSharp.file_usings ((i, CSharp.USING, Some (name :: ";" :: tail)) :: triples)
        = name :: CSharp.file_usings triples).
Proof.
  split; [apply csharp_file_usings_are_names|].
  intros i name tail. apply file_using_recorded.
Qed.

(** ** Usings of an entity: the token after the keyword *)

Lemma using_name_recorded (name : str) (rest : list str) :
  name <> [] -> ws_free name = true -> Forall (fun c => c <> ";"%char) name ->
  CSharp.second_word
    (CSharp.import_name_of (Py.join " " ([CSharp.USING] ++ name :: rest)))
  = Py.Ok name.
Proof.
  intros Hne Hname Hsemi.
  unfold CSharp.import_name_of. cbn [app].
  destruct (join_space_cons name rest) as (x & Hjoin & Hx).
  rewrite join_cons_cons, Hjoin.
  replace (CSharp.USING ++ " " ++ name ++ x) with (("using " ++ name) ++ x)
    by (unfold CSharp.USING; now rewrite <- !app_assoc).
  rewrite split_first_app.
  2:{ apply Forall_app. split; [repeat constructor; discriminate | assumption]. }
  destruct (split_first ";" x) as (a & Ha & -> & Hxa).
  assert (Ha' : a = [] \/ exists a', a = " " ++ a').
  { destruct Hx as [->|[r ->]].
    - left. destruct Hxa as [<-|[b Hb]]; [reflexivity|]. destruct a; discriminate.
    - destruct Hxa as [<-|[b Hb]]; [right; eauto|].
      destruct a as [|c a]; [discriminate|]. right. exists a.
      injection Hb as <- _. reflexivity. }
  change (("using " ++ name) ++ a) with ("using" ++ " " ++ name ++ a).
  rewrite strip_word_app by (discriminate || reflexivity).
  rewrite (rstrip_after_word " " name a Hne Hname).
  destruct (rstrip_prefix a) as [t Ht].
  set (R := rev (Py.lstrip (rev a))) in *.
  assert (HR : R = [] \/ exists R', R = " " ++ R').
  { destruct Ha' as [->|[a' ->]].
    - left. destruct R; [reflexivity | discriminate].
    - destruct R as [|c R]; [now left|]. right. exists R.
      injection Ht as <- _. reflexivity. }
  unfold CSharp.second_word.
  change ("using" ++ " " ++ name ++ R) with ("using" ++ " "%char :: (name ++ R)).
  rewrite split_at_sep by (repeat constructor; discriminate).
  assert (Hsplit : exists l, Py.split " " (name ++ R) = name :: l).
  { destruct HR as [->|[R' ->]].
    - rewrite app_nil_r. exists []. apply split_without. now apply ws_free_without.
    - exists (Py.split " " R').
      change (name ++ " " ++ R') with (name ++ " "%char :: R').
      apply split_at_sep. now apply ws_free_without. }
  destruct Hsplit as [l ->]. unfold Py.index. cbn [nth_error].
  now rewrite strip_ws_free.
Qed.

Lemma cs_entity_usings_after (before triples : list (nat * str * option (list str))) :
  Forall (fun triple =>
            Py.any_in CSharp.declaration_keywords (snd (fst triple)) = false) before ->
  forall x : str,
    x ∈ CSharp.entity_usings triples -> x ∈ CSharp.entity_usings (before ++ triples).
Proof.
  induction 1 as [|[[i obj] following] before Hobj _ IH]; intros x Hx; [exact Hx|].
  cbn [app CSharp.entity_usings]. cbn [fst snd] in Hobj. rewrite Hobj.
  destruct (Py.str_eqb obj CSharp.USING); [|now apply IH].
  destruct (ParsingMixin.create_read_ahead_string obj following); [|now apply IH].
  cbn zeta. destruct (CSharp.second_word _); [right|]; now apply IH.
Qed.

(** X20. In the C# parser a [using] token that no token containing a
    declaration keyword precedes, followed by a word without a semicolon,
    records this word among the imports of the entity. *)
Theorem csharp_using_before_declaration
    (entity_result : EntityResult.t) (h : Heap.t)
    (pre : list str) (name : str) (rest : list str) :
  Forall (fun token => Py.any_in CSharp.declaration_keywords token = false) pre ->
  name <> [] -> ws_free name = true -> Forall (fun c => c <> ";"%char) name ->
  name ∈ Heap.read
           (CSharp._add_usings_to_single_entity_result entity_result
              (pre ++ [CSharp.USING; name] ++ rest) h)
           (EntityResult.scanned_import_dependencies entity_result).
Proof.
  intros Hpre Hne Hname Hsemi.
  rewrite csharp_entity_usings_read. apply elem_of_app. right.
  change (pre ++ [CSharp.USING; name] ++ rest) with (pre ++ CSharp.USING :: name :: rest).
  destruct (read_ahead_split pre CSharp.USING name rest) as (before & after & -> & Hobjs).
  apply cs_entity_usings_after.
  - rewrite <- Hobjs in Hpre. now apply Forall_fmap in Hpre.
  - cbn [CSharp.entity_usings ParsingMixin.create_read_ahead_string].
    rewrite str_eqb_refl. cbn zeta.
    rewrite using_name_recorded by assumption. left.
Qed.

(** X20, at the second of two using statements. *)
Lemma csharp_using_before_declaration_witness :
  "System.IO" ∈ Heap.read
                  (CSharp._add_usings_to_single_entity_result
                     (an_entity "C" (a_file [] 0) 1 2)
                     (["using"; "System"; ";"] ++ [CSharp.USING; "System.IO"]
                        ++ [";"; "class"; "C"; "{"; "}"])
                     (fresh_store 3))
                  1.
Proof.
  apply (csharp_using_before_declaration (an_entity "C" (a_file [] 0) 1 2)
           (fresh_store 3) ["using"; "System"; ";"] "System.IO"
           [";"; "class"; "C"; "{"; "}"]).
  - repeat constructor.
  - discriminate.
  - reflexivity.
  - repeat constructor; discriminate.
Defined.

(** ** The imports of the CSS parser *)

Lemma css_add_imports_read (tokens : list str) (a : loc) :
  forall h : Heap.t,
    Heap.read (CSS.add_imports_of_tokens tokens a h) a
    = Heap.read h a ++ CSS.import_names tokens.
Proof.
  induction tokens as [|token tokens IH]; intros h; unfold CSS.import_names;
    cbn [CSS.add_imports_of_tokens flat_map].
  - now rewrite app_nil_r.
  - rewrite IH. unfold CSS.import_names.
    destruct (Py.startswith token CSS.IMPORT); cbn [app].
    + now rewrite heap_read_append_eq, <- app_assoc.
    + reflexivity.
Qed.

(** a token of the CSS tokenizer that starts with the import keyword is
    the keyword itself *)
Lemma css_import_tokens_bare (file_content : str) :
  Forall (fun token => Py.startswith token CSS.IMPORT = true -> token = CSS.IMPORT)
    (ParsingMixin.preprocess_file_content_and_generate_token_list_by_mapping
       file_content CSS._token_mappings).
Proof.
  unfold ParsingMixin.preprocess_file_content_and_generate_token_list_by_mapping.
  assert (Hpads : forallb pads CSS._token_mappings = true) by (vm_compute; reflexivity).
  pose proof (mapping_settles CSS._token_mappings Hpads file_content) as H.
  eapply Forall_impl; [exact H|]. clear H. intros token Hall Hstart.
  assert (Hentry : settled (CSS.IMPORT, "@import ") token).
  { rewrite Forall_forall in Hall. apply Hall.
    apply (bool_decide_unpack _). vm_compute. exact I. }
  unfold settled in Hentry.
  change (pads_both (CSS.IMPORT, "@import ")) with false in Hentry. cbn [fst] in Hentry.
  specialize (Hentry 0). rewrite drop_0 in Hentry. specialize (Hentry Hstart).
  apply startswith_inv in Hstart. rewrite Hstart.
  rewrite drop_ge by (cbn in Hentry |- *; lia). now rewrite app_nil_r.
Qed.

Lemma css_import_names_empty (tokens : list str) :
  Forall (fun token => Py.startswith token CSS.IMPORT = true -> token = CSS.IMPORT) tokens ->
  Forall (fun name => name = "") (CSS.import_names tokens).
Proof.
  induction 1 as [|token tokens Htoken _ IH]; unfold CSS.import_names; cbn [flat_map];
    [constructor|].
  destruct (Py.startswith token CSS.IMPORT) eqn:Hs; [|exact IH].
  rewrite (Htoken eq_refl). constructor; [reflexivity | exact IH].
Qed.

(** X21. For every CSS text, a token that starts with [@import] is
    [@import] itself, the token map having set a space after the keyword;
    the import read off this token is the empty string. So every import
    the CSS parser records from tokens of its own tokenizer is empty. *)
Theorem css_imports_are_empty (file_content : str) :
  let tokens :=
    ParsingMixin.preprocess_file_content_and_generate_token_list_by_mapping
      file_content CSS._token_mappings in
  Forall (fun token => Py.startswith token CSS.IMPORT = true -> token = CSS.IMPORT) tokens
  /\ CSS.cleaned_import CSS.IMPORT = ""
  /\ Forall (fun name => name = "") (CSS.import_names tokens)
  /\ (forall (result : FileResult.t) (h : Heap.t),
        FileResult.scanned_tokens result = tokens ->
        Heap.read (CSS._add_imports_to_result result h)
          (FileResult.scanned_import_dependencies result)
        = Heap.read h (FileResult.scanned_import_dependencies result)
          ++ CSS.import_names tokens).
Proof.
  intros tokens. pose proof (css_import_tokens_bare file_content) as Hbare.
  split; [exact Hbare|]. split; [reflexivity|].
  split; [now apply css_import_names_empty|].
  intros result h Htokens. unfold CSS._add_imports_to_result.
  rewrite Htokens. apply css_add_imports_read.
Qed.

(** ** Nested selectors *)

Lemma contains_char (c : ascii) (s : str) :
  Py.contains s [c] = existsb (fun x => Ascii.eqb x c) s.
Proof.
  induction s as [|x s IH]; [reflexivity|].
  cbn [Py.contains Py.startswith existsb]. now rewrite IH, andb_true_r.
Qed.

Lemma existsb_filter_length {A} (f : A -> bool) (l : list A) :
  existsb f l = true -> 1 <= length (List.filter f l).
Proof.
  induction l as [|x l IH]; [discriminate|]. cbn [existsb List.filter].
  destruct (f x); cbn [length orb]; [lia | exact IH].
Qed.

(** X22. An entity name without a space adds nothing to the inheritance
    dependencies; a name with a space adds its parts, at least two. The
    parts hold no space, and joined by spaces they give the name back. *)
Theorem css_nested_selectors (entity : EntityResult.t) (h : Heap.t) :
  let name := EntityResult.entity_name entity in
  let parents := EntityResult.scanned_inheritance_dependencies entity in
  (Py.contains name " " = false ->
   CSS._add_inheritance_to_entity_result entity h = h)
  /\ (Py.contains name " " = true ->
      Heap.read (CSS._add_inheritance_to_entity_result entity h) parents
      = Heap.read h parents ++ Py.split " " name
      /\ 2 <= length (Py.split " " name))
  /\ Py.join " " (Py.split " " name) = name
  /\ Forall (fun selector => Py.contains selector " " = false) (Py.split " " name).
Proof.
  intros name parents. unfold CSS._add_inheritance_to_entity_result.
  fold name parents. split; [|split; [|split]].
  - now intros ->.
  - intros Hc. rewrite Hc. split; [apply heap_read_appends|].
    unfold Py.split. rewrite split_go_length.
    rewrite contains_char in Hc. apply existsb_filter_length in Hc. lia.
  - apply (join_split_go " " name []).
  - unfold Py.split. eapply Forall_impl.
    + apply (split_go_pieces " " name []). constructor.
    + cbn beta. intros selector Hsel. rewrite contains_char.
      apply not_true_is_false. intros Hex.
      apply existsb_exists in Hex as (x & Hin & Hx).
      apply Ascii.eqb_eq in Hx. subst x.
      apply list_elem_of_In in Hin.
      rewrite Forall_forall in Hsel. now apply (Hsel _ Hin).
Qed.

(** ** Imports and parents of the SCSS parser *)

Lemma scss_loops_counted (triples : list (nat * str * option (list str))) (cell : loc) :
  Forall (fun triple => snd triple <> None) triples ->
  forall p : Parser,
    (fst (SCSS.add_imports_loop triples cell p) = Py.Ok tt
     /\ counted_once SCSS.imported_entity_name_chars (marked SCSS.Import triples)
          cell p (snd (SCSS.add_imports_loop triples cell p)))
    /\ (fst (SCSS.add_inheritance_loop triples cell p) = Py.Ok tt
        /\ counted_once SCSS.inherited_entity_name_chars (marked SCSS.Extend triples)
             cell p (snd (SCSS.add_inheritance_loop triples cell p))).
Proof.
  unfold marked, counted_once.
  induction 1 as [|[[i obj] following] triples Hsome _ IH]; intros p.
  - split; (split; [reflexivity|]); exists []; rewrite app_nil_r;
      repeat split; try constructor; try (cbn; lia).
  - destruct following as [following|]; [clear Hsome | now cbn in Hsome]. split.
    + cbn [SCSS.add_imports_loop List.filter fst snd
           ParsingMixin.create_read_ahead_string].
      destruct (Py.str_eqb obj SCSS.Import); [|apply IH].
      destruct (pp.parseString SCSS.import_expression _) as [parsing_result|] eqn:Hparse.
      * match goal with |- context [SCSS.add_imports_loop triples cell ?q] =>
          destruct (proj1 (IH q)) as (Hok & added & Hread & Hadded & Hhits & Hmisses)
        end.
        split; [exact Hok|].
        cbn [set_heap set_statistics heap statistics _results Statistics.increment
             Statistics.parsing_hits Statistics.parsing_misses] in *.
        exists (nth 1 parsing_result "" :: added).
        rewrite Hread, heap_read_append_eq, <- app_assoc.
        split; [reflexivity|]. split.
        { constructor; [|exact Hadded]. now apply keyword_word_name in Hparse. }
        cbn [length]. split; lia.
      * match goal with |- context [SCSS.add_imports_loop triples cell ?q] =>
          destruct (proj1 (IH q)) as (Hok & added & Hread & Hadded & Hhits & Hmisses)
        end.
        split; [exact Hok|].
        cbn [set_heap set_statistics heap statistics _results Statistics.increment
             Statistics.parsing_hits Statistics.parsing_misses] in *.
        exists added. repeat split; try assumption; cbn [length]; lia.
    + cbn [SCSS.add_inheritance_loop List.filter fst snd
           ParsingMixin.create_read_ahead_string].
      destruct (Py.str_eqb obj SCSS.Extend); [|apply IH].
      destruct (pp.parseString SCSS.inheritance_expression _) as [parsing_result|]
        eqn:Hparse.
      * apply keyword_word_name in Hparse as [Hne Hchars].
        destruct (nth 1 parsing_result "") as [|c name] eqn:Hname; [done|].
        match goal with |- context [SCSS.add_inheritance_loop triples cell ?q] =>
          destruct (proj2 (IH q)) as (Hok & added & Hread & Hadded & Hhits & Hmisses)
        end.
        split; [exact Hok|].
        cbn [set_heap set_statistics heap statistics _results Statistics.increment
             Statistics.parsing_hits Statistics.parsing_misses] in *.
        exists ((c :: name) :: added).
        rewrite Hread, heap_read_append_eq, <- app_assoc.
        split; [reflexivity|]. split; [now constructor|].
        cbn [length]. split; lia.
      * match goal with |- context [SCSS.add_inheritance_loop triples cell ?q] =>
          destruct (proj2 (IH q)) as (Hok & added & Hread & Hadded & Hhits & Hmisses)
        end.
        split; [exact Hok|].
        cbn [set_heap set_statistics heap statistics _results Statistics.increment
             Statistics.parsing_hits Statistics.parsing_misses] in *.
        exists added. repeat split; try assumption; cbn [length]; lia.
Qed.

(** a list of tokens other than the keyword alone: the triples of a
    list of one token hold no keyword, those of any other list all
    carry a read-ahead *)
Lemma not_the_keyword_alone (keyword : str) (tokens : list str) :
  tokens <> [keyword] ->
  (exists t : str, tokens = [t] /\ Py.str_eqb t keyword = false)
  \/ Forall (fun triple => snd triple <> None) (ParsingMixin._gen_word_read_ahead tokens).
Proof.
  intros Hne. destruct (Nat.eq_dec (length tokens) 1) as [Hone|Hmore].
  - left. apply length_one in Hone as [t ->]. exists t. split; [reflexivity|].
    destruct (Py.str_eqb t keyword) eqn:E; [|reflexivity].
    apply str_eqb_eq in E. now subst t.
  - right. now apply read_ahead_following.
Qed.

Lemma counted_once_nothing (name_chars : ascii -> bool) (cell : loc) (p : Parser) :
  counted_once name_chars 0 cell p p.
Proof.
  exists []. rewrite app_nil_r. repeat split; try constructor; cbn; lia.
Qed.

(** X23. The import scan of a file result and the inheritance scan of an
    entity result raise in one case only: when the tokens are the
    keyword ([import], [extend]) alone, the read-ahead string raises a
    [TypeError] that nothing catches, and the parser is left as it was.
    For any other tokens the scan returns; every keyword token counts
    exactly once, as a hit or as a miss; there are as many hits as names
    appended, and every name appended is a non-empty word of the
    characters the grammar allows. *)
Theorem scss_imports_and_parents
    (result : FileResult.t) (entity : EntityResult.t) (p : Parser) :
  (let tokens := FileResult.scanned_tokens result in
   let scan := SCSS._add_imports_to_result result p in
   (tokens = [SCSS.Import] -> scan = (Py.Raise Py.TypeError, p))
   /\ (tokens <> [SCSS.Import] ->
       fst scan = Py.Ok tt
       /\ counted_once SCSS.imported_entity_name_chars
            (occurrences SCSS.Import tokens)
            (FileResult.scanned_import_dependencies result) p (snd scan)))
  /\ (let tokens := EntityResult.scanned_tokens entity in
      let scan := SCSS._add_inheritance_to_entity_result entity p in
      (tokens = [SCSS.Extend] -> scan = (Py.Raise Py.TypeError, p))
      /\ (tokens <> [SCSS.Extend] ->
          fst scan = Py.Ok tt
          /\ counted_once SCSS.inherited_entity_name_chars
               (occurrences SCSS.Extend tokens)
               (EntityResult.scanned_inheritance_dependencies entity) p (snd scan))).
Proof.
  split; intros tokens scan; subst scan;
    unfold SCSS._add_imports_to_result, SCSS._add_inheritance_to_entity_result;
    fold tokens; (split; [intros ->; reflexivity|]); intros Hne;
    rewrite <- marked_read_ahead;
    (destruct (not_the_keyword_alone _ _ Hne) as [(t & -> & Ht)|Hsome];
     [rewrite read_ahead_single; unfold marked;
      cbn [SCSS.add_imports_loop SCSS.add_inheritance_loop List.filter fst snd];
      rewrite Ht; split; [reflexivity | apply counted_once_nothing]
     |]).
  - apply (scss_loops_counted _ _ Hsome p).
  - apply (scss_loops_counted _ _ Hsome p).
Qed.

(** ** Includes of the Twig parser *)

Lemma twig_loop_counted (triples : list (nat * str * option (list str))) (imports : loc) :
  Forall (fun triple => snd triple <> None) triples ->
  forall p : Parser,
    let p' := snd (Twig.add_imports_loop triples imports p) in
    fst (Twig.add_imports_loop triples imports p) = Py.Ok tt
    /\ (exists added : list str,
          Heap.read (heap p') imports = Heap.read (heap p) imports ++ added
          /\ Forall (fun name =>
                       name <> "" /\ forallb Twig.include_name_chars name = true) added
          /\ Statistics.parsing_misses (statistics p') + length added
             = Statistics.parsing_misses (statistics p) + marked Twig.INCLUDE triples)
    /\ Statistics.parsing_hits (statistics p') = Statistics.parsing_hits (statistics p)
    /\ _results p' = _results p.
Proof.
  unfold marked.
  induction 1 as [|[[i obj] following] triples Hsome _ IH]; intros p;
    cbn [Twig.add_imports_loop List.filter fst snd].
  - split; [reflexivity|]. split; [|now split].
    exists []. rewrite app_nil_r. repeat split; try constructor; cbn; lia.
  - destruct following as [following|]; [clear Hsome | now cbn in Hsome].
    cbn [ParsingMixin.create_read_ahead_string].
    destruct (Py.str_eqb obj Twig.INCLUDE); [|apply IH].
    destruct (pp.parseString Twig.expression_to_match _) as [parsing_result|] eqn:Hparse.
    + destruct (IH (set_heap p (Heap.append (heap p) imports (nth 1 parsing_result ""))))
        as (Hok & (added & Hread & Hadded & Hmisses) & Hhits & Hresults).
      cbn zeta in *. cbn [set_heap heap statistics _results] in *.
      split; [exact Hok|]. split; [|now split].
      exists (nth 1 parsing_result "" :: added).
      rewrite Hread, heap_read_append_eq, <- app_assoc.
      split; [reflexivity|]. split.
      { constructor; [|exact Hadded]. now apply keyword_word_name2 in Hparse. }
      cbn [length]. lia.
    + destruct (IH (set_statistics p
                      (Statistics.increment (statistics p) Statistics.PARSING_MISSES)))
        as (Hok & (added & Hread & Hadded & Hmisses) & Hhits & Hresults).
      cbn zeta in *.
      cbn [set_statistics heap statistics _results Statistics.increment
           Statistics.parsing_hits Statistics.parsing_misses] in *.
      split; [exact Hok|]. split; [|now split].
      exists added. repeat split; try assumption. cbn [length]. lia.
Qed.

(** the loop over triples that all carry a read-ahead goes on with
    whatever follows them *)
Lemma twig_loop_app (before after : list (nat * str * option (list str)))
    (imports : loc) :
  Forall (fun triple => snd triple <> None) before ->
  forall p : Parser,
    Twig.add_imports_loop (before ++ after) imports p
    = Twig.add_imports_loop after imports
        (snd (Twig.add_imports_loop before imports p)).
Proof.
  induction 1 as [|[[i obj] following] before Hsome _ IH]; intros p;
    cbn [app Twig.add_imports_loop snd]; [reflexivity|].
  destruct following as [following|]; [clear Hsome | now cbn in Hsome].
  cbn [ParsingMixin.create_read_ahead_string].
  destruct (Py.str_eqb obj Twig.INCLUDE); [|apply IH].
  destruct (pp.parseString Twig.expression_to_match _); apply IH.
Qed.

(** the triples of a list of two tokens or more end with the last token
    and the slice kept from the turn before, which holds this token *)
Lemma read_ahead_last (pre : list str) (t : str) :
  pre <> [] ->
  exists before : list (nat * str * option (list str)),
    ParsingMixin._gen_word_read_ahead (pre ++ [t]) = before ++ [(length pre, t, Some [t])]
    /\ Forall (fun triple => snd triple <> None) before.
Proof.
  intros Hpre.
  set (ts := pre ++ [t]). set (T := ParsingMixin._gen_word_read_ahead ts).
  assert (Hlen : length ts = S (length pre))
    by (unfold ts; rewrite length_app; cbn; lia).
  assert (Hk : ts !! length pre = Some t).
  { unfold ts. now rewrite lookup_app_r, Nat.sub_diag by lia. }
  pose proof (read_ahead_lookup ts _ _ Hk) as HT. fold T in HT.
  assert (Hf : following_at ts (length pre) = Some [t]).
  { unfold following_at. rewrite Hlen.
    destruct (Nat.ltb_spec (length pre) (S (length pre) - 1)); [lia|].
    destruct pre as [|x pre]; [done|]. cbn [length] in *.
    destruct (Nat.leb_spec 2 (S (S (length pre)))); [|lia].
    f_equal. replace (S (S (length pre)) - 1) with (length (x :: pre)) by (cbn; lia).
    unfold ts. now rewrite drop_app_length. }
  rewrite Hf in HT.
  assert (HlenT : length T = S (length pre)).
  { unfold T, ParsingMixin._gen_word_read_ahead.
    now rewrite gen_word_read_ahead_from_length. }
  exists (take (length pre) T). split.
  - rewrite <- (take_drop_middle T _ _ HT) at 1. f_equal. f_equal.
    apply length_zero_iff_nil. rewrite length_drop. lia.
  - apply Forall_take. apply read_ahead_following. rewrite Hlen.
    destruct pre; [done | cbn; lia].
Qed.

(** X24. The include scan of a file result raises in one case only: when
    the tokens are [include] alone, the read-ahead string raises a
    [TypeError] that nothing catches, and the parser is left as it was.
    For any other tokens the scan returns; every [include] token either
    appends a name, a non-empty run of letters, digits and dots, or
    counts a miss; no hit is ever counted and the registry is left
    alone. An [include] that is the last of several tokens is read
    together with the slice kept from the turn before, which holds the
    token itself: it appends the name [include]. *)
Theorem twig_includes (result : FileResult.t) (p : Parser) :
  let tokens := FileResult.scanned_tokens result in
  let imports := FileResult.scanned_import_dependencies result in
  let scan := Twig._add_imports_to_result result p in
  (tokens = [Twig.INCLUDE] -> scan = (Py.Raise Py.TypeError, p))
  /\ (tokens <> [Twig.INCLUDE] ->
      fst scan = Py.Ok tt
      /\ (exists added : list str,
            Heap.read (heap (snd scan)) imports = Heap.read (heap p) imports ++ added
            /\ Forall (fun name =>
                         name <> "" /\ forallb Twig.include_name_chars name = true)
                 added
            /\ Statistics.parsing_misses (statistics (snd scan)) + length added
               = Statistics.parsing_misses (statistics p)
                 + occurrences Twig.INCLUDE tokens)
      /\ Statistics.parsing_hits (statistics (snd scan))
         = Statistics.parsing_hits (statistics p)
      /\ _results (snd scan) = _results p)
  /\ (forall pre : list str,
        pre <> [] -> tokens = pre ++ [Twig.INCLUDE] ->
        last (Heap.read (heap (snd scan)) imports) = Some Twig.INCLUDE).
Proof.
  intros tokens imports scan. subst scan. unfold Twig._add_imports_to_result.
  fold tokens imports. split; [intros ->; reflexivity|]. split.
  - intros Hne. rewrite <- marked_read_ahead.
    destruct (not_the_keyword_alone _ _ Hne) as [(t & -> & Ht)|Hsome].
    + rewrite read_ahead_single. unfold marked.
      cbn [Twig.add_imports_loop List.filter fst snd]. rewrite Ht.
      split; [reflexivity|]. split; [|now split].
      exists []. rewrite app_nil_r. repeat split; try constructor; cbn; lia.
    + apply (twig_loop_counted _ _ Hsome p).
  - intros pre Hpre ->.
    destruct (read_ahead_last pre Twig.INCLUDE Hpre) as (before & -> & Hsome).
    rewrite (twig_loop_app _ _ _ Hsome).
    set (q := snd (Twig.add_imports_loop before imports p)).
    change (Twig.add_imports_loop [(length pre, Twig.INCLUDE, Some [Twig.INCLUDE])]
              imports q)
      with (Py.Ok tt, set_heap q (Heap.append (heap q) imports Twig.INCLUDE)).
    cbn [snd set_heap heap]. rewrite heap_read_append_eq. apply last_snoc.
Qed.

(** ** After the file results: every file result gets its own imports *)


Lemma vb_add_file_imports_loop_frame (triples : list (nat * str * option (list str)))
    (a b : loc) :
  b <> a ->
  forall h : Heap.t, Heap.read (VBNet.add_file_imports_loop triples a h) b = Heap.read h b.
Proof.
  intros Hab. induction triples as [|[[i obj] following] triples IH]; intros h;
    cbn [VBNet.add_file_imports_loop]; [reflexivity|].
  destruct (Py.str_eqb obj VBNet.IMPORT); [|apply IH].
  rewrite IH.
  destruct (ParsingMixin.create_read_ahead_string obj following) as [s|e];
    [|reflexivity].
  destruct (Py.index _ 1) as [name|e]; [|reflexivity].
  apply heap_read_append_ne. congruence.
Qed.

(** X25. [after_generated_file_results] of the VB.NET, the C# and the CSS
    parser visits the file results of the registry that belong to the
    analysis given, and only those. When these hold pairwise distinct
    import lists, the list of each is extended by the imports read off
    that file's own tokens, whatever the other files hold; every other
    list of the store, those of the file results of another analysis
    among them, is left as it is, and so is the registry. *)
Theorem after_file_results_each_file_its_imports (p : Parser) (analysis : nat) :
  let visited := file_results_of analysis (_results p) in
  let imports := FileResult.scanned_import_dependencies in
  NoDup (map imports visited) ->
  (forall f : FileResult.t,
      f ∈ visited
      <-> f ∈ file_results (_results p) /\ FileResult.analysis f = analysis)
  /\ Forall (fun f =>
               Heap.read (heap (VBNet.after_generated_file_results p analysis))
                 (imports f)
               = Heap.read (heap p) (imports f)
                 ++ VBNet.file_imports
                      (ParsingMixin._gen_word_read_ahead (FileResult.scanned_tokens f))
               /\ Heap.read (heap (CSharp.after_generated_file_results p analysis))
                    (imports f)
                  = Heap.read (heap p) (imports f)
                    ++ CSharp.file_usings
                         (ParsingMixin._gen_word_read_ahead
                            (FileResult.scanned_tokens f))
               /\ Heap.read (heap (CSS.after_generated_file_results p analysis))
                    (imports f)
                  = Heap.read (heap p) (imports f)
                    ++ CSS.import_names (FileResult.scanned_tokens f))
       visited
  /\ (forall a : loc,
        a ∉ map imports visited ->
        Heap.read (heap (VBNet.after_generated_file_results p analysis)) a
        = Heap.read (heap p) a
        /\ Heap.read (heap (CSharp.after_generated_file_results p analysis)) a
           = Heap.read (heap p) a
        /\ Heap.read (heap (CSS.after_generated_file_results p analysis)) a
           = Heap.read (heap p) a)
  /\ _results (VBNet.after_generated_file_results p analysis) = _results p
  /\ _results (CSharp.after_generated_file_results p analysis) = _results p
  /\ _results (CSS.after_generated_file_results p analysis) = _results p.
Proof.
  intros visited imports Hnodup.
  split; [|split; [|split; [|now repeat split]]].
  - intros f. unfold visited, file_results_of.
    rewrite !list_elem_of_In, filter_In, Nat.eqb_eq. reflexivity.
  - unfold VBNet.after_generated_file_results, VBNet._add_imports_to_file_results,
      CSharp.after_generated_file_results, CSharp._add_usings_to_file_results,
      CSS.after_generated_file_results.
    cbn [set_heap heap]. fold visited.
    pose proof (over_cells_read imports
                  (fun h f => VBNet.add_file_imports_loop
                                (ParsingMixin._gen_word_read_ahead
                                   (FileResult.scanned_tokens f))
                                (imports f) h)
                  (fun f => VBNet.file_imports
                              (ParsingMixin._gen_word_read_ahead
                                 (FileResult.scanned_tokens f)))
                  (fun f h => vb_add_file_imports_loop_read _ _ h)
                  (fun f h a Ha => vb_add_file_imports_loop_frame _ _ a Ha h)
                  visited (heap p) Hnodup) as Hvb.
    pose proof (over_cells_read imports
                  (fun h f => CSharp.add_usings_to_file_result f h)
                  (fun f => CSharp.file_usings
                              (ParsingMixin._gen_word_read_ahead
                                 (FileResult.scanned_tokens f)))
                  (fun f h => heap_read_appends h _ _)
                  (fun f h a Ha => heap_read_appends_ne h _ a _ (not_eq_sym Ha))
                  visited (heap p) Hnodup) as Hcs.
    pose proof (over_cells_read imports
                  (fun h f => CSS.add_imports_of_tokens (FileResult.scanned_tokens f)
                                (imports f) h)
                  (fun f => CSS.import_names (FileResult.scanned_tokens f))
                  (fun f h => css_add_imports_read _ _ h)
                  (fun f h a Ha => add_imports_of_tokens_frame _ _ a (not_eq_sym Ha) h)
                  visited (heap p) Hnodup) as Hcss.
    rewrite Forall_forall in Hvb, Hcs, Hcss |- *.
    intros f Hf. split; [now apply Hvb|]. split; [now apply Hcs | now apply Hcss].
  - intros a Ha.
    unfold VBNet.after_generated_file_results, VBNet._add_imports_to_file_results,
      CSharp.after_generated_file_results, CSharp._add_usings_to_file_results,
      CSS.after_generated_file_results.
    cbn [set_heap heap]. fold visited. split; [|split].
    + apply (over_cells_frame imports
               (fun h f => VBNet.add_file_imports_loop
                             (ParsingMixin._gen_word_read_ahead
                                (FileResult.scanned_tokens f))
                             (imports f) h)
               (fun f h a Ha => vb_add_file_imports_loop_frame _ _ a Ha h)
               visited (heap p) a Ha).
    + apply (over_cells_frame imports
               (fun h f => CSharp.add_usings_to_file_result f h)
               (fun f h a Ha => heap_read_appends_ne h _ a _ (not_eq_sym Ha))
               visited (heap p) a Ha).
    + apply (over_cells_frame imports
               (fun h f => CSS.add_imports_of_tokens (FileResult.scanned_tokens f)
                             (imports f) h)
               (fun f h a Ha => add_imports_of_tokens_frame _ _ a (not_eq_sym Ha) h)
               visited (heap p) a Ha).
Qed.

(** X25, at two style sheets that both hold an import, of which only
    the first belongs to the analysis. *)
Lemma after_file_results_each_file_its_imports_witness :
  let other := FileResult.mk 1 "proj/b.css" "b.css" "/src/proj/b.css" "b.css" ""
                 ["@import"; "y"; ";"] 1 "" in
  let p := mkParser
             [("a.css", IsFile (a_file ["@import"; "x"; ";"] 0));
              ("b.css", IsFile other)]
             (fresh_store 2) (Statistics.mk 0 0) in
  Heap.read (heap (CSS.after_generated_file_results p 0)) 0 = [""]
  /\ Heap.read (heap (CSS.after_generated_file_results p 0)) 1 = [].
Proof.
  intros other p.
  assert (Hnodup : NoDup (map FileResult.scanned_import_dependencies
                            (file_results_of 0 (_results p))))
    by (apply (bool_decide_unpack _); vm_compute; exact I).
  destruct (after_file_results_each_file_its_imports p 0 Hnodup)
    as (_ & Hall & Hrest & _).
  inversion Hall as [|f1 fs (_ & _ & H1) _]; subst.
  split; [exact H1|].
  apply (Hrest 1). apply (bool_decide_unpack _). vm_compute. exact I.
Defined.

